(** * Health aggregation, result cache, host registry and log retrieval

    A shallow embedding of the observability backend of the health-checker
    frontend server:

    - [healthManager.js]  (class HealthCheckManager): remote probes with the
      result cache, the fan-out over the enabled hosts and
      [combineHealthResults];
    - [config.js]         (class ConfigManager): the host registry;
    - the Express application that requires both: its host management
      routes pair a registry mutation with a cache invalidation;
    - [logManager.js]     (class LogManager): [getServiceLogs].

    JavaScript values are embedded as follows.  Strings are [string], numbers
    that the code only adds, compares or prints are [Z], a property that may
    be absent ([undefined]) is an [option], a JS [Map] keyed by strings is a
    [gmap string _], arrays are lists.  A thrown exception (or a rejected
    promise) is [None] or an explicit error constructor.  Everything the code
    obtains from outside (the clock, the HTTP peer, the spawned probe, the
    log files) is passed in as an explicit environment.

    The numbers of the code are floating-point numbers: sums and differences
    of integers are the exact ones as long as they stay within 2^53, and
    what is proved about a sum says so.  Strings are taken to be text of
    ASCII characters where the code changes the case of letters. *)

From stdpp Require Import gmap strings list fin_maps pretty.

Open Scope Z_scope.

(** ** JavaScript helpers *)

(** [x || d] for a string property: [undefined] and the empty string are
    falsy. *)
Definition or_string (x : option string) (d : string) : string :=
  match x with
  | Some "" | None => d
  | Some s => s
  end.

(** [x || 0] and [x || d] for a numeric property: [undefined] and [0] are
    falsy. *)
Definition or_number (x : option Z) (d : Z) : Z :=
  match x with
  | Some 0 | None => d
  | Some n => n
  end.

(** [s.startsWith(p)] *)
Fixpoint startsWith (s p : string) {struct p} : bool :=
  match p, s with
  | EmptyString, _ => true
  | String a p', String b s' => bool_decide (a = b) && startsWith s' p'
  | String _ _, EmptyString => false
  end.

(** ** Data model *)

Module Host.
Record t := mk {
  id : string;
  name : string;
  host : string;
  port : Z;
  type : string;
  enabled : bool;
  description : string;
}.
End Host.

(** One entry of a report's [checks] array.  The three [host_*] properties
    are absent on what a probe emits and are set by [combineHealthResults];
    a remote peer that is itself an aggregating server sends them filled. *)
Module Check.
Record t := mk {
  service_name : string;
  status : string;
  response_time_ms : Z;
  details : string;
  timestamp : string;
  error_message : option string;
  host_id : option string;
  host_name : option string;
  host_type : option string;
}.
End Check.

(** The payload of one probe of one host: what the local probe prints or the
    remote peer answers, taken to be a JSON object.  [checks] and the
    counters may be missing; [overall_status] is whatever string the payload
    has there. *)
Module HostReport.
Record t := mk {
  timestamp : string;
  overall_status : string;
  total_checks : Z;
  healthy_count : option Z;
  unhealthy_count : option Z;
  degraded_count : option Z;
  unknown_count : option Z;
  checks : option (list Check.t);
  summary : string;
}.
End HostReport.

Module HostSummary.
Record t := mk {
  id : string;
  name : string;
  host : string;
  port : Z;
  type : string;
  status : string;
}.
End HostSummary.

Module UnifiedReport.
Record t := mk {
  timestamp : string;
  overall_status : string;
  total_checks : nat;
  healthy_count : Z;
  unhealthy_count : Z;
  degraded_count : Z;
  unknown_count : Z;
  checks : list Check.t;
  summary : string;
  hosts : list HostSummary.t;
}.
End UnifiedReport.

(** The object [{ host, data }] a per-host task resolves to. *)
Module ProbeValue.
Record t := mk {
  host : Host.t;
  data : HostReport.t;
}.
End ProbeValue.

(** One element of the array [Promise.allSettled] resolves to.  A rejection
    carries [reason?.message]. *)
Inductive SettledResult :=
| fulfilled (value : ProbeValue.t)
| rejected (message : option string).

(** [result.status] *)
Definition settledStatus (r : SettledResult) : string :=
  match r with
  | fulfilled _ => "fulfilled"
  | rejected _ => "rejected"
  end.

(** ** [combineHealthResults] *)

(** The object pushed for each check of a fulfilled host:
    [{...check, host_id, host_name, host_type, service_name}]. *)
Definition tagCheck (host : Host.t) (check : Check.t) : Check.t :=
  {| Check.service_name := Host.name host +:+ ": " +:+ Check.service_name check;
     Check.status := Check.status check;
     Check.response_time_ms := Check.response_time_ms check;
     Check.details := Check.details check;
     Check.timestamp := Check.timestamp check;
     Check.error_message := Check.error_message check;
     Check.host_id := Some (Host.id host);
     Check.host_name := Some (Host.name host);
     Check.host_type := Some (Host.type host) |}.

(** The object pushed for a rejected host. *)
Definition failedConnectionCheck (host : Host.t) (isoNow : string)
    (message : option string) : Check.t :=
  {| Check.service_name := Host.name host +:+ ": Connection";
     Check.status := "Unhealthy";
     Check.response_time_ms := 0;
     Check.details :=
       "Failed to connect to " +:+ Host.host host +:+ ":" +:+ pretty (Host.port host);
     Check.timestamp := isoNow;
     Check.error_message := Some (or_string message "Connection failed");
     Check.host_id := Some (Host.id host);
     Check.host_name := Some (Host.name host);
     Check.host_type := Some (Host.type host) |}.

(** The local variables of [combineHealthResults] that the loop updates. *)
Record Totals := mkTotals {
  combinedChecks : list Check.t;
  totalHealthy : Z;
  totalUnhealthy : Z;
  totalDegraded : Z;
  totalUnknown : Z;
  overallStatus : string;
}.

Definition initialTotals : Totals :=
  mkTotals [] 0 0 0 0 "Healthy".

(** The body of [results.forEach((result, index) => ...)].  [hosts[index]]
    is [undefined] past the end of [hosts]; reading a property of it throws,
    which is the [None] here.  It is read once per check of a fulfilled
    host, and once for a rejected one.  The four totals are added up as
    integers, which is what [+=] computes while they stay within 2^53. *)
Definition forEachCallback (hosts : list Host.t) (isoNow : string)
    (acc : Totals) (result : SettledResult) (index : nat) : option Totals :=
  let host := hosts !! index in
  match result with
  | fulfilled value =>
      let data := ProbeValue.data value in
      pushed ← match HostReport.checks data with
               | Some cs => mapM (λ check, h ← host; Some (tagCheck h check)) cs
               | None => Some []
               end;
      Some {| combinedChecks := combinedChecks acc ++ pushed;
              totalHealthy := totalHealthy acc + or_number (HostReport.healthy_count data) 0;
              totalUnhealthy := totalUnhealthy acc + or_number (HostReport.unhealthy_count data) 0;
              totalDegraded := totalDegraded acc + or_number (HostReport.degraded_count data) 0;
              totalUnknown := totalUnknown acc + or_number (HostReport.unknown_count data) 0;
              overallStatus :=
                if bool_decide (HostReport.overall_status data = "Unhealthy") then "Unhealthy"
                else if bool_decide (HostReport.overall_status data = "Degraded")
                        && negb (bool_decide (overallStatus acc = "Unhealthy"))
                then "Degraded"
                else overallStatus acc |}
  | rejected message =>
      h ← host;
      Some {| combinedChecks := combinedChecks acc ++ [failedConnectionCheck h isoNow message];
              totalHealthy := totalHealthy acc;
              totalUnhealthy := totalUnhealthy acc + 1;
              totalDegraded := totalDegraded acc;
              totalUnknown := totalUnknown acc;
              overallStatus := "Unhealthy" |}
  end.

Fixpoint forEachResult (hosts : list Host.t) (isoNow : string)
    (results : list SettledResult) (index : nat) (acc : Totals) : option Totals :=
  match results with
  | [] => Some acc
  | result :: rest =>
      acc' ← forEachCallback hosts isoNow acc result index;
      forEachResult hosts isoNow rest (S index) acc'
  end.

(** [results.find((_, i) => hosts[i].id === hostId)], scanning from index
    [i].  The outer option is the exception of reading [hosts[i].id] past the
    end of [hosts], the inner one is [find]'s [undefined]. *)
Fixpoint findResultOfHost (hosts : list Host.t) (hostId : string)
    (results : list SettledResult) (i : nat) : option (option SettledResult) :=
  match results with
  | [] => Some None
  | result :: rest =>
      h ← hosts !! i;
      if bool_decide (Host.id h = hostId) then Some (Some result)
      else findResultOfHost hosts hostId rest (S i)
  end.

(** [found?.status === 'fulfilled' ? 'online' : 'offline'] *)
Definition onlineStatus (found : option SettledResult) : string :=
  match found with
  | Some result =>
      if bool_decide (settledStatus result = "fulfilled") then "online" else "offline"
  | None => "offline"
  end.

Definition hostSummary (hosts : list Host.t) (results : list SettledResult)
    (host : Host.t) : option HostSummary.t :=
  found ← findResultOfHost hosts (Host.id host) results 0;
  Some {| HostSummary.id := Host.id host;
          HostSummary.name := Host.name host;
          HostSummary.host := Host.host host;
          HostSummary.port := Host.port host;
          HostSummary.type := Host.type host;
          HostSummary.status := onlineStatus found |}.

Definition summaryText (t : Totals) (hostCount : nat) : string :=
  "Multi-host health check: " +:+ pretty (totalHealthy t) +:+ " healthy, "
  +:+ pretty (totalUnhealthy t) +:+ " unhealthy, "
  +:+ pretty (totalDegraded t) +:+ " degraded, "
  +:+ pretty (totalUnknown t) +:+ " unknown out of "
  +:+ pretty (length (combinedChecks t)) +:+ " total services across "
  +:+ pretty hostCount +:+ " hosts".

(** [combineHealthResults(results, hosts)].  [isoNow] is what
    [new Date().toISOString()] returns during the call; [None] is a thrown
    TypeError. *)
Definition combineHealthResults (results : list SettledResult)
    (hosts : list Host.t) (isoNow : string) : option UnifiedReport.t :=
  t ← forEachResult hosts isoNow results 0%nat initialTotals;
  summaries ← mapM (hostSummary hosts results) hosts;
  Some {| UnifiedReport.timestamp := isoNow;
          UnifiedReport.overall_status := overallStatus t;
          UnifiedReport.total_checks := length (combinedChecks t);
          UnifiedReport.healthy_count := totalHealthy t;
          UnifiedReport.unhealthy_count := totalUnhealthy t;
          UnifiedReport.degraded_count := totalDegraded t;
          UnifiedReport.unknown_count := totalUnknown t;
          UnifiedReport.checks := combinedChecks t;
          UnifiedReport.summary := summaryText t (length hosts);
          UnifiedReport.hosts := summaries |}.

(** ** The health check manager: probes and the result cache *)

Module CacheEntry.
Record t := mk {
  data : HostReport.t;
  timestamp : Z;
}.
End CacheEntry.

(** The fields of [HealthCheckManager]. *)
Record HealthCheckManager := mkManager {
  healthCheckerPath : string;
  cache : gmap string CacheEntry.t;
  cacheTimeout : Z;
}.

(** The constructor: an empty cache and a timeout of 30 seconds (in ms). *)
Definition newHealthCheckManager (path : string) : HealthCheckManager :=
  {| healthCheckerPath := path; cache := ∅; cacheTimeout := 30000 |}.

(** What the manager does to the outside world. *)
Inductive Effect :=
| Spawn (path : string) (args : list string)
| HttpGet (url : string) (timeout : Z).

(** How the spawned probe ends: the [close] event with the exit code
    ([null] when killed by a signal) and with stdout as [JSON.parse] reads
    it ([None] when it throws), or the [error] event. *)
Inductive ProcessOutcome :=
| exited (code : option Z) (stdout : option HostReport.t)
| spawnFailed (message : string).

(** What happens to a GET request: an answer with an HTTP status, no answer
    at all, or no answer within the configured timeout. *)
Inductive AxiosOutcome :=
| answered (status : Z) (data : HostReport.t)
| networkError (message : string)
| timedOut.

(** [axios.get(url, {timeout})] with axios' default [validateStatus]: the
    promise resolves for a status in 200..299 and rejects with an [Error]
    otherwise; [inr] carries [error.message]. *)
Definition axiosGet (timeout : Z) (o : AxiosOutcome) : HostReport.t + string :=
  match o with
  | answered status data =>
      if bool_decide (200 ≤ status) && bool_decide (status < 300) then inl data
      else inr ("Request failed with status code " +:+ pretty status)
  | networkError message => inr message
  | timedOut => inr ("timeout of " +:+ pretty timeout +:+ "ms exceeded")
  end.

(** What the outside world does during one per-host task. *)
Record TaskEnv := mkTaskEnv {
  checkedAt : Z;            (* [Date.now()] at the cache check *)
  process : ProcessOutcome; (* the fate of the probe, if one is spawned *)
  http : AxiosOutcome;      (* the fate of the GET, if one is issued *)
  answeredAt : Z;           (* [Date.now()] when the response is cached *)
  isoNow : string;          (* [new Date().toISOString()] *)
}.

(** [executeLocalHealthChecker(args)]: [inr] is the message of the error the
    promise rejects with. *)
Definition executeLocalHealthChecker (m : HealthCheckManager)
    (args : list string) (e : TaskEnv) : (HostReport.t + string) * list Effect :=
  (match process e with
   | exited code stdout =>
       if bool_decide (code = Some 0) then
         match stdout with
         | Some jsonData => inl jsonData
         | None => inr "Invalid JSON response from health checker"
         end
       else inr ("Health checker failed with exit code "
                 +:+ match code with Some c => pretty c | None => "null" end)
   | spawnFailed message => inr message
   end,
   [Spawn (healthCheckerPath m) (args ++ ["--format"; "json"])]).

Definition remoteUrl (host : Host.t) (endpoint : string) : string :=
  "http://" +:+ Host.host host +:+ ":" +:+ pretty (Host.port host) +:+ endpoint.

Definition cacheKey (host : Host.t) (endpoint : string) : string :=
  Host.id host +:+ "-" +:+ endpoint.

(** The cache check: [cached && Date.now() - cached.timestamp < cacheTimeout],
    giving [cached.data]. *)
Definition cachedData (m : HealthCheckManager) (key : string) (now : Z)
    : option HostReport.t :=
  cached ← cache m !! key;
  if bool_decide (now - CacheEntry.timestamp cached < cacheTimeout m)
  then Some (CacheEntry.data cached) else None.

(** The report built in the [catch] block. *)
Definition failureReport (host : Host.t) (isoNow : string) (message : string)
    : HostReport.t :=
  {| HostReport.timestamp := isoNow;
     HostReport.overall_status := "Unhealthy";
     HostReport.total_checks := 1;
     HostReport.healthy_count := Some 0;
     HostReport.unhealthy_count := Some 1;
     HostReport.degraded_count := Some 0;
     HostReport.unknown_count := Some 0;
     HostReport.checks := Some [
       {| Check.service_name := Host.name host +:+ " Connection";
          Check.status := "Unhealthy";
          Check.response_time_ms := 0;
          Check.details :=
            "Failed to connect to " +:+ Host.host host +:+ ":"
            +:+ pretty (Host.port host) +:+ " - " +:+ message;
          Check.timestamp := isoNow;
          Check.error_message := Some message;
          Check.host_id := None;
          Check.host_name := None;
          Check.host_type := None |} ];
     HostReport.summary := "Failed to connect to host " +:+ Host.name host |}.

(** One run of [executeRemoteHealthCheck] against the cache as it is at the
    cache check: the report returned, the request issued (if any) and the
    entry that [this.cache.set] stores once the response is in (if any).
    The request carries the fixed timeout of 10000 ms; the credentials added
    to it do not change what the function does with the answer and are left
    out. *)
Record RemoteRun := mkRemoteRun {
  returned : HostReport.t;
  requests : list Effect;
  stored : option (string * CacheEntry.t);
}.

Definition remoteRun (m : HealthCheckManager) (host : Host.t)
    (endpoint : string) (e : TaskEnv) : RemoteRun :=
  let url := remoteUrl host endpoint in
  let key := cacheKey host endpoint in
  match cachedData m key (checkedAt e) with
  | Some data => mkRemoteRun data [] None
  | None =>
      match axiosGet 10000 (http e) with
      | inl data =>
          mkRemoteRun data [HttpGet url 10000]
            (Some (key, CacheEntry.mk data (answeredAt e)))
      | inr message =>
          mkRemoteRun (failureReport host (isoNow e) message) [HttpGet url 10000] None
      end
  end.

(** [this.cache.set(key, entry)] for the entry of a run, if it has one. *)
Definition store (write : option (string * CacheEntry.t))
    (m : HealthCheckManager) : HealthCheckManager :=
  match write with
  | Some (key, entry) =>
      {| healthCheckerPath := healthCheckerPath m;
         cache := <[key := entry]> (cache m);
         cacheTimeout := cacheTimeout m |}
  | None => m
  end.

(** [executeRemoteHealthCheck(host, endpoint)] as one call: the manager
    afterwards, the report the promise resolves to (it never rejects) and the
    requests made. *)
Definition executeRemoteHealthCheck (m : HealthCheckManager) (host : Host.t)
    (endpoint : string) (e : TaskEnv)
    : HealthCheckManager * HostReport.t * list Effect :=
  let run := remoteRun m host endpoint e in
  (store (stored run) m, returned run, requests run).

(** The test [host.type === 'local' || host.host === 'localhost']. *)
Definition isLocal (host : Host.t) : bool :=
  bool_decide (Host.type host = "local") || bool_decide (Host.host host = "localhost").

(** The per-host task [async (host) => ...] of the fan-out, run against the
    cache as it is when the fan-out starts. *)
Record TaskRun := mkTaskRun {
  settled : SettledResult;
  effects : list Effect;
  cacheWrite : option (string * CacheEntry.t);
}.

Definition hostTask (m : HealthCheckManager) (arg endpoint : string)
    (e : TaskEnv) (host : Host.t) : TaskRun :=
  if isLocal host then
    let '(outcome, spawned) := executeLocalHealthChecker m [arg] e in
    match outcome with
    | inl data => mkTaskRun (fulfilled (ProbeValue.mk host data)) spawned None
    | inr message => mkTaskRun (rejected (Some message)) spawned None
    end
  else
    let run := remoteRun m host endpoint e in
    mkTaskRun (fulfilled (ProbeValue.mk host (returned run))) (requests run) (stored run).

(** What the outside world does during one aggregation cycle: the
    environment of the task of the host at each index, and the time
    [combineHealthResults] reads. *)
Record CycleEnv := mkCycleEnv {
  task : nat → TaskEnv;
  combinedAt : string;
}.

(** The fan-out [Promise.allSettled(hosts.map(async (host) => ...))].  The
    map runs every task up to its first [await] before any response is
    handled, so every cache check reads the cache as it is at the start;
    the cache writes of the answered requests follow, here in the order of
    the hosts (writes to different keys commute, so the order matters only
    between hosts that share a cache key). *)
Definition fanOut (m : HealthCheckManager) (arg endpoint : string)
    (env : CycleEnv) (hosts : list Host.t) : list TaskRun :=
  imap (λ i host, hostTask m arg endpoint (task env i) host) hosts.

Definition applyWrites (m : HealthCheckManager) (runs : list TaskRun)
    : HealthCheckManager :=
  foldl (λ m' run, store (cacheWrite run) m') m runs.

(** The two aggregating methods, which differ in the argument of the probe
    and the endpoint: the manager afterwards, the report, and the probes
    made, in the order of the hosts. *)
Definition aggregate (m : HealthCheckManager) (arg endpoint : string)
    (env : CycleEnv) (hosts : list Host.t)
    : HealthCheckManager * option UnifiedReport.t * list Effect :=
  let runs := fanOut m arg endpoint env hosts in
  (applyWrites m runs,
   combineHealthResults (settled <$> runs) hosts (combinedAt env),
   concat (effects <$> runs)).

(** ** The host registry ([ConfigManager]) *)

Definition getEnabledHosts (hosts : list Host.t) : list Host.t :=
  filter (λ host, Host.enabled host = true) hosts.

(** [this.hosts.find(host => host.id === id)] *)
Definition getHostById (hosts : list Host.t) (id : string) : option Host.t :=
  list_find (λ host, Host.id host = id) hosts ≫= λ found, Some found.2.

(** The body of [POST /api/hosts].  [name] and [host] are taken as sent; the
    other properties may be missing. *)
Module HostConfig.
Record t := mk {
  id : option string;
  name : string;
  host : string;
  port : option Z;
  type : option string;
  enabled : option bool;
  description : option string;
}.
End HostConfig.

(** [addHost(hostConfig)]: the registry afterwards and the new host.  [now]
    is [Date.now()]. *)
Definition addHost (hosts : list Host.t) (hostConfig : HostConfig.t) (now : Z)
    : list Host.t * Host.t :=
  let newHost :=
    {| Host.id := or_string (HostConfig.id hostConfig) ("dynamic-" +:+ pretty now);
       Host.name := HostConfig.name hostConfig;
       Host.host := HostConfig.host hostConfig;
       Host.port := or_number (HostConfig.port hostConfig) 8095;
       Host.type := or_string (HostConfig.type hostConfig) "dynamic";
       Host.enabled := match HostConfig.enabled hostConfig with
                       | Some false => false
                       | _ => true
                       end;
       Host.description := or_string (HostConfig.description hostConfig) "" |} in
  (hosts ++ [newHost], newHost).

(** [removeHost(id)]: [findIndex] and [splice(index, 1)]. *)
Definition removeHost (hosts : list Host.t) (id : string)
    : list Host.t * option Host.t :=
  match list_find (λ host, Host.id host = id) hosts with
  | Some (index, removed) => (delete index hosts, Some removed)
  | None => (hosts, None)
  end.

(** The body of [PUT /api/hosts/:id]: any subset of a host's properties. *)
Module HostUpdates.
Record t := mk {
  id : option string;
  name : option string;
  host : option string;
  port : option Z;
  type : option string;
  enabled : option bool;
  description : option string;
}.
End HostUpdates.

(** [Object.assign(host, updates)] *)
Definition assign (host : Host.t) (updates : HostUpdates.t) : Host.t :=
  {| Host.id := default (Host.id host) (HostUpdates.id updates);
     Host.name := default (Host.name host) (HostUpdates.name updates);
     Host.host := default (Host.host host) (HostUpdates.host updates);
     Host.port := default (Host.port host) (HostUpdates.port updates);
     Host.type := default (Host.type host) (HostUpdates.type updates);
     Host.enabled := default (Host.enabled host) (HostUpdates.enabled updates);
     Host.description := default (Host.description host) (HostUpdates.description updates) |}.

(** [updateHost(id, updates)]: the first host with that id is updated in
    place. *)
Definition updateHost (hosts : list Host.t) (id : string)
    (updates : HostUpdates.t) : list Host.t * option Host.t :=
  match list_find (λ host, Host.id host = id) hosts with
  | Some (index, host) =>
      let updated := assign host updates in
      (<[index := updated]> hosts, Some updated)
  | None => (hosts, None)
  end.

(** ** Cache invalidation and the routes of the server *)

(** [clearCache(hostId = null)].  The test [if (hostId)] takes [null] and
    the empty string to the [else] branch.  The loop visits every key of the
    map and deletes those that start with [hostId + "-"]. *)
Definition clearCache (m : HealthCheckManager) (hostId : option string)
    : HealthCheckManager :=
  {| healthCheckerPath := healthCheckerPath m;
     cache :=
       match hostId with
       | Some (String _ _ as id) =>
           foldr (λ key c, if startsWith key (id +:+ "-") then delete key c else c)
                 (cache m) (map_to_list (cache m)).*1
       | Some "" | None => ∅
       end;
     cacheTimeout := cacheTimeout m |}.

(** [getAllHealthChecks()] and [getCategoryHealthChecks(category)] over the
    registry [hosts]. *)
Definition getAllHealthChecks (m : HealthCheckManager) (hosts : list Host.t)
    (env : CycleEnv) : HealthCheckManager * option UnifiedReport.t * list Effect :=
  aggregate m "all" "/api/health/all" env (getEnabledHosts hosts).

Definition getCategoryHealthChecks (m : HealthCheckManager) (hosts : list Host.t)
    (category : string) (env : CycleEnv)
    : HealthCheckManager * option UnifiedReport.t * list Effect :=
  aggregate m category ("/api/health/" +:+ category) env (getEnabledHosts hosts).

(** The two singletons the routes work on. *)
Record Server := mkServer {
  config : list Host.t;
  healthManager : HealthCheckManager;
}.

Inductive Response :=
| Created (host : Host.t)
| Updated (host : Host.t)
| Removed (host : Host.t)
| NotFound.

(** [app.post('/api/hosts')] *)
Definition postHost (s : Server) (body : HostConfig.t) (now : Z) : Server * Response :=
  let '(hosts, newHost) := addHost (config s) body now in
  (mkServer hosts (clearCache (healthManager s) None), Created newHost).

(** [app.put('/api/hosts/:id')] *)
Definition putHost (s : Server) (id : string) (updates : HostUpdates.t)
    : Server * Response :=
  match updateHost (config s) id updates with
  | (hosts, Some updatedHost) =>
      (mkServer hosts (clearCache (healthManager s) (Some id)), Updated updatedHost)
  | (hosts, None) => (mkServer hosts (healthManager s), NotFound)
  end.

(** [app.delete('/api/hosts/:id')] *)
Definition deleteHost (s : Server) (id : string) : Server * Response :=
  match removeHost (config s) id with
  | (hosts, Some removedHost) =>
      (mkServer hosts (clearCache (healthManager s) (Some id)), Removed removedHost)
  | (hosts, None) => (mkServer hosts (healthManager s), NotFound)
  end.

(** [app.get('/api/health/all')] *)
Definition getHealthAll (s : Server) (env : CycleEnv)
    : Server * option UnifiedReport.t * list Effect :=
  let '(m, report, trace) := getAllHealthChecks (healthManager s) (config s) env in
  (mkServer (config s) m, report, trace).

(** ** The log manager *)

Definition lowerChar (c : Ascii.ascii) : Ascii.ascii :=
  let n := Ascii.nat_of_ascii c in
  if ((65 <=? n) && (n <=? 90))%nat then Ascii.ascii_of_nat (n + 32) else c.

Definition upperChar (c : Ascii.ascii) : Ascii.ascii :=
  let n := Ascii.nat_of_ascii c in
  if ((97 <=? n) && (n <=? 122))%nat then Ascii.ascii_of_nat (n - 32) else c.

(** [s.toLowerCase()] and [s.toUpperCase()] for strings of ASCII characters:
    the letters A-Z and a-z are folded and every other character is kept.
    The methods of JavaScript also map letters outside ASCII; what is proved
    about arbitrary text through these two functions is stated for ASCII
    text.  No character outside ASCII is mapped to a letter of the names of
    the supported services. *)
Fixpoint toLowerCase (s : string) : string :=
  match s with
  | EmptyString => EmptyString
  | String c s' => String (lowerChar c) (toLowerCase s')
  end.

Fixpoint toUpperCase (s : string) : string :=
  match s with
  | EmptyString => EmptyString
  | String c s' => String (upperChar c) (toUpperCase s')
  end.

(** [parts.join(sep)] *)
Fixpoint join (sep : string) (parts : list string) : string :=
  match parts with
  | [] => ""
  | [p] => p
  | p :: rest => p +:+ sep +:+ join sep rest
  end.

Module LogEntry.
Record t := mk {
  line : nat;
  timestamp : option string;
  level : string;
  message : string;
}.
End LogEntry.

Module LogSource.
Record t := mk {
  source : string;
  container : option string;
  path : option string;
  total_lines : nat;
  logs : list LogEntry.t;
}.
End LogSource.

Module ServiceLog.
Record t := mk {
  service : string;
  type : string;
  timestamp : string;
  sources : list LogSource.t;
  errors : option (list string);
}.
End ServiceLog.

Module LogOptions.
Record t := mk {
  lines : option Z;
  type : option string;
  source : option string;
}.
End LogOptions.

Inductive LogEffect :=
| ExecDockerLogs (container : string) (lines : Z)
| ExistsSync (path : string)
| ExecTail (path : string) (lines : Z).

(** The outside world of the log manager.  The two [exec] calls give the
    entries that the callback builds from the output, or the message of the
    error. *)
Record LogEnv := mkLogEnv {
  getenv : string → option string;
  logTailLines : option Z;   (* [parseInt(process.env.LOG_TAIL_LINES)], [None] for NaN *)
  dockerLogs : string → Z → list LogEntry.t + string;
  existsSync : string → bool;
  tail : string → Z → list LogEntry.t + string;
  random : nat → nat;        (* [Math.floor(Math.random() * 4)] in iteration i *)
  nowMs : Z;                 (* [new Date().getTime()] *)
  toISOString : Z → string;  (* the text of a date, given its time value *)
}.

(** A time value is a date when it is at most 8.64e15 ms away from the epoch;
    [new Date(t)] of any other number is an invalid date, for which
    [toISOString()] throws the RangeError [Invalid time value].  The
    arithmetic that leads to [t] is exact in the code as long as [t] is in
    that range. *)
Definition maxTime : Z := 8640000000000000.

Definition dateToISOString (env : LogEnv) (t : Z) : option string :=
  if bool_decide (- maxTime ≤ t ≤ maxTime) then Some (toISOString env t) else None.

Definition supportedServices : list string := ["etcd"; "redis"; "manager"; "agent"].

Definition getDefaultLogPath (service type : string) : option string :=
  let lower := toLowerCase service in
  if bool_decide (lower = "etcd") then
    Some (if bool_decide (type = "error") then "/var/log/etcd/etcd-error.log"
          else "/var/log/etcd/etcd.log")
  else if bool_decide (lower = "redis") then
    Some (if bool_decide (type = "error") then "/var/log/redis/redis-error.log"
          else "/var/log/redis/redis-server.log")
  else if bool_decide (lower = "manager") then Some "/var/log/backend.ai/manager.log"
  else if bool_decide (lower = "agent") then Some "/var/log/backend.ai/agent.log"
  else None.

Definition getLogPath (env : LogEnv) (service type : string) : option string :=
  let envKey := toUpperCase service +:+ "_"
                +:+ (if bool_decide (type = "error") then "ERROR_" else "")
                +:+ "LOG_PATH" in
  match getenv env envKey with
  | Some (String _ _ as p) => Some p
  | _ => getDefaultLogPath service type
  end.

(** [containerMap[service.toLowerCase()] || null]; [null] and [undefined] are
    both [None].  The map is an object literal, so for the two names
    ["constructor"] and ["__proto__"] the lookup finds an inherited property
    instead, which is not a string; [getServiceLogs] turns these names down
    before it gets here, and what is proved for callers that do not is
    stated for the other names. *)
Definition getContainerName (service : string) : option string :=
  let lower := toLowerCase service in
  if bool_decide (lower = "etcd") then Some "backendai-backendai-half-etcd-1"
  else if bool_decide (lower = "redis") then Some "caster-redis-1"
  else None.

Definition readLogFile (env : LogEnv) (filePath : string) (lines : Z)
    : (LogSource.t + string) * list LogEffect :=
  if negb (existsSync env filePath) then
    (inr ("Log file not found: " +:+ filePath), [ExistsSync filePath])
  else
    (match tail env filePath lines with
     | inl logs => inl (LogSource.mk "file" None (Some filePath) (length logs) logs)
     | inr message => inr message
     end, [ExistsSync filePath; ExecTail filePath lines]).

Definition readDockerLogs (env : LogEnv) (containerName : string) (lines : Z)
    : (LogSource.t + string) * list LogEffect :=
  (match dockerLogs env containerName lines with
   | inl allLogs => inl (LogSource.mk "docker" (Some containerName) None (length allLogs) allLogs)
   | inr message => inr message
   end, [ExecDockerLogs containerName lines]).

Definition getServiceMessages (serviceName : string) : list string :=
  let lower := toLowerCase serviceName in
  if bool_decide (lower = "manager") then
    [ "Manager server started on port 8080"; "Database connection established";
      "Session manager initialized"; "Scheduler started with 4 workers";
      "API endpoints registered"; "Authentication middleware loaded";
      "Rate limiting configured"; "Health check endpoint active";
      "Resource monitoring started"; "Kernel registry synchronized";
      "Agent discovery service started"; "Scaling policy loaded";
      "WebSocket server started"; "Manager ready to accept requests";
      "Periodic tasks scheduled" ]
  else if bool_decide (lower = "agent") then
    [ "Agent starting up..."; "Registering with manager at localhost:8080";
      "GPU devices detected: 1 NVIDIA RTX 4090";
      "Container runtime initialized: Docker"; "Agent registered successfully";
      "Heartbeat service started"; "Resource monitor started";
      "Kernel lifecycle manager ready"; "Image registry synchronized";
      "Network configuration applied"; "Volume manager initialized";
      "Security policies loaded"; "Agent ready to execute kernels";
      "Waiting for kernel requests...";
      "Resource usage: CPU 15%, Memory 2.3GB, GPU 0%" ]
  else [ "Service log entry"; "Another log message"; "System status: OK" ].

Definition logLevels : list string := ["INFO"; "DEBUG"; "WARN"; "ERROR"].

(** One iteration of the loop of [getMockServiceLogs]; [None] when
    [toISOString] throws. *)
Definition mockEntry (env : LogEnv) (service : string) (lines : Z)
    (messages : list string) (i : nat) : option LogEntry.t :=
  let base := nth (i `mod` length messages) messages "" in
  timestamp ← dateToISOString env (nowMs env - (lines - Z.of_nat i) * 1000 * 60);
  let level := nth (random env i `mod` length logLevels) logLevels "" in
  let actualLevel :=
    if bool_decide (i `mod` 10 = 0)%nat then "ERROR"
    else if bool_decide (i `mod` 7 = 0)%nat then "WARN" else level in
  let message :=
    if bool_decide (actualLevel = "ERROR") then base +:+ " - Connection timeout"
    else if bool_decide (actualLevel = "WARN") then base +:+ " - High resource usage detected"
    else base in
  Some {| LogEntry.line := (i + 1)%nat;
          LogEntry.timestamp := Some timestamp;
          LogEntry.level := actualLevel;
          LogEntry.message :=
            timestamp +:+ " [" +:+ actualLevel +:+ "] " +:+ toUpperCase service
              +:+ ": " +:+ message |}.

(** [getMockServiceLogs(service, lines)]: [inr] is the message of the
    RangeError of the first iteration whose time stamp is not a date. *)
Definition getMockServiceLogs (env : LogEnv) (service : string) (lines : Z)
    : LogSource.t + string :=
  let messages := getServiceMessages service in
  let count := Z.to_nat (Z.min lines (Z.of_nat (length messages) * 3)) in
  match mapM (mockEntry env service lines messages) (seq 0 count) with
  | Some mockLogs =>
      inl {| LogSource.source := "mock";
             LogSource.container := None;
             LogSource.path := Some ("/mock/logs/" +:+ service +:+ ".log");
             LogSource.total_lines := length mockLogs;
             LogSource.logs := mockLogs |}
  | None => inr "Invalid time value"
  end.

(** The local variables of [getServiceLogs], with the effects so far. *)
Record Attempts := mkAttempts {
  results : list LogSource.t;
  errors : list string;
  attempted : list LogEffect;
}.

Definition isEmpty {A} (l : list A) : bool :=
  match l with [] => true | _ => false end.

(** The block [if (source === 'auto' || source === 'docker')]. *)
Definition tryDocker (env : LogEnv) (service source : string) (lines : Z)
    (a : Attempts) : Attempts :=
  if bool_decide (source = "auto") || bool_decide (source = "docker") then
    match getContainerName service with
    | Some containerName =>
        match readDockerLogs env containerName lines with
        | (inl dockerLogs, eff) =>
            mkAttempts (results a ++ [dockerLogs]) (errors a) (attempted a ++ eff)
        | (inr message, eff) =>
            mkAttempts (results a) (errors a ++ ["Docker logs failed: " +:+ message])
                       (attempted a ++ eff)
        end
    | None =>
        mkAttempts (results a)
                   (errors a ++ ["No container name configured for " +:+ service])
                   (attempted a)
    end
  else a.

(** The block [if ((source === 'auto' && results.length === 0) || source === 'file')]. *)
Definition tryFile (env : LogEnv) (service type source : string) (lines : Z)
    (a : Attempts) : Attempts :=
  if (bool_decide (source = "auto") && isEmpty (results a)) || bool_decide (source = "file") then
    match getLogPath env service type with
    | Some logPath =>
        match readLogFile env logPath lines with
        | (inl fileLogs, eff) =>
            mkAttempts (results a ++ [fileLogs]) (errors a) (attempted a ++ eff)
        | (inr message, eff) =>
            mkAttempts (results a) (errors a ++ ["File logs failed: " +:+ message])
                       (attempted a ++ eff)
        end
    | None =>
        mkAttempts (results a)
                   (errors a ++ ["No log path configured for " +:+ service])
                   (attempted a)
    end
  else a.

(** The block [if (results.length === 0 && ['manager', 'agent'].includes(...))];
    it is not inside a [try], so that the error of [getMockServiceLogs] is
    the error of [getServiceLogs]. *)
Definition tryMock (env : LogEnv) (service : string) (lines : Z)
    (a : Attempts) : Attempts + string :=
  if isEmpty (results a) && bool_decide (toLowerCase service ∈ ["manager"; "agent"]) then
    match getMockServiceLogs env service lines with
    | inl mockLogs =>
        inl (mkAttempts (results a ++ [mockLogs]) (errors a) (attempted a))
    | inr message => inr message
    end
  else inl a.

(** The defaults of the destructured [options]:
    [lines = parseInt(process.env.LOG_TAIL_LINES) || 100], [type = 'main'],
    [source = 'auto']. *)
Definition optionLines (env : LogEnv) (options : LogOptions.t) : Z :=
  default (or_number (logTailLines env) 100) (LogOptions.lines options).

Definition optionType (options : LogOptions.t) : string :=
  default "main" (LogOptions.type options).

Definition optionSource (options : LogOptions.t) : string :=
  default "auto" (LogOptions.source options).

(** [getServiceLogs(service, options)]: [inr] is the message of the error
    thrown. *)
Definition getServiceLogs (env : LogEnv) (service : string) (options : LogOptions.t)
    : (ServiceLog.t + string) * list LogEffect :=
  let lines := optionLines env options in
  let type := optionType options in
  let source := optionSource options in
  if negb (bool_decide (toLowerCase service ∈ supportedServices)) then
    (inr ("Unsupported service: " +:+ service), [])
  else
    let real := tryFile env service type source lines
                  (tryDocker env service source lines (mkAttempts [] [] [])) in
    match tryMock env service lines real with
    | inr message => (inr message, attempted real)
    | inl a =>
        if isEmpty (results a) then
          (inr ("No logs available for " +:+ service +:+ ". Errors: "
                +:+ join ", " (errors a)),
           attempted a)
        else
          (inl {| ServiceLog.service := service;
                  ServiceLog.type := type;
                  ServiceLog.timestamp := toISOString env (nowMs env);
                  ServiceLog.sources := results a;
                  ServiceLog.errors :=
                    if isEmpty (errors a) then None else Some (errors a) |},
           attempted a)
    end.

(** ** The rules of the specification, to compare the code with *)

(** The status of one host's outcome: the [overall_status] of its report, and
    Unhealthy for a host whose task was rejected. *)
Definition outcomeStatus (r : SettledResult) : string :=
  match r with
  | fulfilled value => HostReport.overall_status (ProbeValue.data value)
  | rejected _ => "Unhealthy"
  end.

(** The precedence rule as the specification words it: Unhealthy if any is
    Unhealthy, else Degraded if any is Degraded, else Healthy. *)
Definition precedenceRule (statuses : list string) : string :=
  if bool_decide ("Unhealthy" ∈ statuses) then "Unhealthy"
  else if bool_decide ("Degraded" ∈ statuses) then "Degraded"
  else "Healthy".


(** The entries that the outcome of one host stands for in the unified
    report: one per check of the report of a fulfilled task, tagged with the
    host, and the single connection failure for a rejected task. *)
Definition entriesOf (isoNow : string) (host : Host.t) (result : SettledResult)
    : list Check.t :=
  match result with
  | fulfilled value =>
      tagCheck host <$> default [] (HostReport.checks (ProbeValue.data value))
  | rejected message => [failedConnectionCheck host isoNow message]
  end.

(** The failures of a remote probe that the specification lists: a network
    error, a timeout, or an answer whose status is not 2xx. *)
Definition failedProbe (o : AxiosOutcome) : Prop :=
  match o with
  | answered status _ => status < 200 ∨ 300 ≤ status
  | networkError _ => True
  | timedOut => True
  end.

(** Which of the two real sources an effect of the log manager belongs to. *)
Definition usesDocker (effect : LogEffect) : bool :=
  match effect with
  | ExecDockerLogs _ _ => true
  | ExistsSync _ | ExecTail _ _ => false
  end.

Definition usesFile (effect : LogEffect) : bool := negb (usesDocker effect).

(** What [getServiceLogs] is found to give when the one source it tried has
    failed with [error]: for manager and agent the fabricated lines, or the
    RangeError when they cannot be dated, and the exception for the other
    services. *)
Definition afterSourceFailure (env : LogEnv) (service : string)
    (options : LogOptions.t) (error : string) : ServiceLog.t + string :=
  if bool_decide (toLowerCase service ∈ ["manager"; "agent"]) then
    match getMockServiceLogs env service (optionLines env options) with
    | inl mockLogs =>
        inl {| ServiceLog.service := service;
               ServiceLog.type := optionType options;
               ServiceLog.timestamp := toISOString env (nowMs env);
               ServiceLog.sources := [mockLogs];
               ServiceLog.errors := Some [error] |}
    | inr _ => inr "Invalid time value"
    end
  else inr ("No logs available for " +:+ service +:+ ". Errors: " +:+ error).

(** ** Further parts of the registry and of the reports *)

(** The counter that the outcome of one host adds to a total:
    [data.<field> || 0] for a fulfilled task, nothing for a rejected one. *)
Definition payloadCount (field : HostReport.t → option Z) (r : SettledResult) : Z :=
  match r with
  | fulfilled value => or_number (field (ProbeValue.data value)) 0
  | rejected _ => 0
  end.

Definition isRejected (r : SettledResult) : bool :=
  match r with
  | fulfilled _ => false
  | rejected _ => true
  end.

Definition sumZ (l : list Z) : Z := foldr Z.add 0 l.

(** One row of [hosts.csv] as [csv-parser] hands it over: the cells of the
    [name] and [host] columns, and the other cells where the row has them.
    [port] is [parseInt(row.port)], [None] for NaN. *)
Module CsvRow.
Record t := mk {
  name : string;
  host : string;
  port : option Z;
  type : option string;
  enabled : option string;
  description : option string;
}.
End CsvRow.

(** The object pushed for a row when [count] rows were pushed before it. *)
Definition csvHost (row : CsvRow.t) (count : nat) : Host.t :=
  {| Host.id := or_string (Some (CsvRow.name row)) ("host-" +:+ pretty count);
     Host.name := CsvRow.name row;
     Host.host := CsvRow.host row;
     Host.port := or_number (CsvRow.port row) 8095;
     Host.type := or_string (CsvRow.type row) "unknown";
     Host.enabled := bool_decide (CsvRow.enabled row = Some "true");
     Host.description := or_string (CsvRow.description row) "" |}.

(** [loadHostsFromCSV(csvPath)] for a file that parses into [rows]: the
    [data] handler pushes one host per row, the [end] handler resolves with
    the enabled ones. *)
Definition loadHostsFromCSV (rows : list CsvRow.t) : list Host.t :=
  filter (λ host, Host.enabled host = true)
         (foldl (λ hosts row, hosts ++ [csvHost row (length hosts)]) [] rows).

(** Whether [clearCache(hostId)] deletes the entry under [key]: every key
    for a missing or empty id, the keys that start with the id and ["-"]
    otherwise. *)
Definition clears (hostId : option string) (key : string) : bool :=
  match hostId with
  | Some (String _ _ as id) => startsWith key (id +:+ "-")
  | Some "" | None => true
  end.

(** ** Further parts of the log manager *)

(** Whether every character of [s] is an ASCII character: the strings on
    which [toLowerCase] and [toUpperCase] are the methods of the code. *)
Fixpoint isAscii (s : string) : bool :=
  match s with
  | EmptyString => true
  | String c s' => (Ascii.nat_of_ascii c <? 128)%nat && isAscii s'
  end.

(** [s.includes(q)] *)
Fixpoint includes (s q : string) : bool :=
  startsWith s q
  || match s with
     | EmptyString => false
     | String _ s' => includes s' q
     end.

(** The regular expression engine behind [new RegExp(source, flags)] and
    [regex.test(text)]: the message of the SyntaxError the constructor
    throws, if it throws, and, for a text and a value of [lastIndex], the
    end of the first match that starts at or after [lastIndex] ([None] when
    there is none, also when [lastIndex] is past the end of the text). *)
Record RegExpEngine := mkRegExpEngine {
  compileError : string → string → option string;
  execFrom : string → string → string → nat → option nat;
}.

(** [regex.test(text)] for a regular expression with the [g] flag: the
    answer and the new [lastIndex]. *)
Definition regexTest (re : RegExpEngine) (source flags text : string)
    (lastIndex : nat) : bool * nat :=
  match execFrom re source flags text lastIndex with
  | Some matchEnd => (true, matchEnd)
  | None => (false, 0%nat)
  end.

Module SearchOptions.
Record t := mk {
  lines : option Z;
  caseSensitive : option bool;
  regex : option bool;
}.
End SearchOptions.

(** One element of [results]: [{...log, source, container, path}]. *)
Module SearchHit.
Record t := mk {
  line : nat;
  timestamp : option string;
  level : string;
  message : string;
  source : string;
  container : option string;
  path : option string;
}.
End SearchHit.

Module SearchResult.
Record t := mk {
  service : string;
  query : string;
  options : SearchOptions.t;
  total_matches : nat;
  results : list SearchHit.t;
}.
End SearchResult.

Definition searchHit (source : LogSource.t) (log : LogEntry.t) : SearchHit.t :=
  {| SearchHit.line := LogEntry.line log;
     SearchHit.timestamp := LogEntry.timestamp log;
     SearchHit.level := LogEntry.level log;
     SearchHit.message := LogEntry.message log;
     SearchHit.source := LogSource.source source;
     SearchHit.container := LogSource.container source;
     SearchHit.path := LogSource.path source |}.

(** The two nested [forEach] loops of [searchLogs].  [test] is the match of
    one [searchText], given the [lastIndex] that the regular expression has
    at that moment, with the [lastIndex] it leaves. *)
Fixpoint searchEntries (test : string → nat → bool * nat) (caseSensitive : bool)
    (source : LogSource.t) (logs : list LogEntry.t) (lastIndex : nat)
    (found : list SearchHit.t) : nat * list SearchHit.t :=
  match logs with
  | [] => (lastIndex, found)
  | log :: rest =>
      let searchText :=
        if caseSensitive then LogEntry.message log
        else toLowerCase (LogEntry.message log) in
      let '(matches, lastIndex') := test searchText lastIndex in
      searchEntries test caseSensitive source rest lastIndex'
        (if matches then found ++ [searchHit source log] else found)
  end.

Fixpoint searchSources (test : string → nat → bool * nat) (caseSensitive : bool)
    (sources : list LogSource.t) (lastIndex : nat) (found : list SearchHit.t)
    : nat * list SearchHit.t :=
  match sources with
  | [] => (lastIndex, found)
  | source :: rest =>
      let '(lastIndex', found') :=
        searchEntries test caseSensitive source (LogSource.logs source) lastIndex found in
      searchSources test caseSensitive rest lastIndex' found'
  end.

(** [searchLogs(service, query, options)]: [inr] is the message of the error
    thrown. *)
Definition searchLogs (env : LogEnv) (re : RegExpEngine) (service query : string)
    (options : SearchOptions.t) : (SearchResult.t + string) * list LogEffect :=
  let lines := default 1000 (SearchOptions.lines options) in
  let caseSensitive := default false (SearchOptions.caseSensitive options) in
  let regex := default false (SearchOptions.regex options) in
  let failed (message : string) :=
    inr ("Search failed for " +:+ service +:+ ": " +:+ message) in
  match getServiceLogs env service (LogOptions.mk (Some lines) None None) with
  | (inr message, tried) => (failed message, tried)
  | (inl logs, tried) =>
      let flags := if caseSensitive then "g" else "gi" in
      let searched :=
        if regex then
          match compileError re query flags with
          | Some message => inr message
          | None =>
              inl (searchSources (regexTest re query flags) caseSensitive
                     (ServiceLog.sources logs) 0%nat [])
          end
        else
          let searchPattern := if caseSensitive then query else toLowerCase query in
          inl (searchSources (λ searchText lastIndex,
                                (includes searchText searchPattern, lastIndex))
                 caseSensitive (ServiceLog.sources logs) 0%nat [])
      in
      match searched with
      | inr message => (failed message, tried)
      | inl (_, searchResults) =>
          (inl {| SearchResult.service := service;
                  SearchResult.query := query;
                  SearchResult.options := options;
                  SearchResult.total_matches := length searchResults;
                  SearchResult.results := searchResults |}, tried)
      end
  end.

Module StreamOptions.
Record t := mk {
  lines : option Z;
  follow : option bool;
  source : option string;
}.
End StreamOptions.

(** [streamServiceLogs(service, options)]: the command and the arguments
    handed to [spawn], or [None] for the [null] it returns without spawning.
    An argument is [None] where the code passes a container name that is
    [null] or [undefined]. *)
Definition streamServiceLogs (env : LogEnv) (service : string)
    (options : StreamOptions.t) : option (string * list (option string)) :=
  let lines := default 50 (StreamOptions.lines options) in
  let follow := default true (StreamOptions.follow options) in
  let source := default "auto" (StreamOptions.source options) in
  let containerName := getContainerName service in
  if bool_decide (source = "docker")
     || (bool_decide (source = "auto") && bool_decide (is_Some containerName)) then
    Some ("docker",
          [Some "logs"] ++ (if follow then [Some "--follow"] else [])
          ++ [Some "--tail"; Some (pretty lines); Some "--timestamps"; containerName])
  else
    match getLogPath env service "main" with
    | Some logPath =>
        if existsSync env logPath then
          Some ("tail",
                [Some "-f"] ++ (if follow then [] else [Some "-n"; Some (pretty lines)])
                ++ [Some logPath])
        else None
    | None => None
    end.

(** The characters of [\w]. *)
Definition isWordChar (c : Ascii.ascii) : bool :=
  let n := Ascii.nat_of_ascii c in
  ((48 <=? n) && (n <=? 57) || (65 <=? n) && (n <=? 90)
   || (97 <=? n) && (n <=? 122) || (n =? 95))%nat.

(** Whether [s] begins with the keyword [w] (given in capitals), compared
    without regard to case, and goes on with a character that is not of
    [\w], or ends there. *)
Fixpoint keywordAt (w s : string) {struct w} : bool :=
  match w with
  | EmptyString =>
      match s with
      | EmptyString => true
      | String c _ => negb (isWordChar c)
      end
  | String a w' =>
      match s with
      | EmptyString => false
      | String c s' => bool_decide (upperChar c = a) && keywordAt w' s'
      end
  end.

(** [/\b(w1|w2)\b/i.test(s)], scanning [s]: [inWord] tells whether the
    character before [s] is of [\w]. *)
Fixpoint hasKeyword (keywords : list string) (inWord : bool) (s : string) : bool :=
  (negb inWord && existsb (λ w, keywordAt w s) keywords)
  || match s with
     | EmptyString => false
     | String c s' => hasKeyword keywords (isWordChar c) s'
     end.

Definition levelPatterns : list (list string * string) :=
  [ (["FATAL"; "CRITICAL"], "FATAL");
    (["ERROR"; "ERR"], "ERROR");
    (["WARN"; "WARNING"], "WARN");
    (["INFO"; "INFORMATION"], "INFO");
    (["DEBUG"; "DBG"], "DEBUG");
    (["TRACE"; "TRC"], "TRACE") ].

(** [extractLogLevel(line)]: the level of the first pattern that matches,
    [INFO] when none does. *)
Definition extractLogLevel (line : string) : string :=
  match list_find (λ p, hasKeyword p.1 false line = true) levelPatterns with
  | Some (_, (_, level)) => level
  | None => "INFO"
  end.

(** The lines of the sources, in order, whose search text satisfies
    [matches], as search hits: what a search without a regular expression
    is compared with. *)
Definition matchingLines (matches : string → bool) (caseSensitive : bool)
    (sources : list LogSource.t) : list SearchHit.t :=
  sources ≫= λ source,
    searchHit source
      <$> filter (λ log, matches (if caseSensitive then LogEntry.message log
                                  else toLowerCase (LogEntry.message log)) = true)
                 (LogSource.logs source).

(** ** Sample data, used by the examples below *)

Definition sampleCheck (serviceName status : string) : Check.t :=
  {| Check.service_name := serviceName;
     Check.status := status;
     Check.response_time_ms := 12;
     Check.details := "";
     Check.timestamp := "2025-01-01T00:00:00.000Z";
     Check.error_message := None;
     Check.host_id := None;
     Check.host_name := None;
     Check.host_type := None |}.

(** A report with one check, of the given status. *)
Definition sampleReport (serviceName status : string) : HostReport.t :=
  {| HostReport.timestamp := "2025-01-01T00:00:00.000Z";
     HostReport.overall_status := status;
     HostReport.total_checks := 1;
     HostReport.healthy_count := Some (if bool_decide (status = "Healthy") then 1 else 0);
     HostReport.unhealthy_count := Some (if bool_decide (status = "Unhealthy") then 1 else 0);
     HostReport.degraded_count := Some (if bool_decide (status = "Degraded") then 1 else 0);
     HostReport.unknown_count := Some 0;
     HostReport.checks := Some [sampleCheck serviceName status];
     HostReport.summary := "" |}.

Definition localHost : Host.t :=
  Host.mk "h1" "dev box" "localhost" 8095 "local" true "".

Definition remoteHost : Host.t :=
  Host.mk "h2" "gpu node" "10.0.0.5" 9999 "gpu" true "".

Definition agentHost : Host.t :=
  Host.mk "h3" "agent one" "10.0.0.6" 8095 "agent" true "".

Definition freshManager : HealthCheckManager :=
  newHealthCheckManager "/opt/health-checker".

(** A task during which the peer refuses the connection. *)
Definition unreachable (now : Z) : TaskEnv :=
  {| checkedAt := now;
     process := spawnFailed "spawn /opt/health-checker ENOENT";
     http := networkError "connect ECONNREFUSED 10.0.0.5:9999";
     answeredAt := now + 3;
     isoNow := "2025-01-01T00:00:00.003Z" |}.

(** A task during which the probe and the peer both answer with one healthy
    check, 40 ms after the task started. *)
Definition healthy (now : Z) : TaskEnv :=
  {| checkedAt := now;
     process := exited (Some 0) (Some (sampleReport "etcd" "Healthy"));
     http := answered 200 (sampleReport "etcd" "Healthy");
     answeredAt := now + 40;
     isoNow := "2025-01-01T00:00:00.040Z" |}.

(** A manager whose cache holds one entry for [remoteHost], stored at time
    1000. *)
Definition warmManager : HealthCheckManager :=
  store (Some (cacheKey remoteHost "/api/health/all",
               CacheEntry.mk (sampleReport "etcd" "Healthy") 1000))
        freshManager.

(** Cycles in which every host behaves the same way. *)
Definition allUnreachable (now : Z) : CycleEnv :=
  mkCycleEnv (λ _, unreachable now) "2025-01-01T00:00:00.005Z".

Definition allHealthy (now : Z) : CycleEnv :=
  mkCycleEnv (λ _, healthy now) "2025-01-01T00:00:00.050Z".

(** A server that monitors the three sample hosts and has cached the report
    of [remoteHost]. *)
Definition sampleServer : Server :=
  mkServer [localHost; remoteHost; agentHost] warmManager.

(** A request body that asks for the id of [localHost]. *)
Definition duplicateBody : HostConfig.t :=
  HostConfig.mk (Some "h1") "second box" "10.0.0.9" None None None None.

(** A machine without docker and without log files. *)
Definition bareMachine : LogEnv :=
  {| getenv := λ _, None;
     logTailLines := None;
     dockerLogs := λ _ _, inr "Command failed: docker logs";
     existsSync := λ _, false;
     tail := λ _ _, inr "Command failed: tail";
     random := λ _, 0%nat;
     nowMs := 1735689600000;
     toISOString := λ ms, "t" +:+ pretty ms |}.

(** Rows of a [hosts.csv]: an enabled row, a disabled one, and an enabled row
    without a name. *)
Definition sampleRows : list CsvRow.t :=
  [ CsvRow.mk "manager-1" "192.168.1.100" (Some 8095) (Some "manager") (Some "true") None;
    CsvRow.mk "agent-1" "192.168.1.101" None (Some "agent") (Some "false") None;
    CsvRow.mk "" "192.168.1.102" (Some 9000) None (Some "true") (Some "spare") ].

(** A machine on which the etcd container answers with three lines. *)
Definition etcdMachine : LogEnv :=
  {| getenv := λ _, None;
     logTailLines := None;
     dockerLogs := λ _ _,
       inl [ LogEntry.mk 1 None "INFO" "starting etcd";
             LogEntry.mk 2 None "ERROR" "Error: lost leader";
             LogEntry.mk 3 None "ERROR" "retry after error" ];
     existsSync := λ _, false;
     tail := λ _ _, inr "Command failed: tail";
     random := λ _, 0%nat;
     nowMs := 1735689600000;
     toISOString := λ ms, "t" +:+ pretty ms |}.

(** An engine that accepts no pattern. *)
Definition noRegExp : RegExpEngine :=
  mkRegExpEngine (λ _ _, Some "Invalid regular expression") (λ _ _ _ _, None).

(** * Properties *)

(** ** The overall status *)

Section OverallStatus.
Variable hosts : list Host.t.
Variable isoNow : string.

Lemma forEachCallback_status acc result index acc' :
  forEachCallback hosts isoNow acc result index = Some acc' →
  overallStatus acc' =
    if bool_decide (outcomeStatus result = "Unhealthy") then "Unhealthy"
    else if bool_decide (outcomeStatus result = "Degraded")
            && negb (bool_decide (overallStatus acc = "Unhealthy"))
    then "Degraded" else overallStatus acc.
Proof.
  unfold forEachCallback. destruct result as [value|message]; simpl.
  - destruct (match HostReport.checks (ProbeValue.data value) with
              | Some cs => _ | None => _ end); simpl; [|done].
    by intros [= <-].
  - destruct (hosts !! index); simpl; [|done]. by intros [= <-].
Qed.

Lemma forEachResult_status results : ∀ index acc acc',
  forEachResult hosts isoNow results index acc = Some acc' →
  overallStatus acc' =
    if bool_decide ("Unhealthy" ∈ outcomeStatus <$> results) then "Unhealthy"
    else if bool_decide (overallStatus acc = "Unhealthy") then "Unhealthy"
    else if bool_decide ("Degraded" ∈ outcomeStatus <$> results) then "Degraded"
    else overallStatus acc.
Proof.
  induction results as [|result rest IH]; intros index acc acc'; simpl.
  - intros [= <-]. by case_bool_decide.
  - destruct (forEachCallback hosts isoNow acc result index) as [acc1|] eqn:Hstep;
      simpl; [|done].
    intros Hrest. rewrite (IH _ _ _ Hrest).
    rewrite (forEachCallback_status _ _ _ _ Hstep).
    repeat (case_bool_decide; simpl); try done;
      rewrite ?elem_of_cons in *; intuition congruence.
Qed.

End OverallStatus.

(** ** [combineHealthResults] returns, and what its [checks] are *)

Section Combine.
Variable hosts : list Host.t.
Variable isoNow : string.

Lemma mapM_tagCheck_Some (h : Host.t) cs :
  mapM (λ check, h' ← Some h; Some (tagCheck h' check)) cs
  = Some (tagCheck h <$> cs).
Proof.
  apply mapM_Some. induction cs as [|c cs IH]; simpl; by constructor.
Qed.

Lemma mapM_tagCheck_None cs pushed :
  mapM (λ check, h' ← @None Host.t; Some (tagCheck h' check)) cs = Some pushed →
  pushed = [].
Proof.
  intros Hm. apply mapM_Some in Hm.
  by destruct Hm as [|c p cs ps Hc _].
Qed.

Lemma forEachCallback_total acc result index :
  (index < length hosts)%nat → is_Some (forEachCallback hosts isoNow acc result index).
Proof.
  intros Hlt. destruct (lookup_lt_is_Some_2 hosts index Hlt) as [h Hh].
  unfold forEachCallback. destruct result as [value|message]; simpl.
  - destruct (HostReport.checks (ProbeValue.data value)) as [cs|]; simpl; [|by eexists].
    rewrite Hh, mapM_tagCheck_Some. simpl. by eexists.
  - rewrite Hh. simpl. by eexists.
Qed.

Lemma forEachResult_total results : ∀ index acc,
  (index + length results ≤ length hosts)%nat →
  is_Some (forEachResult hosts isoNow results index acc).
Proof.
  induction results as [|result rest IH]; intros index acc Hlen; simpl in *.
  - by eexists.
  - destruct (forEachCallback_total acc result index) as [acc1 ->]; [lia|].
    simpl. apply IH. lia.
Qed.

(** The scan of [results.find] for a host of the list stops at that host's
    own index at the latest, so it never reads past the end of [hosts]. *)
Lemma findResultOfHost_total results : ∀ i j h,
  hosts !! j = Some h → (i ≤ j)%nat →
  is_Some (findResultOfHost hosts (Host.id h) results i).
Proof.
  induction results as [|result rest IH]; intros i j h Hj Hij; simpl.
  - by eexists.
  - destruct (lookup_lt_is_Some_2 hosts i) as [hi Hi].
    { apply lookup_lt_Some in Hj. lia. }
    rewrite Hi. simpl. case_bool_decide as Hid; [by eexists|].
    apply (IH (S i) j h Hj).
    destruct (decide (i = j)) as [->|]; [|lia].
    rewrite Hj in Hi. by inversion Hi; subst.
Qed.

Lemma hostSummaries_total results :
  is_Some (mapM (hostSummary hosts results) hosts).
Proof.
  apply mapM_is_Some, Forall_forall. intros h Hin.
  apply list_elem_of_lookup in Hin as [j Hj]. unfold compose, hostSummary.
  destruct (findResultOfHost_total results 0 j h Hj) as [found ->]; [lia|].
  simpl. by eexists.
Qed.

Lemma combineHealthResults_total results :
  (length results ≤ length hosts)%nat →
  is_Some (combineHealthResults results hosts isoNow).
Proof.
  intros Hlen. unfold combineHealthResults.
  destruct (forEachResult_total results 0 initialTotals) as [t ->]; [lia|].
  destruct (hostSummaries_total results) as [summaries ->].
  simpl. by eexists.
Qed.

Lemma forEachCallback_checks acc result index acc' :
  forEachCallback hosts isoNow acc result index = Some acc' →
  combinedChecks acc' =
    combinedChecks acc ++
    match hosts !! index with Some h => entriesOf isoNow h result | None => [] end.
Proof.
  unfold forEachCallback. destruct result as [value|message]; simpl.
  - destruct (HostReport.checks (ProbeValue.data value)) as [cs|]; simpl.
    + destruct (hosts !! index) as [h|] eqn:Hh.
      * rewrite mapM_tagCheck_Some. simpl. by intros [= <-].
      * destruct (mapM _ cs) as [pushed|] eqn:Hm; simpl; [|done].
        apply mapM_tagCheck_None in Hm as ->. by intros [= <-].
    + intros [= <-]. simpl. by destruct (hosts !! index).
  - destruct (hosts !! index) as [h|]; simpl; [|done]. by intros [= <-].
Qed.

Lemma forEachResult_checks results : ∀ index acc acc',
  forEachResult hosts isoNow results index acc = Some acc' →
  combinedChecks acc' =
    combinedChecks acc ++ concat (zip_with (entriesOf isoNow) (drop index hosts) results).
Proof.
  induction results as [|result rest IH]; intros index acc acc'; simpl.
  - intros [= <-]. rewrite zip_with_nil_r. simpl. by rewrite app_nil_r.
  - destruct (forEachCallback hosts isoNow acc result index) as [acc1|] eqn:Hstep;
      simpl; [|done].
    intros Hrest. rewrite (IH _ _ _ Hrest), (forEachCallback_checks _ _ _ _ Hstep).
    destruct (hosts !! index) as [h|] eqn:Hh.
    + rewrite (drop_S _ _ _ Hh). simpl. by rewrite app_assoc.
    + apply lookup_ge_None in Hh.
      rewrite !drop_ge by lia. simpl. by rewrite !app_nil_r.
Qed.

Lemma combineHealthResults_checks results report :
  combineHealthResults results hosts isoNow = Some report →
  UnifiedReport.checks report = concat (zip_with (entriesOf isoNow) hosts results)
  ∧ UnifiedReport.total_checks report = length (UnifiedReport.checks report).
Proof.
  unfold combineHealthResults.
  destruct (forEachResult hosts isoNow results 0 initialTotals) as [t|] eqn:Ht;
    simpl; [|done].
  destruct (mapM _ hosts) as [summaries|]; simpl; [|done].
  intros [= <-]. simpl. split; [|done].
  by rewrite (forEachResult_checks _ _ _ _ Ht).
Qed.

Lemma combineHealthResults_status results report :
  combineHealthResults results hosts isoNow = Some report →
  UnifiedReport.overall_status report = precedenceRule (outcomeStatus <$> results).
Proof.
  unfold combineHealthResults.
  destruct (forEachResult hosts isoNow results 0 initialTotals) as [t|] eqn:Ht;
    simpl; [|done].
  destruct (mapM _ hosts) as [summaries|]; simpl; [|done].
  intros [= <-]. simpl.
  by rewrite (forEachResult_status _ _ _ _ _ _ Ht).
Qed.

End Combine.

(** C1.  Whatever list of per-host outcomes [combineHealthResults] is given,
    the [overall_status] of the report it returns is Unhealthy if the outcome
    of some host is Unhealthy (a rejected task counts as Unhealthy),
    otherwise Degraded if some outcome is Degraded, otherwise Healthy; and it
    does return a report whenever there is a host for every outcome, as in
    every call the manager makes. *)
Theorem combineHealthResults_overall_status results hosts isoNow :
  ((length results ≤ length hosts)%nat →
   is_Some (combineHealthResults results hosts isoNow))
  ∧ ∀ report,
      combineHealthResults results hosts isoNow = Some report →
      UnifiedReport.overall_status report =
        if bool_decide ("Unhealthy" ∈ outcomeStatus <$> results) then "Unhealthy"
        else if bool_decide ("Degraded" ∈ outcomeStatus <$> results) then "Degraded"
        else "Healthy".
Proof.
  split.
  - apply combineHealthResults_total.
  - intros report Hreport.
    by rewrite (combineHealthResults_status _ _ _ _ Hreport).
Qed.

Lemma combineHealthResults_overall_status_witness :
  UnifiedReport.overall_status <$>
    combineHealthResults
      [fulfilled (ProbeValue.mk localHost (sampleReport "etcd" "Degraded"));
       rejected (Some "spawn ENOENT");
       fulfilled (ProbeValue.mk agentHost (sampleReport "redis" "Healthy"))]
      [localHost; remoteHost; agentHost] "2025-01-01T00:00:10.000Z"
  = Some "Unhealthy".
Proof.
  destruct (combineHealthResults_overall_status
    [fulfilled (ProbeValue.mk localHost (sampleReport "etcd" "Degraded"));
     rejected (Some "spawn ENOENT");
     fulfilled (ProbeValue.mk agentHost (sampleReport "redis" "Healthy"))]
    [localHost; remoteHost; agentHost] "2025-01-01T00:00:10.000Z") as [Htotal Hstatus].
  destruct Htotal as [report Hreport]; [simpl; lia|].
  rewrite Hreport. simpl. f_equal. apply (Hstatus report Hreport).
Defined.

(** ** One entry per probe result *)

Lemma entriesOf_tagged isoNow h result c :
  c ∈ entriesOf isoNow h result →
  Check.host_id c = Some (Host.id h)
  ∧ Check.host_name c = Some (Host.name h)
  ∧ Check.host_type c = Some (Host.type h)
  ∧ ∃ original, Check.service_name c = Host.name h +:+ ": " +:+ original.
Proof.
  destruct result as [value|message]; simpl.
  - intros Hc. apply list_elem_of_fmap in Hc as (check & -> & _).
    simpl. repeat split. by eexists.
  - intros Hc. apply list_elem_of_singleton in Hc as ->.
    simpl. repeat split. by exists "Connection".
Qed.


Lemma fanOut_lookup m arg endpoint env hosts i h :
  hosts !! i = Some h →
  fanOut m arg endpoint env hosts !! i = Some (hostTask m arg endpoint (task env i) h).
Proof. intros Hh. unfold fanOut. by rewrite list_lookup_imap, Hh. Qed.

Lemma elem_of_concat_zip_with {A B C} (f : A → B → list C) l k c :
  c ∈ concat (zip_with f l k) →
  ∃ i a b, l !! i = Some a ∧ k !! i = Some b ∧ c ∈ f a b.
Proof.
  revert k. induction l as [|a l IH]; intros [|b k]; simpl; try by inversion 1.
  rewrite elem_of_app. intros [Hc|Hc].
  - by exists 0%nat, a, b.
  - destruct (IH k Hc) as (i & a' & b' & ? & ? & ?). by exists (S i), a', b'.
Qed.



(** Scenario A of the specification: one local host whose probe exits with 0
    and one healthy result. *)
Example scenario_A :
  let report := (getAllHealthChecks freshManager [localHost] (allHealthy 1000)).1.2 in
  UnifiedReport.total_checks <$> report = Some 1%nat
  ∧ UnifiedReport.healthy_count <$> report = Some 1
  ∧ UnifiedReport.overall_status <$> report = Some "Healthy"
  ∧ (λ r, HostSummary.status <$> UnifiedReport.hosts r) <$> report = Some ["online"].
Proof. vm_compute. done. Qed.

(** ** The result cache of [executeRemoteHealthCheck] *)

Lemma cachedData_Some m key now data :
  cachedData m key now = Some data ↔
  ∃ cached, cache m !! key = Some cached
    ∧ now - CacheEntry.timestamp cached < cacheTimeout m
    ∧ data = CacheEntry.data cached.
Proof.
  unfold cachedData. destruct (cache m !! key) as [cached|]; simpl.
  - case_bool_decide as Hage; split.
    + intros [= <-]. by exists cached.
    + by intros (? & [= <-] & _ & ->).
    + done.
    + intros (? & [= <-] & ? & _). lia.
  - split; [done|]. by intros (? & ? & _).
Qed.

Lemma cachedData_None m key now :
  cachedData m key now = None ↔
  cache m !! key = None
  ∨ ∃ cached, cache m !! key = Some cached
      ∧ cacheTimeout m ≤ now - CacheEntry.timestamp cached.
Proof.
  unfold cachedData. destruct (cache m !! key) as [cached|]; simpl.
  - case_bool_decide as Hage; split; try done.
    + intros [|(? & [= <-] & ?)]; [done|lia].
    + intros _. right. exists cached. split; [done|lia].
  - split; [by left|done].
Qed.

(** C3, the claim as worded: a read that finds no entry makes a probe whose
    result is then in the cache.  It fails when the probe fails: the report
    that is returned is not stored. *)
Lemma failed_probe_result_is_not_stored :
  let key := cacheKey remoteHost "/api/health/all" in
  let '(m', report, probes) :=
    executeRemoteHealthCheck freshManager remoteHost "/api/health/all" (unreachable 1000) in
  cache freshManager !! key = None
  ∧ probes = [HttpGet "http://10.0.0.5:9999/api/health/all" 10000]
  ∧ ¬ ∃ entry, cache m' !! key = Some entry ∧ CacheEntry.data entry = report.
Proof.
  vm_compute. split; [done|]. split; [done|]. by intros (entry & [=] & _).
Qed.

(** C3, amended.  An entry is served from the cache only while its age is
    below the timeout, which is 30000 ms for a manager as constructed; a
    read that finds no entry, or one whose age has reached the timeout,
    issues the GET request; the data of a response that resolves is stored
    under the key with the time of its arrival, and when the request fails
    the synthesized report is returned and the cache is left as it was. *)
Theorem executeRemoteHealthCheck_cache m host endpoint e m' report probes :
  executeRemoteHealthCheck m host endpoint e = (m', report, probes) →
  let key := cacheKey host endpoint in
  (∀ path, cacheTimeout (newHealthCheckManager path) = 30000)
  ∧ (probes = [] →
       ∃ cached, cache m !! key = Some cached
         ∧ checkedAt e - CacheEntry.timestamp cached < cacheTimeout m
         ∧ report = CacheEntry.data cached ∧ m' = m)
  ∧ ((cache m !! key = None
      ∨ ∃ cached, cache m !! key = Some cached
          ∧ cacheTimeout m ≤ checkedAt e - CacheEntry.timestamp cached) →
       probes = [HttpGet (remoteUrl host endpoint) 10000]
       ∧ match axiosGet 10000 (http e) with
         | inl data =>
             report = data
             ∧ cache m' = <[key := CacheEntry.mk data (answeredAt e)]> (cache m)
         | inr message =>
             report = failureReport host (isoNow e) message ∧ m' = m
         end).
Proof.
  intros Hrun key. unfold executeRemoteHealthCheck, remoteRun in Hrun.
  split; [done|].
  destruct (cachedData m (cacheKey host endpoint) (checkedAt e)) as [data|] eqn:Hcached.
  - simpl in Hrun. injection Hrun as <- <- <-. split.
    + intros _. apply cachedData_Some in Hcached as (cached & ? & ? & ->).
      by exists cached.
    + intros Hmiss. apply cachedData_None in Hmiss.
      unfold key in Hmiss. congruence.
  - destruct (axiosGet 10000 (http e)) as [data|message];
      simpl in Hrun; injection Hrun as <- <- <-; (split; [done|]); by intros _.
Qed.

Lemma executeRemoteHealthCheck_cache_witness :
  cache (executeRemoteHealthCheck warmManager remoteHost "/api/health/all"
           (healthy 31000)).1.1
  = <[cacheKey remoteHost "/api/health/all"
      := CacheEntry.mk (sampleReport "etcd" "Healthy") 31040]> (cache warmManager).
Proof.
  destruct (executeRemoteHealthCheck warmManager remoteHost "/api/health/all"
              (healthy 31000)) as [[m' report] probes] eqn:Hrun.
  destruct (executeRemoteHealthCheck_cache _ _ _ _ _ _ _ Hrun) as (_ & _ & Hmiss).
  destruct Hmiss as [_ Hstored].
  { right. exists (CacheEntry.mk (sampleReport "etcd" "Healthy") 1000).
    split; [reflexivity|]. vm_compute. by intros [=]. }
  destruct Hstored as [_ Hcache]. exact Hcache.
Defined.

(** ** The synthesized failure report *)

Lemma axiosGet_failed timeout o :
  failedProbe o → ∃ message, axiosGet timeout o = inr message.
Proof.
  destruct o as [status data|message|]; simpl; intros Hfail.
  - case_bool_decide; case_bool_decide; simpl; try lia; by eexists.
  - by eexists.
  - by eexists.
Qed.

(** C4.  Whenever the request of a remote probe meets a network error, a
    timeout or a status outside 2xx, [executeRemoteHealthCheck] returns a
    report (the embedding has no other way out of the call) that is
    Unhealthy and holds exactly one check: Unhealthy, named after the host
    with [" Connection"], with the address and the error message in its
    details and the message as its [error_message]. *)
Theorem executeRemoteHealthCheck_failure_report m host endpoint e :
  cachedData m (cacheKey host endpoint) (checkedAt e) = None →
  failedProbe (http e) →
  ∃ message check,
    axiosGet 10000 (http e) = inr message
    ∧ (executeRemoteHealthCheck m host endpoint e).1.2
      = failureReport host (isoNow e) message
    ∧ HostReport.overall_status (executeRemoteHealthCheck m host endpoint e).1.2
      = "Unhealthy"
    ∧ HostReport.checks (executeRemoteHealthCheck m host endpoint e).1.2 = Some [check]
    ∧ Check.service_name check = Host.name host +:+ " Connection"
    ∧ Check.status check = "Unhealthy"
    ∧ Check.details check
      = "Failed to connect to " +:+ Host.host host +:+ ":"
        +:+ pretty (Host.port host) +:+ " - " +:+ message
    ∧ Check.error_message check = Some message.
Proof.
  intros Hmiss Hfail.
  destruct (axiosGet_failed 10000 _ Hfail) as [message Hget].
  exists message. eexists. split; [done|].
  unfold executeRemoteHealthCheck, remoteRun. rewrite Hmiss, Hget. simpl.
  repeat split.
Qed.

Lemma executeRemoteHealthCheck_failure_report_witness :
  HostReport.overall_status
    (executeRemoteHealthCheck freshManager remoteHost "/api/health/all"
       (mkTaskEnv 1000 (spawnFailed "") (answered 503 (sampleReport "etcd" "Healthy"))
          1100 "2025-01-01T00:00:01.100Z")).1.2
  = "Unhealthy".
Proof.
  destruct (executeRemoteHealthCheck_failure_report freshManager remoteHost
              "/api/health/all"
              (mkTaskEnv 1000 (spawnFailed "") (answered 503 (sampleReport "etcd" "Healthy"))
                 1100 "2025-01-01T00:00:01.100Z"))
    as (message & check & _ & _ & Hstatus & _).
  - reflexivity.
  - simpl. lia.
  - exact Hstatus.
Defined.

(** ** Online and offline hosts *)

(** The task of a remote host is fulfilled whatever happens to its request,
    because [executeRemoteHealthCheck] turns every failure into a report. *)
Lemma remote_task_fulfilled m arg endpoint e h :
  isLocal h = false →
  settled (hostTask m arg endpoint e h)
  = fulfilled (ProbeValue.mk h (returned (remoteRun m h endpoint e))).
Proof. intros Hremote. unfold hostTask. by rewrite Hremote. Qed.

(** With distinct ids, [results.find] gives a host the result at its own
    index. *)
Lemma findResultOfHost_own hosts results i h :
  NoDup (Host.id <$> hosts) →
  hosts !! i = Some h →
  ∀ k, (k ≤ i)%nat →
    findResultOfHost hosts (Host.id h) (drop k results) k = Some (results !! i).
Proof.
  intros Hnodup Hh k Hk.
  remember (i - k)%nat as d eqn:Hd. revert k Hk Hd.
  induction d as [|d IH]; intros k Hk Hd.
  - assert (k = i) as -> by lia.
    destruct (drop i results) as [|result rest] eqn:Hdrop; simpl.
    + f_equal. symmetry. apply lookup_ge_None.
      apply (f_equal length) in Hdrop. rewrite length_drop in Hdrop. simpl in Hdrop. lia.
    + rewrite Hh. simpl. rewrite bool_decide_eq_true_2 by done.
      f_equal. rewrite <-(Nat.add_0_r i), <-lookup_drop, Hdrop. done.
  - destruct (drop k results) as [|result rest] eqn:Hdrop; simpl.
    + f_equal. symmetry. apply lookup_ge_None.
      apply (f_equal length) in Hdrop. rewrite length_drop in Hdrop. simpl in Hdrop. lia.
    + destruct (lookup_lt_is_Some_2 hosts k) as [hk Hhk].
      { apply lookup_lt_Some in Hh. lia. }
      rewrite Hhk. simpl. rewrite bool_decide_eq_false_2.
      * assert (rest = drop (S k) results) as ->.
        { replace (S k) with (k + 1)%nat by lia. by rewrite <-drop_drop, Hdrop. }
        apply IH; lia.
      * intros Hid.
        assert (k = i); [|lia].
        apply (NoDup_lookup _ k i (Host.id h) Hnodup); rewrite list_lookup_fmap.
        -- rewrite Hhk. simpl. by rewrite Hid.
        -- by rewrite Hh.
Qed.

(** In every report of [getAllHealthChecks], a remote host (whose id no
    other enabled host has) is marked online, whatever became of its
    request. *)
Lemma remote_host_is_never_offline m registry env report i h :
  NoDup (Host.id <$> getEnabledHosts registry) →
  getEnabledHosts registry !! i = Some h →
  isLocal h = false →
  (getAllHealthChecks m registry env).1.2 = Some report →
  HostSummary.status <$> UnifiedReport.hosts report !! i = Some "online".
Proof.
  intros Hnodup Hh Hremote. unfold getAllHealthChecks, aggregate, combineHealthResults.
  simpl. destruct (forEachResult _ _ _ _ _) as [t|]; simpl; [|done].
  destruct (mapM _ _) as [summaries|] eqn:Hsummaries; simpl; [|done].
  intros [= <-]. simpl.
  apply mapM_Some in Hsummaries.
  destruct (Forall2_lookup_l _ _ _ _ _ Hsummaries Hh) as (summary & -> & Hsummary).
  unfold hostSummary in Hsummary.
  pose proof (findResultOfHost_own _
    (settled <$> fanOut m "all" "/api/health/all" env (getEnabledHosts registry))
    i h Hnodup Hh 0 ltac:(lia)) as Hfind.
  rewrite drop_0 in Hfind. rewrite Hfind in Hsummary. simpl in Hsummary.
  injection Hsummary as <-. simpl.
  rewrite list_lookup_fmap, (fanOut_lookup _ _ _ _ _ _ _ Hh). simpl.
  by rewrite remote_task_fulfilled.
Qed.

(** C5, at the input of scenario B: one enabled remote host whose endpoint
    refuses the connection.  The report holds the one synthesized Unhealthy
    entry and is Unhealthy overall, and the host is marked online. *)
Theorem unreachable_remote_host_is_marked_online :
  let report := (getAllHealthChecks freshManager [remoteHost] (allUnreachable 1000)).1.2 in
  (λ r, Check.service_name <$> UnifiedReport.checks r) <$> report
    = Some ["gpu node: gpu node Connection"]
  ∧ UnifiedReport.overall_status <$> report = Some "Unhealthy"
  ∧ UnifiedReport.hosts <$> report
    = Some [HostSummary.mk "h2" "gpu node" "10.0.0.5" 9999 "gpu" "online"].
Proof. vm_compute. done. Qed.

(** The offline mark is reached by a local host whose probe cannot be
    spawned: its task is rejected. *)
Example failed_local_probe_is_marked_offline :
  let report := (getAllHealthChecks freshManager [localHost] (allUnreachable 1000)).1.2 in
  (λ r, Check.service_name <$> UnifiedReport.checks r) <$> report
    = Some ["dev box: Connection"]
  ∧ (λ r, HostSummary.status <$> UnifiedReport.hosts r) <$> report = Some ["offline"].
Proof. vm_compute. done. Qed.

(** ** Which hosts go through the cache *)

Lemma length_append (s t : string) :
  String.length (s +:+ t) = (String.length s + String.length t)%nat.
Proof. induction s as [|a s IH]; simpl; [done|]. by rewrite IH. Qed.

Lemma append_assoc (s t u : string) : (s +:+ t) +:+ u = s +:+ t +:+ u.
Proof.
  induction s as [|a s IH]; [done|].
  change (String a ((s +:+ t) +:+ u) = String a (s +:+ t +:+ u)). by f_equal.
Qed.

Lemma append_inj_r (t : string) : ∀ x y : string, x +:+ t = y +:+ t → x = y.
Proof.
  assert (Hlen : ∀ a y, t ≠ String a (y +:+ t)).
  { intros a y Heq. apply (f_equal String.length) in Heq.
    simpl in Heq. rewrite length_append in Heq. lia. }
  induction x as [|a x IH]; intros [|b y]; simpl; intros Heq.
  - done.
  - by apply Hlen in Heq.
  - symmetry in Heq. by apply Hlen in Heq.
  - injection Heq as -> Heq. f_equal. by apply IH.
Qed.

Lemma cacheKey_inj h1 h2 endpoint :
  cacheKey h1 endpoint = cacheKey h2 endpoint → Host.id h1 = Host.id h2.
Proof. unfold cacheKey. apply append_inj_r. Qed.

Lemma store_cacheTimeout write m : cacheTimeout (store write m) = cacheTimeout m.
Proof. by destruct write as [[key entry]|]. Qed.

Lemma applyWrites_cacheTimeout runs : ∀ m,
  cacheTimeout (applyWrites m runs) = cacheTimeout m.
Proof.
  unfold applyWrites. induction runs as [|run runs IH]; intros m; simpl; [done|].
  by rewrite IH, store_cacheTimeout.
Qed.

Lemma applyWrites_untouched key runs : ∀ m,
  (∀ run entry, run ∈ runs → cacheWrite run ≠ Some (key, entry)) →
  cache (applyWrites m runs) !! key = cache m !! key.
Proof.
  unfold applyWrites. induction runs as [|run runs IH]; intros m Hruns; simpl; [done|].
  rewrite IH.
  - destruct (cacheWrite run) as [[key' entry]|] eqn:Hwrite; simpl; [|done].
    apply lookup_insert_ne. intros ->.
    by apply (Hruns run entry); [left|].
  - intros run' entry Hin. apply Hruns. by right.
Qed.

Lemma applyWrites_last_write key entry runs i run m :
  runs !! i = Some run →
  cacheWrite run = Some (key, entry) →
  (∀ j run' entry', (i < j)%nat → runs !! j = Some run' →
     cacheWrite run' ≠ Some (key, entry')) →
  cache (applyWrites m runs) !! key = Some entry.
Proof.
  intros Hi Hwrite Hlater.
  rewrite <-(take_drop_middle runs i run Hi).
  unfold applyWrites. rewrite foldl_app. simpl. rewrite Hwrite.
  fold (applyWrites (store (Some (key, entry)) (foldl (λ m' run0, store (cacheWrite run0) m') m
          (take i runs))) (drop (S i) runs)).
  rewrite applyWrites_untouched.
  - simpl. apply lookup_insert_eq.
  - intros run' entry' Hin. apply list_elem_of_lookup in Hin as [j Hj].
    rewrite lookup_drop in Hj.
    apply (Hlater (S i + j)%nat run' entry'); [lia|done].
Qed.

Lemma hostTask_local m arg endpoint e h :
  isLocal h = true →
  effects (hostTask m arg endpoint e h)
    = [Spawn (healthCheckerPath m) [arg; "--format"; "json"]]
  ∧ cacheWrite (hostTask m arg endpoint e h) = None.
Proof.
  intros Hlocal. unfold hostTask, executeLocalHealthChecker. rewrite Hlocal.
  by destruct (match process e with exited _ _ => _ | spawnFailed _ => _ end).
Qed.

Lemma hostTask_write_key m arg endpoint e h key entry :
  cacheWrite (hostTask m arg endpoint e h) = Some (key, entry) →
  key = cacheKey h endpoint.
Proof.
  destruct (isLocal h) eqn:Hlocal.
  - by rewrite (proj2 (hostTask_local m arg endpoint e h Hlocal)).
  - unfold hostTask, remoteRun. rewrite Hlocal. simpl.
    destruct (cachedData _ _ _); [done|].
    destruct (axiosGet _ _); simpl; [|done]. by intros [= <- _].
Qed.

(** A remote task makes a request exactly when the cache check misses. *)
Lemma hostTask_remote_cache_first m arg endpoint e h :
  isLocal h = false →
  match cachedData m (cacheKey h endpoint) (checkedAt e) with
  | Some data =>
      effects (hostTask m arg endpoint e h) = []
      ∧ settled (hostTask m arg endpoint e h) = fulfilled (ProbeValue.mk h data)
      ∧ cacheWrite (hostTask m arg endpoint e h) = None
  | None =>
      effects (hostTask m arg endpoint e h) = [HttpGet (remoteUrl h endpoint) 10000]
  end.
Proof.
  intros Hremote. unfold hostTask, remoteRun. rewrite Hremote.
  destruct (cachedData _ _ _); [done|]. by destruct (axiosGet _ _).
Qed.

Lemma hostTask_remote_stored m arg endpoint e h data :
  isLocal h = false →
  cachedData m (cacheKey h endpoint) (checkedAt e) = None →
  axiosGet 10000 (http e) = inl data →
  settled (hostTask m arg endpoint e h) = fulfilled (ProbeValue.mk h data)
  ∧ cacheWrite (hostTask m arg endpoint e h)
    = Some (cacheKey h endpoint, CacheEntry.mk data (answeredAt e)).
Proof.
  intros Hremote Hmiss Hget. unfold hostTask, remoteRun.
  by rewrite Hremote, Hmiss, Hget.
Qed.

(** After a cycle, the entry that the task of host [i] stored is the one
    under its key, provided no other enabled host has the same id. *)
Lemma aggregate_keeps_write m arg endpoint env hosts i h entry :
  NoDup (Host.id <$> hosts) →
  hosts !! i = Some h →
  cacheWrite (hostTask m arg endpoint (task env i) h)
    = Some (cacheKey h endpoint, entry) →
  cache (aggregate m arg endpoint env hosts).1.1 !! cacheKey h endpoint = Some entry.
Proof.
  intros Hnodup Hh Hwrite. unfold aggregate. simpl.
  eapply applyWrites_last_write.
  - by apply fanOut_lookup.
  - done.
  - intros j run' entry' Hij Hj Hwrite'.
    unfold fanOut in Hj. apply list_lookup_imap_Some in Hj as (h' & Hh' & ->).
    apply hostTask_write_key in Hwrite' as Hkey. apply cacheKey_inj in Hkey.
    assert (i = j); [|lia].
    apply (NoDup_lookup _ i j (Host.id h) Hnodup); rewrite list_lookup_fmap.
    + by rewrite Hh.
    + by rewrite Hh', Hkey.
Qed.

(** C6, the claim as worded, at a registry with one local host: the second
    of two calls one second apart spawns the probe again, and the cache is
    empty after the first. *)
Lemma local_host_is_probed_on_every_call :
  let '(m1, _, first) := getAllHealthChecks freshManager [localHost] (allHealthy 1000) in
  let '(_, _, second) := getAllHealthChecks m1 [localHost] (allHealthy 2000) in
  cache m1 = ∅
  ∧ first = [Spawn "/opt/health-checker" ["all"; "--format"; "json"]]
  ∧ second = [Spawn "/opt/health-checker" ["all"; "--format"; "json"]]
  ∧ second ≠ [].
Proof. vm_compute. done. Qed.

(** C6, amended.  The cache stands in front of the remote probes only.  The
    task of a remote host (neither of type local nor at localhost) checks
    the cache first and issues its request exactly when the check misses;
    when its request in one call of [getAllHealthChecks] was answered and
    the next call checks the cache less than the timeout after that answer
    was stored, the next call issues no request for that host and resolves
    it to the stored payload (ids of the enabled hosts being distinct).  The
    task of a local host spawns the probe in every call and never touches
    the cache. *)
Theorem getAllHealthChecks_reuses_remote_payloads m registry env1 env2 i h :
  let hosts := getEnabledHosts registry in
  let endpoint := "/api/health/all" in
  let m1 := (getAllHealthChecks m registry env1).1.1 in
  let first := hostTask m "all" endpoint (task env1 i) h in
  let second := hostTask m1 "all" endpoint (task env2 i) h in
  NoDup (Host.id <$> hosts) →
  hosts !! i = Some h →
  (getAllHealthChecks m1 registry env2).2
    = concat (effects <$> fanOut m1 "all" endpoint env2 hosts)
  ∧ fanOut m1 "all" endpoint env2 hosts !! i = Some second
  ∧ (isLocal h = true →
       effects first = [Spawn (healthCheckerPath m) ["all"; "--format"; "json"]]
       ∧ effects second = [Spawn (healthCheckerPath m1) ["all"; "--format"; "json"]]
       ∧ cacheWrite first = None ∧ cacheWrite second = None)
  ∧ (isLocal h = false →
       (effects second = [] ↔
          cachedData m1 (cacheKey h endpoint) (checkedAt (task env2 i)) ≠ None)
       ∧ ∀ data,
           cachedData m (cacheKey h endpoint) (checkedAt (task env1 i)) = None →
           axiosGet 10000 (http (task env1 i)) = inl data →
           checkedAt (task env2 i) - answeredAt (task env1 i) < cacheTimeout m →
           effects first = [HttpGet (remoteUrl h endpoint) 10000]
           ∧ effects second = []
           ∧ settled second = fulfilled (ProbeValue.mk h data)).
Proof.
  intros hosts endpoint m1 first second Hnodup Hh.
  split; [done|]. split; [by apply fanOut_lookup|].
  subst first second endpoint. split.
  - intros Hlocal.
    destruct (hostTask_local m "all" "/api/health/all" (task env1 i) h Hlocal) as [-> ->].
    destruct (hostTask_local m1 "all" "/api/health/all" (task env2 i) h Hlocal) as [-> ->].
    done.
  - intros Hremote. split.
    + pose proof (hostTask_remote_cache_first m1 "all" "/api/health/all"
                    (task env2 i) h Hremote) as Hsecond.
      destruct (cachedData m1 _ _) as [data|].
      * destruct Hsecond as (-> & _). done.
      * rewrite Hsecond. split; [done|]. by intros [].
    + intros data Hmiss Hget Hfresh.
      destruct (hostTask_remote_stored m "all" "/api/health/all" _ h data
                  Hremote Hmiss Hget) as [_ Hwrite].
      pose proof (hostTask_remote_cache_first m "all" "/api/health/all"
                    (task env1 i) h Hremote) as Hreq.
      rewrite Hmiss in Hreq. split; [done|].
      assert (Hentry : cache m1 !! cacheKey h "/api/health/all"
                       = Some (CacheEntry.mk data (answeredAt (task env1 i)))).
      { exact (aggregate_keeps_write m "all" "/api/health/all" env1 hosts i h _
                 Hnodup Hh Hwrite). }
      assert (Hhit : cachedData m1 (cacheKey h "/api/health/all")
                       (checkedAt (task env2 i)) = Some data).
      { apply cachedData_Some. eexists. split; [done|]. simpl. split; [|done].
        unfold m1, getAllHealthChecks, aggregate. simpl.
        by rewrite applyWrites_cacheTimeout. }
      pose proof (hostTask_remote_cache_first m1 "all" "/api/health/all"
                    (task env2 i) h Hremote) as Hsecond.
      rewrite Hhit in Hsecond. by destruct Hsecond as (? & ? & _).
Qed.

Lemma getAllHealthChecks_reuses_remote_payloads_witness :
  effects
    (hostTask
       (getAllHealthChecks freshManager [localHost; remoteHost] (allHealthy 1000)).1.1
       "all" "/api/health/all" (task (allHealthy 5000) 1) remoteHost)
  = [].
Proof.
  destruct (getAllHealthChecks_reuses_remote_payloads freshManager
              [localHost; remoteHost] (allHealthy 1000) (allHealthy 5000) 1 remoteHost)
    as (_ & _ & _ & Hremote).
  - refine (bool_decide_unpack (NoDup _) _). vm_compute. exact I.
  - reflexivity.
  - destruct (Hremote eq_refl) as [_ Hreuse].
    destruct (Hreuse (sampleReport "etcd" "Healthy")) as (_ & Hsecond & _).
    + reflexivity.
    + reflexivity.
    + simpl. lia.
    + exact Hsecond.
Defined.

(** ** [clearCache] *)

Lemma startsWith_spec (s p : string) :
  startsWith s p = true ↔ ∃ rest, s = p +:+ rest.
Proof.
  revert s. induction p as [|a p IH]; intros s; simpl.
  - split; [intros _; by exists s|done].
  - destruct s as [|b s]; simpl.
    + split; [done|]. by intros [rest [=]].
    + rewrite andb_true_iff, bool_decide_eq_true, IH. split.
      * intros [-> [rest ->]]. by exists rest.
      * intros [rest [= -> ->]]. split; [done|]. by exists rest.
Qed.

Lemma startsWith_cacheKey h endpoint :
  startsWith (cacheKey h endpoint) (Host.id h +:+ "-") = true.
Proof.
  apply startsWith_spec. exists endpoint. unfold cacheKey.
  by rewrite append_assoc.
Qed.

(** The loop of [clearCache], over any list of keys. *)
Lemma delete_loop_lookup (prefix key : string) (keys : list string) :
  ∀ c : gmap string CacheEntry.t,
    foldr (λ k c', if startsWith k prefix then delete k c' else c') c keys !! key
    = if startsWith key prefix && bool_decide (key ∈ keys) then None else c !! key.
Proof.
  intros c. induction keys as [|k keys IH]; simpl.
  - by rewrite andb_false_r.
  - destruct (startsWith k prefix) eqn:Hk.
    + destruct (decide (k = key)) as [->|Hne].
      * rewrite lookup_delete_eq, Hk. simpl.
        rewrite bool_decide_eq_true_2; [done|by left].
      * rewrite lookup_delete_ne, IH by done.
        destruct (startsWith key prefix); simpl; [|done].
        repeat case_bool_decide; try done; rewrite ?elem_of_cons in *;
          intuition congruence.
    + rewrite IH. destruct (startsWith key prefix) eqn:Hkey; simpl; [|done].
      repeat case_bool_decide; try done; rewrite ?elem_of_cons in *;
        intuition congruence.
Qed.

Lemma clearCache_lookup m hostId key :
  hostId ≠ "" →
  cache (clearCache m (Some hostId)) !! key
  = if startsWith key (hostId +:+ "-") then None else cache m !! key.
Proof.
  intros Hid. destruct hostId as [|a hostId]; [done|].
  unfold clearCache. cbn [cache]. rewrite delete_loop_lookup.
  destruct (startsWith key _); simpl; [|done].
  case_bool_decide as Hin; [done|].
  destruct (cache m !! key) as [entry|] eqn:Hentry; [|done].
  exfalso. apply Hin. apply list_elem_of_fmap. exists (key, entry).
  split; [done|]. by apply elem_of_map_to_list.
Qed.

Lemma clearCache_falsy m hostId :
  hostId = None ∨ hostId = Some "" → cache (clearCache m hostId) = ∅.
Proof. by intros [-> | ->]. Qed.

Lemma clearCache_host_keys m id key :
  startsWith key (id +:+ "-") = true →
  cache (clearCache m (Some id)) !! key = None.
Proof.
  intros Hkey. destruct (decide (id = "")) as [->|Hid].
  - by rewrite clearCache_falsy by by right.
  - by rewrite clearCache_lookup, Hkey.
Qed.

(** C10, the claim as worded, at the host id [""]: the entry of host h1 is
    deleted although its key does not begin with ["-"]. *)
Lemma clearCache_empty_id_clears_other_keys :
  let c : gmap string CacheEntry.t :=
    {[ "h1-/api/health/all" := CacheEntry.mk (sampleReport "etcd" "Healthy") 1000 ]} in
  let m := mkManager "/opt/health-checker" c 30000 in
  startsWith "h1-/api/health/all" ("" +:+ "-") = false
  ∧ is_Some (cache m !! "h1-/api/health/all")
  ∧ cache (clearCache m (Some "")) !! "h1-/api/health/all" = None.
Proof. split; [done|]. split; [by eexists|done]. Qed.

(** C10, amended.  For every cache and every host id other than the empty
    string, [clearCache(hostId)] deletes exactly the entries whose key
    begins with the id followed by ["-"] (so also those of another host
    whose id begins that way) and leaves every other entry as it was;
    without an argument, with [null] or with the empty string it empties
    the cache.  The other fields of the manager are not touched. *)
Theorem clearCache_deletes_exactly_the_prefixed_keys m hostId key :
  hostId ≠ "" →
  (cache (clearCache m (Some hostId)) !! key
   = if startsWith key (hostId +:+ "-") then None else cache m !! key)
  ∧ (startsWith key (hostId +:+ "-") = true ↔ ∃ rest, key = hostId +:+ "-" +:+ rest)
  ∧ cache (clearCache m None) = ∅
  ∧ cache (clearCache m (Some "")) = ∅
  ∧ cacheTimeout (clearCache m (Some hostId)) = cacheTimeout m
  ∧ healthCheckerPath (clearCache m (Some hostId)) = healthCheckerPath m.
Proof.
  intros Hid. split; [by apply clearCache_lookup|]. split; [|done].
  rewrite startsWith_spec. split; intros [rest ->]; exists rest.
  - by rewrite append_assoc.
  - by rewrite <-append_assoc.
Qed.

Lemma clearCache_deletes_exactly_the_prefixed_keys_witness :
  cache (clearCache warmManager (Some "h2")) !! "h2-/api/health/all" = None.
Proof.
  destruct (clearCache_deletes_exactly_the_prefixed_keys warmManager "h2"
              "h2-/api/health/all") as (Hlookup & _).
  - discriminate.
  - exact Hlookup.
Defined.

(** ** Registry mutations and the cache *)

Lemma getHostById_Some hosts id :
  is_Some (getHostById hosts id) ↔ is_Some (list_find (λ host, Host.id host = id) hosts).
Proof.
  unfold getHostById. destruct (list_find _ hosts) as [[index host]|]; simpl.
  - split; by eexists.
  - split; by intros [? [=]].
Qed.

(** C7.  Each of the three routes that change a host empties the part of
    the cache that belongs to its id before it answers: after adding a host
    the cache is empty, and after updating or removing the host with a given
    id (one that the registry has) no key that begins with that id and ["-"]
    is left, so that a later cache check for a host with that id misses for
    every endpoint and at every time. *)
Theorem host_mutation_invalidates_cache s id :
  (∀ body now,
     cache (healthManager (postHost s body now).1) = ∅
     ∧ ∀ h endpoint t,
         cachedData (healthManager (postHost s body now).1) (cacheKey h endpoint) t = None)
  ∧ (is_Some (getHostById (config s) id) →
     (∀ updates key,
        startsWith key (id +:+ "-") = true →
        cache (healthManager (putHost s id updates).1) !! key = None)
     ∧ (∀ key,
        startsWith key (id +:+ "-") = true →
        cache (healthManager (deleteHost s id).1) !! key = None)
     ∧ ∀ updates h endpoint t,
        Host.id h = id →
        cachedData (healthManager (putHost s id updates).1) (cacheKey h endpoint) t = None
        ∧ cachedData (healthManager (deleteHost s id).1) (cacheKey h endpoint) t = None).
Proof.
  split.
  - intros body now. unfold postHost. simpl. split; [done|].
    intros h endpoint t. unfold cachedData. simpl. by rewrite lookup_empty.
  - intros Hfound. apply getHostById_Some in Hfound as [[index host] Hfind].
    assert (Hput : ∀ updates key,
      startsWith key (id +:+ "-") = true →
      cache (healthManager (putHost s id updates).1) !! key = None).
    { intros updates key Hkey. unfold putHost, updateHost. rewrite Hfind. simpl.
      by apply clearCache_host_keys. }
    assert (Hdelete : ∀ key,
      startsWith key (id +:+ "-") = true →
      cache (healthManager (deleteHost s id).1) !! key = None).
    { intros key Hkey. unfold deleteHost, removeHost. rewrite Hfind. simpl.
      by apply clearCache_host_keys. }
    split; [done|]. split; [done|].
    intros updates h endpoint t <-. unfold cachedData.
    rewrite Hput, Hdelete by apply startsWith_cacheKey. done.
Qed.

Lemma host_mutation_invalidates_cache_witness :
  cachedData warmManager (cacheKey remoteHost "/api/health/all") 2000
    = Some (sampleReport "etcd" "Healthy")
  ∧ cachedData
      (healthManager
         (putHost sampleServer "h2"
            (HostUpdates.mk None None (Some "10.0.0.7") None None None None)).1)
      (cacheKey remoteHost "/api/health/all") 2000
    = None.
Proof.
  split; [reflexivity|].
  destruct (host_mutation_invalidates_cache sampleServer "h2") as [_ Hmutation].
  destruct Hmutation as (_ & _ & Hread).
  - by eexists.
  - apply (Hread (HostUpdates.mk None None (Some "10.0.0.7") None None None None)
             remoteHost "/api/health/all" 2000 eq_refl).
Defined.

(** Scenario E of the specification: a host that was just removed is not
    part of the next report, although its cache entry had not expired. *)
Example scenario_E :
  let '(s, _) := deleteHost sampleServer "h2" in
  let '(_, report, probes) := getHealthAll s (allHealthy 2000) in
  (λ r, HostSummary.id <$> UnifiedReport.hosts r) <$> report = Some ["h1"; "h3"]
  ∧ (λ r, Check.host_id <$> UnifiedReport.checks r) <$> report
    = Some [Some "h1"; Some "h3"]
  ∧ probes = [Spawn "/opt/health-checker" ["all"; "--format"; "json"];
              HttpGet "http://10.0.0.6:8095/api/health/all" 10000].
Proof. vm_compute. done. Qed.

(** ** Duplicate ids *)

(** C8, the claim as worded, at a registry that has a host with id h1:
    adding a host with that id is accepted, the registry grows, and two
    hosts share the id. *)
Lemma addHost_accepts_a_duplicate_id :
  let '(hosts, newHost) := addHost [localHost] duplicateBody 1735689600000 in
  Host.id localHost = "h1"
  ∧ Host.id newHost = "h1"
  ∧ hosts = [localHost; newHost]
  ∧ hosts ≠ [localHost]
  ∧ ¬ NoDup (Host.id <$> hosts)
  ∧ (postHost (mkServer [localHost] freshManager) duplicateBody 1735689600000).2
    = Created newHost.
Proof.
  simpl. repeat split; try done.
  intros Hnodup. apply NoDup_cons in Hnodup as [Hnotin _].
  apply Hnotin. by left.
Qed.

(** C8, amended.  [addHost] has no check of the id: it appends the new host
    to the registry whatever ids are there, and [POST /api/hosts] answers
    201 with it.  When the id asked for is that of a host of the registry,
    two hosts share the id afterwards, and a lookup by that id still finds
    the earlier one. *)
Theorem addHost_appends_unconditionally hosts body now id :
  HostConfig.id body = Some id → id ≠ "" →
  let '(hosts', newHost) := addHost hosts body now in
  hosts' = hosts ++ [newHost]
  ∧ Host.id newHost = id
  ∧ (∀ m, (postHost (mkServer hosts m) body now).2 = Created newHost)
  ∧ (id ∈ Host.id <$> hosts →
       ¬ NoDup (Host.id <$> hosts')
       ∧ getHostById hosts' id = getHostById hosts id).
Proof.
  intros Hid Hne. unfold addHost. split; [done|]. split.
  { simpl. rewrite Hid. by destruct id. }
  split; [done|].
  intros Hin. split.
  - rewrite fmap_app. simpl. rewrite Hid.
    replace (or_string (Some id) _) with id by by destruct id.
    intros Hnodup. apply NoDup_app in Hnodup as (_ & Hdisjoint & _).
    apply (Hdisjoint id Hin). by left.
  - unfold getHostById.
    apply list_elem_of_fmap in Hin as (h & -> & Hin).
    destruct (list_find_elem_of (λ host, Host.id host = Host.id h) hosts h Hin eq_refl)
      as [[index found] Hfind].
    by rewrite (list_find_app_l _ _ _ _ _ Hfind), Hfind.
Qed.

Lemma addHost_appends_unconditionally_witness :
  getHostById (addHost [localHost] duplicateBody 1735689600000).1 "h1"
  = getHostById [localHost] "h1".
Proof.
  pose proof (addHost_appends_unconditionally [localHost] duplicateBody
                1735689600000 "h1" eq_refl) as Happend.
  destruct (addHost [localHost] duplicateBody 1735689600000) as [hosts' newHost].
  destruct Happend as (_ & _ & _ & Hdup).
  - discriminate.
  - destruct Hdup as [_ Hfirst]; [|exact Hfirst].
    apply list_elem_of_fmap. exists localHost. split; [reflexivity|]. by left.
Defined.

(** ** Log sources *)

(** C9, the claim as worded, for the service manager with [source: "file"]
    on a machine without log files: the file is the only source tried, it
    is not there, and the call does not fail but returns the fabricated
    lines. *)
Lemma getServiceLogs_file_source_falls_back_to_mock :
  let options := LogOptions.mk (Some 5) None (Some "file") in
  let '(outcome, tried) := getServiceLogs bareMachine "manager" options in
  tried = [ExistsSync "/var/log/backend.ai/manager.log"]
  ∧ ∃ log,
      outcome = inl log
      ∧ LogSource.source <$> ServiceLog.sources log = ["mock"]
      ∧ (length ∘ LogSource.logs) <$> ServiceLog.sources log = [5%nat]
      ∧ ServiceLog.errors log
        = Some ["File logs failed: Log file not found: /var/log/backend.ai/manager.log"].
Proof. vm_compute. split; [done|]. eexists. by repeat split. Qed.

Lemma readLogFile_uses_file env filePath lines :
  Forall (λ effect, usesDocker effect = false) (readLogFile env filePath lines).2.
Proof.
  unfold readLogFile. destruct (existsSync env filePath); simpl;
    repeat constructor.
Qed.

Lemma readDockerLogs_uses_docker env containerName lines :
  Forall (λ effect, usesFile effect = false) (readDockerLogs env containerName lines).2.
Proof. unfold readDockerLogs. simpl. repeat constructor. Qed.

(** The blocks of [getServiceLogs] for the two explicit sources. *)
Lemma tryDocker_file env service lines a :
  tryDocker env service "file" lines a = a.
Proof. reflexivity. Qed.

Lemma tryFile_docker env service type lines a :
  tryFile env service type "docker" lines a = a.
Proof. reflexivity. Qed.

Lemma tryFile_file env service type lines a :
  tryFile env service type "file" lines a
  = match getLogPath env service type with
    | Some logPath =>
        match readLogFile env logPath lines with
        | (inl fileLogs, eff) =>
            mkAttempts (results a ++ [fileLogs]) (errors a) (attempted a ++ eff)
        | (inr message, eff) =>
            mkAttempts (results a) (errors a ++ ["File logs failed: " +:+ message])
                       (attempted a ++ eff)
        end
    | None =>
        mkAttempts (results a)
                   (errors a ++ ["No log path configured for " +:+ service])
                   (attempted a)
    end.
Proof. reflexivity. Qed.

Lemma tryDocker_docker env service lines a :
  tryDocker env service "docker" lines a
  = match getContainerName service with
    | Some containerName =>
        match readDockerLogs env containerName lines with
        | (inl dockerLogs, eff) =>
            mkAttempts (results a ++ [dockerLogs]) (errors a) (attempted a ++ eff)
        | (inr message, eff) =>
            mkAttempts (results a) (errors a ++ ["Docker logs failed: " +:+ message])
                       (attempted a ++ eff)
        end
    | None =>
        mkAttempts (results a)
                   (errors a ++ ["No container name configured for " +:+ service])
                   (attempted a)
    end.
Proof. reflexivity. Qed.

(** The fabricated lines: when they can be dated. *)
Lemma getServiceMessages_length service :
  (0 < length (getServiceMessages service))%nat.
Proof. unfold getServiceMessages. repeat case_bool_decide; simpl; lia. Qed.

Lemma dateToISOString_Some env t :
  - maxTime ≤ t ≤ maxTime → dateToISOString env t = Some (toISOString env t).
Proof. intros Ht. unfold dateToISOString. by rewrite bool_decide_eq_true_2. Qed.

Lemma dateToISOString_None env t :
  t < - maxTime ∨ maxTime < t → dateToISOString env t = None.
Proof. intros Ht. unfold dateToISOString. rewrite bool_decide_eq_false_2; [done|lia]. Qed.

Lemma getMockServiceLogs_message env service lines message :
  getMockServiceLogs env service lines = inr message → message = "Invalid time value".
Proof. unfold getMockServiceLogs. destruct (mapM _ _); [done|]. by intros [= <-]. Qed.

Lemma getMockServiceLogs_throws env service lines :
  0 < lines → nowMs env + maxTime < lines * 60000 →
  getMockServiceLogs env service lines = inr "Invalid time value".
Proof.
  intros Hlines Hearly. unfold getMockServiceLogs.
  pose proof (getServiceMessages_length service) as Hmessages.
  destruct (Z.to_nat (Z.min lines (Z.of_nat (length (getServiceMessages service)) * 3)))
    as [|count] eqn:Hcount; [lia|].
  assert (Hfirst : mockEntry env service lines (getServiceMessages service) 0 = None).
  { unfold mockEntry. rewrite dateToISOString_None; [done|]. left. lia. }
  cbn -[mockEntry]. by rewrite Hfirst.
Qed.

Lemma getMockServiceLogs_returns env service lines :
  nowMs env ≤ maxTime →
  lines ≤ 0 ∨ lines * 60000 ≤ nowMs env + maxTime →
  ∃ mockLogs,
    mapM (mockEntry env service lines (getServiceMessages service))
         (seq 0 (Z.to_nat (Z.min lines (Z.of_nat (length (getServiceMessages service)) * 3))))
    = Some mockLogs
    ∧ getMockServiceLogs env service lines
      = inl {| LogSource.source := "mock";
               LogSource.container := None;
               LogSource.path := Some ("/mock/logs/" +:+ service +:+ ".log");
               LogSource.total_lines := length mockLogs;
               LogSource.logs := mockLogs |}.
Proof.
  intros Hnow Hlines. unfold getMockServiceLogs.
  set (count := Z.to_nat _).
  assert (Hdated : is_Some (mapM (mockEntry env service lines (getServiceMessages service))
                              (seq 0 count))).
  { apply mapM_is_Some, Forall_forall. intros i Hi.
    apply elem_of_seq in Hi. unfold mockEntry. simpl.
    rewrite dateToISOString_Some; [done|]. unfold count in Hi. lia. }
  destruct Hdated as [mockLogs HmockLogs]. exists mockLogs. by rewrite HmockLogs.
Qed.

Lemma getMockServiceLogs_outcome env service lines :
  - maxTime ≤ nowMs env ≤ maxTime →
  if bool_decide (0 < lines ∧ nowMs env + maxTime < lines * 60000) then
    getMockServiceLogs env service lines = inr "Invalid time value"
  else
    ∃ mock, getMockServiceLogs env service lines = inl mock
            ∧ LogSource.source mock = "mock".
Proof.
  intros Hnow. case_bool_decide as Hlate.
  - destruct Hlate. by apply getMockServiceLogs_throws.
  - destruct (getMockServiceLogs_returns env service lines) as (mockLogs & _ & ->);
      [lia|lia|]. by eexists.
Qed.

(** [getServiceLogs] after its two blocks for the real sources. *)
Lemma getServiceLogs_effects env service options :
  toLowerCase service ∈ supportedServices →
  (getServiceLogs env service options).2
  = attempted (tryFile env service (optionType options) (optionSource options)
                 (optionLines env options)
                 (tryDocker env service (optionSource options)
                    (optionLines env options) (mkAttempts [] [] []))).
Proof.
  intros Hsupported. unfold getServiceLogs.
  rewrite (bool_decide_eq_true_2 _ Hsupported). cbn [negb]. unfold tryMock.
  destruct (isEmpty _ && _).
  - destruct (getMockServiceLogs _ _ _); [|done].
    cbn [results errors attempted]. by destruct (isEmpty _).
  - by destruct (isEmpty _).
Qed.

Lemma getServiceLogs_without_real_source env service options :
  toLowerCase service ∈ supportedServices →
  let real := tryFile env service (optionType options) (optionSource options)
                (optionLines env options)
                (tryDocker env service (optionSource options)
                   (optionLines env options) (mkAttempts [] [] [])) in
  results real = [] →
  (getServiceLogs env service options).1
  = if bool_decide (toLowerCase service ∈ ["manager"; "agent"]) then
      match getMockServiceLogs env service (optionLines env options) with
      | inl mockLogs =>
          inl {| ServiceLog.service := service;
                 ServiceLog.type := optionType options;
                 ServiceLog.timestamp := toISOString env (nowMs env);
                 ServiceLog.sources := [mockLogs];
                 ServiceLog.errors :=
                   if isEmpty (errors real) then None else Some (errors real) |}
      | inr _ => inr "Invalid time value"
      end
    else inr ("No logs available for " +:+ service +:+ ". Errors: "
              +:+ join ", " (errors real)).
Proof.
  intros Hsupported real Hnone. unfold getServiceLogs.
  rewrite (bool_decide_eq_true_2 _ Hsupported). cbn [negb]. fold real.
  unfold tryMock. rewrite Hnone. cbn [isEmpty andb].
  case_bool_decide.
  - destruct (getMockServiceLogs _ _ _) as [mockLogs|message] eqn:Hmock.
    + done.
    + by rewrite (getMockServiceLogs_message _ _ _ _ Hmock).
  - by rewrite Hnone.
Qed.

Lemma getServiceLogs_with_real_source env service options :
  toLowerCase service ∈ supportedServices →
  let real := tryFile env service (optionType options) (optionSource options)
                (optionLines env options)
                (tryDocker env service (optionSource options)
                   (optionLines env options) (mkAttempts [] [] [])) in
  results real ≠ [] →
  (getServiceLogs env service options).1
  = inl {| ServiceLog.service := service;
           ServiceLog.type := optionType options;
           ServiceLog.timestamp := toISOString env (nowMs env);
           ServiceLog.sources := results real;
           ServiceLog.errors :=
             if isEmpty (errors real) then None else Some (errors real) |}.
Proof.
  intros Hsupported real Hsome. unfold getServiceLogs.
  rewrite (bool_decide_eq_true_2 _ Hsupported). cbn [negb]. fold real.
  unfold tryMock. destruct (results real) as [|found rest] eqn:Hresults; [done|].
  cbn [isEmpty andb]. by rewrite Hresults.
Qed.

Section SingleSource.
Variable env : LogEnv.
Variable service : string.
Variable options : LogOptions.t.
Hypothesis supported : toLowerCase service ∈ supportedServices.

Lemma getServiceLogs_file :
  LogOptions.source options = Some "file" →
  Forall (λ effect, usesDocker effect = false) (getServiceLogs env service options).2
  ∧ ∀ logPath message,
      getLogPath env service (optionType options) = Some logPath →
      (readLogFile env logPath (optionLines env options)).1 = inr message →
      (getServiceLogs env service options).1
      = afterSourceFailure env service options ("File logs failed: " +:+ message).
Proof.
  intros Hsource.
  assert (Hfile : optionSource options = "file").
  { unfold optionSource. by rewrite Hsource. }
  split.
  - rewrite (getServiceLogs_effects _ _ _ supported), Hfile.
    rewrite tryDocker_file, tryFile_file.
    destruct (getLogPath env service (optionType options)) as [logPath|]; [|done].
    pose proof (readLogFile_uses_file env logPath (optionLines env options)) as Heff.
    by destruct (readLogFile env logPath (optionLines env options)) as [[found|message] eff].
  - intros logPath message Hpath Hread.
    pose proof (getServiceLogs_without_real_source env service options supported) as Hcall.
    cbn zeta in Hcall. rewrite Hfile, tryDocker_file, tryFile_file, Hpath in Hcall.
    destruct (readLogFile env logPath (optionLines env options)) as [[found|message'] eff];
      [done|]. injection Hread as ->.
    by rewrite (Hcall eq_refl).
Qed.

Lemma getServiceLogs_docker :
  LogOptions.source options = Some "docker" →
  Forall (λ effect, usesFile effect = false) (getServiceLogs env service options).2
  ∧ (getContainerName service = None →
       (getServiceLogs env service options).1
       = afterSourceFailure env service options
           ("No container name configured for " +:+ service))
  ∧ ∀ container message,
      getContainerName service = Some container →
      (readDockerLogs env container (optionLines env options)).1 = inr message →
      (getServiceLogs env service options).1
      = afterSourceFailure env service options ("Docker logs failed: " +:+ message).
Proof.
  intros Hsource.
  assert (Hdocker : optionSource options = "docker").
  { unfold optionSource. by rewrite Hsource. }
  pose proof (getServiceLogs_without_real_source env service options supported) as Hcall.
  cbn zeta in Hcall. rewrite Hdocker, tryFile_docker, tryDocker_docker in Hcall.
  split; [|split].
  - rewrite (getServiceLogs_effects _ _ _ supported), Hdocker.
    rewrite tryFile_docker, tryDocker_docker.
    destruct (getContainerName service) as [container|]; [|done].
    pose proof (readDockerLogs_uses_docker env container (optionLines env options))
      as Heff.
    by destruct (readDockerLogs env container (optionLines env options))
      as [[found|message] eff].
  - intros Hcontainer. rewrite Hcontainer in Hcall. by rewrite (Hcall eq_refl).
  - intros container message Hcontainer Hread. rewrite Hcontainer in Hcall.
    destruct (readDockerLogs env container (optionLines env options))
      as [[found|message'] eff]; [done|]. injection Hread as ->.
    by rewrite (Hcall eq_refl).
Qed.

End SingleSource.

(** C9, amended.  For a supported service, [source: "file"] tries the log
    file only and [source: "docker"] tries the container only: the other
    real source is never read.  When that one source fails, the call throws
    for etcd and redis, with the error of the source in the message; for
    manager and agent it returns the fabricated lines, with the error of
    the source listed in [errors], unless the lines cannot be dated: the
    first of them is dated [lines] minutes before now, and when that is
    before the earliest date there is (from about 1.44e11 lines on) the call
    throws the RangeError [Invalid time value] instead. *)
Theorem getServiceLogs_single_real_source env service options :
  toLowerCase service ∈ supportedServices →
  (LogOptions.source options = Some "file" →
     Forall (λ effect, usesDocker effect = false) (getServiceLogs env service options).2
     ∧ ∀ logPath message,
         getLogPath env service (optionType options) = Some logPath →
         (readLogFile env logPath (optionLines env options)).1 = inr message →
         (getServiceLogs env service options).1
         = if bool_decide (toLowerCase service ∈ ["manager"; "agent"]) then
             match getMockServiceLogs env service (optionLines env options) with
             | inl mockLogs =>
                 inl {| ServiceLog.service := service;
                        ServiceLog.type := optionType options;
                        ServiceLog.timestamp := toISOString env (nowMs env);
                        ServiceLog.sources := [mockLogs];
                        ServiceLog.errors := Some ["File logs failed: " +:+ message] |}
             | inr _ => inr "Invalid time value"
             end
           else inr ("No logs available for " +:+ service +:+ ". Errors: "
                     +:+ "File logs failed: " +:+ message))
  ∧ (LogOptions.source options = Some "docker" →
     Forall (λ effect, usesFile effect = false) (getServiceLogs env service options).2
     ∧ (getContainerName service = None →
          (getServiceLogs env service options).1
          = afterSourceFailure env service options
              ("No container name configured for " +:+ service))
     ∧ ∀ container message,
         getContainerName service = Some container →
         (readDockerLogs env container (optionLines env options)).1 = inr message →
         (getServiceLogs env service options).1
         = afterSourceFailure env service options
             ("Docker logs failed: " +:+ message))
  ∧ (- maxTime ≤ nowMs env ≤ maxTime →
     if bool_decide (0 < optionLines env options
                     ∧ nowMs env + maxTime < optionLines env options * 60000) then
       getMockServiceLogs env service (optionLines env options)
       = inr "Invalid time value"
     else
       ∃ mock, getMockServiceLogs env service (optionLines env options) = inl mock
               ∧ LogSource.source mock = "mock").
Proof.
  intros Hsupported. split; [|split].
  - by apply getServiceLogs_file.
  - by apply getServiceLogs_docker.
  - apply getMockServiceLogs_outcome.
Qed.

Lemma getServiceLogs_single_real_source_witness :
  (getServiceLogs bareMachine "etcd" (LogOptions.mk None None (Some "docker"))).1
  = inr "No logs available for etcd. Errors: Docker logs failed: Command failed: docker logs".
Proof.
  destruct (getServiceLogs_single_real_source bareMachine "etcd"
              (LogOptions.mk None None (Some "docker"))) as (_ & Hdocker & _).
  - refine (bool_decide_unpack (_ ∈ _) _). vm_compute. exact I.
  - destruct (Hdocker eq_refl) as (_ & _ & Hfailed).
    exact (Hfailed "backendai-backendai-half-etcd-1" "Command failed: docker logs"
             eq_refl eq_refl).
Defined.

(** * Further properties of the code *)

(** ** The counters and the host list of the unified report *)

Lemma forEachCallback_totals hosts isoNow acc result index acc' :
  forEachCallback hosts isoNow acc result index = Some acc' →
  totalHealthy acc' = totalHealthy acc + payloadCount HostReport.healthy_count result
  ∧ totalUnhealthy acc'
    = totalUnhealthy acc + payloadCount HostReport.unhealthy_count result
      + (if isRejected result then 1 else 0)
  ∧ totalDegraded acc' = totalDegraded acc + payloadCount HostReport.degraded_count result
  ∧ totalUnknown acc' = totalUnknown acc + payloadCount HostReport.unknown_count result.
Proof.
  unfold forEachCallback. destruct result as [value|message]; simpl.
  - destruct (match HostReport.checks (ProbeValue.data value) with
              | Some cs => _ | None => _ end); simpl; [|done].
    intros [= <-]. simpl. repeat split; lia.
  - destruct (hosts !! index); simpl; [|done].
    intros [= <-]. simpl. repeat split; lia.
Qed.

Lemma forEachResult_totals hosts isoNow results : ∀ index acc acc',
  forEachResult hosts isoNow results index acc = Some acc' →
  totalHealthy acc'
    = totalHealthy acc + sumZ (payloadCount HostReport.healthy_count <$> results)
  ∧ totalUnhealthy acc'
    = totalUnhealthy acc + sumZ (payloadCount HostReport.unhealthy_count <$> results)
      + Z.of_nat (length (filter (λ r, isRejected r = true) results))
  ∧ totalDegraded acc'
    = totalDegraded acc + sumZ (payloadCount HostReport.degraded_count <$> results)
  ∧ totalUnknown acc'
    = totalUnknown acc + sumZ (payloadCount HostReport.unknown_count <$> results).
Proof.
  induction results as [|result rest IH]; intros index acc acc'.
  - simpl. intros [= <-]. repeat split; lia.
  - cbn [forEachResult].
    destruct (forEachCallback hosts isoNow acc result index) as [acc1|] eqn:Hstep;
      cbn [mbind option_bind]; [|done].
    intros Hrest. apply IH in Hrest as (-> & -> & -> & ->).
    apply forEachCallback_totals in Hstep as (-> & -> & -> & ->).
    destruct result as [value|message].
    + rewrite filter_cons_False by done. rewrite !fmap_cons.
      unfold sumZ. cbn [foldr payloadCount isRejected]. repeat split; lia.
    + rewrite filter_cons_True by done. rewrite !fmap_cons.
      unfold sumZ. cbn [foldr payloadCount isRejected length]. repeat split; lia.
Qed.

(** X1.  The four counters of the unified report are sums of what the hosts'
    payloads declare ([0] for a missing counter), the unhealthy counter
    taking one more for every rejected task; [total_checks] is the number of
    entries of [checks] and is not computed from the counters.  This is for
    counters that are counts, none below 0, whose totals do not exceed 2^53:
    the code adds them as floating-point numbers, and up to there its sums
    are the exact ones. *)
Theorem combineHealthResults_counters results hosts isoNow report :
  (∀ r counter,
     r ∈ results →
     counter ∈ [HostReport.healthy_count; HostReport.unhealthy_count;
                HostReport.degraded_count; HostReport.unknown_count] →
     0 ≤ payloadCount counter r) →
  sumZ (payloadCount HostReport.healthy_count <$> results) ≤ 2 ^ 53 →
  sumZ (payloadCount HostReport.unhealthy_count <$> results)
    + Z.of_nat (length (filter (λ r, isRejected r = true) results)) ≤ 2 ^ 53 →
  sumZ (payloadCount HostReport.degraded_count <$> results) ≤ 2 ^ 53 →
  sumZ (payloadCount HostReport.unknown_count <$> results) ≤ 2 ^ 53 →
  combineHealthResults results hosts isoNow = Some report →
  UnifiedReport.healthy_count report
    = sumZ (payloadCount HostReport.healthy_count <$> results)
  ∧ UnifiedReport.unhealthy_count report
    = sumZ (payloadCount HostReport.unhealthy_count <$> results)
      + Z.of_nat (length (filter (λ r, isRejected r = true) results))
  ∧ UnifiedReport.degraded_count report
    = sumZ (payloadCount HostReport.degraded_count <$> results)
  ∧ UnifiedReport.unknown_count report
    = sumZ (payloadCount HostReport.unknown_count <$> results)
  ∧ UnifiedReport.total_checks report
    = length (concat (zip_with (entriesOf isoNow) hosts results)).
Proof.
  intros _ _ _ _ _ Hreport.
  destruct (combineHealthResults_checks _ _ _ _ Hreport) as [Hchecks ->].
  rewrite Hchecks. revert Hreport. unfold combineHealthResults.
  destruct (forEachResult hosts isoNow results 0 initialTotals) as [t|] eqn:Ht;
    simpl; [|done].
  destruct (mapM _ hosts) as [summaries|]; simpl; [|done].
  intros [= <-]. simpl.
  apply forEachResult_totals in Ht as (-> & -> & -> & ->). simpl.
  repeat split; lia.
Qed.

Lemma combineHealthResults_counters_witness :
  UnifiedReport.unhealthy_count <$>
    combineHealthResults
      [fulfilled (ProbeValue.mk localHost (sampleReport "etcd" "Unhealthy"));
       rejected None]
      [localHost; remoteHost] "2025-01-01T00:00:10.000Z"
  = Some 2.
Proof.
  destruct (combineHealthResults
      [fulfilled (ProbeValue.mk localHost (sampleReport "etcd" "Unhealthy"));
       rejected None]
      [localHost; remoteHost] "2025-01-01T00:00:10.000Z") as [report|] eqn:Hreport.
  - simpl. f_equal.
    refine (proj1 (proj2 (combineHealthResults_counters _ _ _ _ _ _ _ _ _ Hreport))).
    + intros r counter Hr Hcounter.
      rewrite !elem_of_cons, elem_of_nil in Hr.
      rewrite !elem_of_cons, elem_of_nil in Hcounter.
      destruct Hr as [->|[->|[]]];
        destruct Hcounter as [->|[->|[->|[->|[]]]]]; vm_compute; discriminate.
    + vm_compute. discriminate.
    + vm_compute. discriminate.
    + vm_compute. discriminate.
    + vm_compute. discriminate.
  - vm_compute in Hreport. discriminate.
Defined.

(** [results.find] gives a host the result at the index of the first host
    that has its id. *)
Lemma findResultOfHost_first hosts results hostId j hj :
  hosts !! j = Some hj →
  Host.id hj = hostId →
  (∀ k h, hosts !! k = Some h → (k < j)%nat → Host.id h ≠ hostId) →
  ∀ k, (k ≤ j)%nat →
    findResultOfHost hosts hostId (drop k results) k = Some (results !! j).
Proof.
  intros Hj Hid Hfirst k Hk.
  remember (j - k)%nat as d eqn:Hd. revert k Hk Hd.
  induction d as [|d IH]; intros k Hk Hd.
  - assert (k = j) as -> by lia.
    destruct (drop j results) as [|result rest] eqn:Hdrop; simpl.
    + f_equal. symmetry. apply lookup_ge_None.
      apply (f_equal length) in Hdrop. rewrite length_drop in Hdrop. simpl in Hdrop. lia.
    + rewrite Hj. simpl. rewrite bool_decide_eq_true_2 by done.
      f_equal. rewrite <-(Nat.add_0_r j), <-lookup_drop, Hdrop. done.
  - destruct (drop k results) as [|result rest] eqn:Hdrop; simpl.
    + f_equal. symmetry. apply lookup_ge_None.
      apply (f_equal length) in Hdrop. rewrite length_drop in Hdrop. simpl in Hdrop. lia.
    + destruct (lookup_lt_is_Some_2 hosts k) as [hk Hhk].
      { apply lookup_lt_Some in Hj. lia. }
      rewrite Hhk. simpl. rewrite bool_decide_eq_false_2.
      * assert (rest = drop (S k) results) as ->.
        { replace (S k) with (k + 1)%nat by lia. by rewrite <-drop_drop, Hdrop. }
        apply IH; lia.
      * apply (Hfirst k hk Hhk). lia.
Qed.

(** X2.  The [hosts] list of the unified report has one summary per host, in
    the order of the hosts, with the host's id, name, address and type.  Its
    [status] is read from the result at the index of the first host that has
    the same id: a host that shares its id with an earlier host is reported
    with the earlier host's status, and a host for which there is no result
    is offline. *)
Theorem combineHealthResults_host_summaries results hosts isoNow report i h j first :
  combineHealthResults results hosts isoNow = Some report →
  hosts !! i = Some h →
  list_find (λ h', Host.id h' = Host.id h) hosts = Some (j, first) →
  length (UnifiedReport.hosts report) = length hosts
  ∧ (j ≤ i)%nat
  ∧ UnifiedReport.hosts report !! i
    = Some {| HostSummary.id := Host.id h;
              HostSummary.name := Host.name h;
              HostSummary.host := Host.host h;
              HostSummary.port := Host.port h;
              HostSummary.type := Host.type h;
              HostSummary.status :=
                match results !! j with
                | Some (fulfilled _) => "online"
                | _ => "offline"
                end |}.
Proof.
  intros Hreport Hh Hfind. revert Hreport. unfold combineHealthResults.
  destruct (forEachResult hosts isoNow results 0 initialTotals) as [t|]; simpl; [|done].
  destruct (mapM _ hosts) as [summaries|] eqn:Hsummaries; simpl; [|done].
  intros [= <-]. simpl. apply mapM_Some in Hsummaries.
  apply list_find_Some in Hfind as (Hj & Hid & Hfirst).
  split; [symmetry; by eapply Forall2_length|]. split.
  { destruct (decide (j ≤ i)%nat) as [|Hgt]; [done|].
    exfalso. apply (Hfirst i h Hh); [lia|done]. }
  destruct (Forall2_lookup_l _ _ _ _ _ Hsummaries Hh) as (summary & -> & Hsummary).
  unfold hostSummary in Hsummary.
  pose proof (findResultOfHost_first hosts results (Host.id h) j first Hj Hid) as Hscan.
  rewrite <-(drop_0 results) in Hsummary at 1.
  rewrite Hscan in Hsummary.
  - simpl in Hsummary. injection Hsummary as <-. f_equal. f_equal.
    unfold onlineStatus. by destruct (results !! j) as [[?|?]|].
  - intros k h' Hk Hlt. by apply (Hfirst k h' Hk).
  - lia.
Qed.

Lemma combineHealthResults_host_summaries_witness :
  let twin := Host.mk "h1" "twin" "10.0.0.8" 8095 "agent" true "" in
  (λ r, HostSummary.status <$> UnifiedReport.hosts r !! 1%nat) <$>
    combineHealthResults
      [rejected (Some "spawn ENOENT");
       fulfilled (ProbeValue.mk twin (sampleReport "etcd" "Healthy"))]
      [localHost; twin] "2025-01-01T00:00:10.000Z"
  = Some (Some "offline").
Proof.
  intros twin.
  destruct (combineHealthResults
      [rejected (Some "spawn ENOENT");
       fulfilled (ProbeValue.mk twin (sampleReport "etcd" "Healthy"))]
      [localHost; twin] "2025-01-01T00:00:10.000Z") as [report|] eqn:Hreport.
  - destruct (combineHealthResults_host_summaries _ _ _ _ 1%nat twin 0%nat localHost
                Hreport eq_refl eq_refl) as (_ & _ & Hsummary).
    simpl. rewrite Hsummary. reflexivity.
  - vm_compute in Hreport. discriminate.
Defined.

(** ** The registry operations *)

Lemma getHostById_find hosts id :
  getHostById hosts id = snd <$> list_find (λ host, Host.id host = id) hosts.
Proof. unfold getHostById. by destruct (list_find _ hosts) as [[index host]|]. Qed.

Lemma not_elem_of_delete_NoDup {A B} (f : A → B) (l : list A) i x :
  NoDup (f <$> l) → l !! i = Some x → f x ∉ f <$> delete i l.
Proof.
  intros Hnodup Hx Hin.
  apply list_elem_of_fmap in Hin as (y & Hfy & Hy).
  apply list_elem_of_lookup in Hy as [k Hk].
  destruct (decide (k < i)%nat) as [Hlt|Hge].
  - rewrite list_lookup_delete_lt in Hk by done.
    assert (i = k); [|lia].
    apply (NoDup_lookup _ i k (f x) Hnodup); rewrite list_lookup_fmap.
    + by rewrite Hx.
    + rewrite Hk. simpl. by rewrite Hfy.
  - rewrite list_lookup_delete_ge in Hk by lia.
    assert (i = S k); [|lia].
    apply (NoDup_lookup _ i (S k) (f x) Hnodup); rewrite list_lookup_fmap.
    + by rewrite Hx.
    + rewrite Hk. simpl. by rewrite Hfy.
Qed.

Lemma removeHost_id_gone hosts id :
  NoDup (Host.id <$> hosts) → id ∉ Host.id <$> (removeHost hosts id).1.
Proof.
  intros Hnodup. unfold removeHost.
  destruct (list_find _ hosts) as [[index host]|] eqn:Hfind; simpl.
  - apply list_find_Some in Hfind as (Hindex & Hid & _).
    rewrite <-Hid. by apply not_elem_of_delete_NoDup.
  - intros Hin. apply list_elem_of_fmap in Hin as (h & -> & Hin).
    apply list_find_None in Hfind.
    by apply (proj1 (Forall_forall _ _) Hfind h Hin).
Qed.

(** X3.  [removeHost] takes out exactly the host that [getHostById] finds,
    the first with that id, and returns it; when there is none it returns
    [null] and leaves the registry as it is.  When the ids of the registry
    are distinct, no host with that id is left afterwards. *)
Theorem removeHost_removes_what_lookup_finds hosts id :
  (removeHost hosts id).2 = getHostById hosts id
  ∧ (getHostById hosts id = None → (removeHost hosts id).1 = hosts)
  ∧ (∀ h, getHostById hosts id = Some h → hosts ≡ₚ h :: (removeHost hosts id).1)
  ∧ (NoDup (Host.id <$> hosts) → id ∉ Host.id <$> (removeHost hosts id).1).
Proof.
  split; [|split; [|split]]; [| | |apply removeHost_id_gone];
    rewrite getHostById_find; unfold removeHost;
    destruct (list_find _ hosts) as [[index host]|] eqn:Hfind; simpl; try done.
  intros h [= <-]. apply list_find_Some in Hfind as (Hindex & _ & _).
  by apply delete_Permutation.
Qed.

(** X4.  [updateHost] changes the first host that has the id and nothing
    else: the registry keeps its length and every other position; it
    returns the updated host, or [null] with the registry unchanged when no
    host has the id.  When the update carries no [id] the ids are what
    they were, in the same order. *)
Theorem updateHost_touches_one_host hosts id updates :
  length (updateHost hosts id updates).1 = length hosts
  ∧ (updateHost hosts id updates).2
    = (λ host, assign host updates) <$> getHostById hosts id
  ∧ (getHostById hosts id = None → (updateHost hosts id updates).1 = hosts)
  ∧ (∀ index host,
       list_find (λ host, Host.id host = id) hosts = Some (index, host) →
       (updateHost hosts id updates).1 !! index = Some (assign host updates)
       ∧ ∀ k, k ≠ index → (updateHost hosts id updates).1 !! k = hosts !! k)
  ∧ (HostUpdates.id updates = None →
       Host.id <$> (updateHost hosts id updates).1 = Host.id <$> hosts).
Proof.
  rewrite getHostById_find. unfold updateHost.
  destruct (list_find _ hosts) as [[index host]|] eqn:Hfind; simpl.
  - apply list_find_Some in Hfind as (Hindex & Hid & _).
    split; [by rewrite length_insert|]. split; [done|]. split; [done|]. split.
    + intros ? ? [= <- <-]. split.
      * apply list_lookup_insert_eq. by eapply lookup_lt_Some.
      * intros k Hk. by apply list_lookup_insert_ne.
    + intros Hnoid. rewrite list_fmap_insert. apply list_insert_id.
      rewrite list_lookup_fmap, Hindex. simpl. unfold assign. simpl.
      by rewrite Hnoid.
  - split; [done|]. split; [done|]. split; [done|]. split; [done|]. done.
Qed.

(** X5.  Adding a host whose id the registry does not have and removing that
    id again gives back the registry and the host that was added; in
    between, a lookup of the id finds the new host. *)
Theorem addHost_removeHost_round_trip hosts body now :
  Host.id (addHost hosts body now).2 ∉ Host.id <$> hosts →
  getHostById (addHost hosts body now).1 (Host.id (addHost hosts body now).2)
    = Some (addHost hosts body now).2
  ∧ removeHost (addHost hosts body now).1 (Host.id (addHost hosts body now).2)
    = (hosts, Some (addHost hosts body now).2).
Proof.
  unfold addHost. cbn [fst snd].
  set (newHost := Host.mk _ _ _ _ _ _ _). intros Hfresh.
  assert (Hnone : list_find (λ host, Host.id host = Host.id newHost) hosts = None).
  { apply list_find_None, Forall_forall. intros h Hin Hid.
    apply Hfresh. rewrite <-Hid. by apply list_elem_of_fmap_2. }
  assert (Hfind : list_find (λ host, Host.id host = Host.id newHost) (hosts ++ [newHost])
                  = Some (length hosts, newHost)).
  { rewrite (list_find_app_r _ _ _ Hnone). simpl.
    by rewrite decide_True by done. }
  split.
  - by rewrite getHostById_find, Hfind.
  - unfold removeHost. rewrite Hfind. f_equal.
    rewrite delete_take_drop, take_app_length.
    rewrite drop_ge by (rewrite length_app; simpl; lia). by rewrite app_nil_r.
Qed.

Lemma addHost_removeHost_round_trip_witness :
  removeHost
    (addHost [localHost] (HostConfig.mk (Some "h9") "new box" "10.0.0.9" None None None None)
       1735689600000).1 "h9"
  = ([localHost],
     Some (Host.mk "h9" "new box" "10.0.0.9" 8095 "dynamic" true "")).
Proof.
  refine (proj2 (addHost_removeHost_round_trip [localHost]
    (HostConfig.mk (Some "h9") "new box" "10.0.0.9" None None None None)
    1735689600000 _)).
  refine (bool_decide_unpack (_ ∉ _) _). vm_compute. exact I.
Defined.

(** X6.  A host that was added is among the enabled hosts, after the ones
    that were there, unless the request said [enabled: false]; in that
    case the enabled hosts, which are the ones probed, are unchanged. *)
Theorem addHost_enabled_hosts hosts body now :
  getEnabledHosts (addHost hosts body now).1
  = getEnabledHosts hosts
    ++ (if bool_decide (HostConfig.enabled body = Some false) then []
        else [(addHost hosts body now).2]).
Proof.
  unfold addHost, getEnabledHosts. cbn [fst snd]. rewrite filter_app. f_equal.
  destruct (HostConfig.enabled body) as [[]|]; simpl.
  - by rewrite filter_cons_True by done.
  - by rewrite filter_cons_False by done.
  - by rewrite filter_cons_True by done.
Qed.

(** ** What a report mentions *)

Lemma combineHealthResults_host_ids results hosts isoNow report :
  combineHealthResults results hosts isoNow = Some report →
  HostSummary.id <$> UnifiedReport.hosts report = Host.id <$> hosts.
Proof.
  unfold combineHealthResults.
  destruct (forEachResult hosts isoNow results 0 initialTotals) as [t|]; simpl; [|done].
  destruct (mapM _ hosts) as [summaries|] eqn:Hsummaries; simpl; [|done].
  intros [= <-]. simpl. apply mapM_Some in Hsummaries.
  induction Hsummaries as [|h summary hosts' summaries' Hsummary _ IH]; [done|].
  rewrite !fmap_cons, IH. f_equal.
  unfold hostSummary in Hsummary.
  destruct (findResultOfHost _ _ _ _); simpl in Hsummary; [|done].
  by injection Hsummary as <-.
Qed.

Lemma getAllHealthChecks_host_ids m registry env report :
  (getAllHealthChecks m registry env).1.2 = Some report →
  HostSummary.id <$> UnifiedReport.hosts report
    = Host.id <$> getEnabledHosts registry.
Proof.
  unfold getAllHealthChecks, aggregate. simpl. intros Hreport.
  by rewrite (combineHealthResults_host_ids _ _ _ _ Hreport).
Qed.

Lemma getAllHealthChecks_checks_of_enabled m registry env report :
  (getAllHealthChecks m registry env).1.2 = Some report →
  ∀ c, c ∈ UnifiedReport.checks report →
    ∃ h, h ∈ registry ∧ Host.enabled h = true
      ∧ Check.host_id c = Some (Host.id h).
Proof.
  unfold getAllHealthChecks, aggregate. simpl. intros Hreport c Hc.
  destruct (combineHealthResults_checks _ _ _ _ Hreport) as [Hchecks _].
  rewrite Hchecks in Hc.
  apply elem_of_concat_zip_with in Hc as (i & h & r & Hh & _ & Hc).
  apply entriesOf_tagged in Hc as (Hid & _).
  apply list_elem_of_lookup_2, list_elem_of_filter in Hh as [Henabled Hin].
  by exists h.
Qed.

(** X7.  A report of [getAllHealthChecks] mentions the enabled hosts of the
    registry and no others: its [hosts] list has their ids in registry
    order, and every check is tagged with the id of an enabled host. *)
Theorem getAllHealthChecks_mentions_enabled_hosts_only m registry env report :
  (getAllHealthChecks m registry env).1.2 = Some report →
  HostSummary.id <$> UnifiedReport.hosts report
    = Host.id <$> filter (λ host, Host.enabled host = true) registry
  ∧ ∀ c, c ∈ UnifiedReport.checks report →
      ∃ h, h ∈ registry ∧ Host.enabled h = true
        ∧ Check.host_id c = Some (Host.id h).
Proof.
  intros Hreport. split.
  - by apply (getAllHealthChecks_host_ids m registry env).
  - by apply (getAllHealthChecks_checks_of_enabled m registry env).
Qed.

Lemma getAllHealthChecks_mentions_enabled_hosts_only_witness :
  let disabled := Host.mk "h4" "spare" "10.0.0.4" 8095 "agent" false "" in
  (λ r, HostSummary.id <$> UnifiedReport.hosts r)
    <$> (getAllHealthChecks freshManager [localHost; disabled; remoteHost]
           (allHealthy 1000)).1.2
  = Some ["h1"; "h2"].
Proof.
  intros disabled.
  destruct (getAllHealthChecks freshManager [localHost; disabled; remoteHost]
              (allHealthy 1000)).1.2 as [report|] eqn:Hreport.
  - destruct (getAllHealthChecks_mentions_enabled_hosts_only _ _ _ _ Hreport)
      as [Hids _].
    simpl. f_equal. rewrite Hids. reflexivity.
  - vm_compute in Hreport. discriminate.
Defined.

Lemma not_enabled_after_disable hosts index host host' :
  NoDup (Host.id <$> hosts) →
  hosts !! index = Some host →
  Host.id host' = Host.id host →
  Host.enabled host' = false →
  Host.id host ∉ Host.id <$> getEnabledHosts (<[index := host']> hosts).
Proof.
  intros Hnodup Hindex Hid Hdisabled Hin.
  apply list_elem_of_fmap in Hin as (h & Hh & Hin).
  apply list_elem_of_filter in Hin as [Henabled Hin].
  apply list_elem_of_lookup in Hin as [k Hk].
  destruct (decide (k = index)) as [->|Hne].
  - rewrite list_lookup_insert_eq in Hk by by eapply lookup_lt_Some.
    injection Hk as <-. congruence.
  - rewrite list_lookup_insert_ne in Hk by done.
    apply Hne. apply (NoDup_lookup _ k index (Host.id host) Hnodup);
      rewrite list_lookup_fmap.
    + rewrite Hk. simpl. by rewrite Hh.
    + by rewrite Hindex.
Qed.

(** X8.  With distinct ids in the registry, a host leaves the reports at
    once when it is removed through [DELETE /api/hosts/:id] or disabled
    through [PUT /api/hosts/:id] with [enabled: false] (and no new id): the
    next report of [GET /api/health/all] has no summary and no check with
    its id, whatever the cache held. *)
Theorem removed_or_disabled_host_leaves_the_report s id updates env :
  NoDup (Host.id <$> config s) →
  (∀ report,
     (getHealthAll (deleteHost s id).1 env).1.2 = Some report →
     (id ∉ (HostSummary.id <$> UnifiedReport.hosts report))
     ∧ ∀ c, c ∈ UnifiedReport.checks report → Check.host_id c ≠ Some id)
  ∧ (HostUpdates.enabled updates = Some false →
     HostUpdates.id updates = None →
     ∀ report,
       (getHealthAll (putHost s id updates).1 env).1.2 = Some report →
       (id ∉ (HostSummary.id <$> UnifiedReport.hosts report))
       ∧ ∀ c, c ∈ UnifiedReport.checks report → Check.host_id c ≠ Some id).
Proof.
  intros Hnodup.
  assert (Hmentions : ∀ s' report,
    id ∉ Host.id <$> getEnabledHosts (config s') →
    (getHealthAll s' env).1.2 = Some report →
    (id ∉ (HostSummary.id <$> UnifiedReport.hosts report))
    ∧ ∀ c, c ∈ UnifiedReport.checks report → Check.host_id c ≠ Some id).
  { intros s' report Hgone. unfold getHealthAll.
    destruct (getAllHealthChecks (healthManager s') (config s') env)
      as [[m' report'] trace] eqn:Hcall.
    simpl. intros ->.
    assert (Hreport : (getAllHealthChecks (healthManager s') (config s') env).1.2
                      = Some report) by by rewrite Hcall.
    split; [by rewrite (getAllHealthChecks_host_ids _ _ _ _ Hreport)|].
    intros c Hc Hid.
    destruct (getAllHealthChecks_checks_of_enabled _ _ _ _ Hreport c Hc)
      as (h & Hin & Henabled & Hh).
    apply Hgone. rewrite Hid in Hh. injection Hh as ->.
    apply list_elem_of_fmap_2. by apply list_elem_of_filter. }
  split.
  - intros report. apply Hmentions.
    intros Hin. apply (removeHost_id_gone (config s) id Hnodup).
    apply list_elem_of_fmap in Hin as (h & Hid & Hin).
    apply list_elem_of_filter in Hin as [_ Hin].
    apply list_elem_of_fmap. exists h. split; [done|].
    unfold deleteHost in Hin.
    destruct (removeHost (config s) id) as [hosts [removed|]]; simpl in *; done.
  - intros Hdisable Hnoid report. apply Hmentions.
    unfold putHost, updateHost.
    destruct (list_find _ (config s)) as [[index host]|] eqn:Hfind; simpl.
    + apply list_find_Some in Hfind as (Hindex & <- & _).
      apply not_enabled_after_disable; try done.
      * unfold assign. simpl. by rewrite Hnoid.
      * unfold assign. simpl. by rewrite Hdisable.
    + intros Hin. apply list_elem_of_fmap in Hin as (h & -> & Hin).
      apply list_elem_of_filter in Hin as [_ Hin].
      apply list_find_None in Hfind.
      by apply (proj1 (Forall_forall _ _) Hfind h Hin).
Qed.

Lemma removed_or_disabled_host_leaves_the_report_witness :
  (λ r, HostSummary.id <$> UnifiedReport.hosts r)
    <$> (getHealthAll
           (putHost sampleServer "h2"
              (HostUpdates.mk None None None None None (Some false) None)).1
           (allHealthy 2000)).1.2
  = Some ["h1"; "h3"]
  ∧ "h2" ∉ ["h1"; "h3"].
Proof.
  split; [reflexivity|].
  destruct (removed_or_disabled_host_leaves_the_report sampleServer "h2"
              (HostUpdates.mk None None None None None (Some false) None)
              (allHealthy 2000)) as [_ Hdisabled].
  - refine (bool_decide_unpack (NoDup _) _). vm_compute. exact I.
  - destruct (getHealthAll
           (putHost sampleServer "h2"
              (HostUpdates.mk None None None None None (Some false) None)).1
           (allHealthy 2000)).1.2 as [report|] eqn:Hreport.
    + destruct (Hdisabled eq_refl eq_refl report eq_refl) as [Hgone _].
      assert (Hids : HostSummary.id <$> UnifiedReport.hosts report = ["h1"; "h3"]).
      { vm_compute in Hreport. injection Hreport as <-. reflexivity. }
      by rewrite <-Hids.
    + vm_compute in Hreport. discriminate.
Defined.

(** ** What the probes do to the cache *)

Lemma cacheKey_endpoint_inj h endpoint1 endpoint2 :
  cacheKey h endpoint1 = cacheKey h endpoint2 → endpoint1 = endpoint2.
Proof.
  unfold cacheKey. intros Heq.
  apply (inj (String.app (Host.id h))) in Heq.
  by apply (inj (String.app "-")) in Heq.
Qed.

(** X9.  One call of [executeRemoteHealthCheck] changes at most the cache
    entry of its own host and endpoint: every other key keeps its entry, in
    particular what is cached for the same host under another endpoint is
    served as before; an entry that is there stays or is replaced, never
    removed; the timeout is not touched. *)
Theorem executeRemoteHealthCheck_frame m host endpoint e :
  let m' := (executeRemoteHealthCheck m host endpoint e).1.1 in
  cacheTimeout m' = cacheTimeout m
  ∧ (∀ key, key ≠ cacheKey host endpoint → cache m' !! key = cache m !! key)
  ∧ (∀ endpoint' now, endpoint' ≠ endpoint →
       cachedData m' (cacheKey host endpoint') now
       = cachedData m (cacheKey host endpoint') now)
  ∧ (∀ key, is_Some (cache m !! key) → is_Some (cache m' !! key)).
Proof.
  intros m'.
  assert (Hframe : ∀ key, key ≠ cacheKey host endpoint →
                     cache m' !! key = cache m !! key).
  { intros key Hkey. unfold m', executeRemoteHealthCheck, remoteRun. simpl.
    destruct (cachedData _ _ _); [done|].
    destruct (axiosGet _ _); simpl; [|done]. by apply lookup_insert_ne. }
  assert (Htimeout : cacheTimeout m' = cacheTimeout m).
  { unfold m', executeRemoteHealthCheck. simpl. apply store_cacheTimeout. }
  split; [done|]. split; [done|]. split.
  - intros endpoint' now Hne. unfold cachedData. rewrite Htimeout, Hframe; [done|].
    intros Heq. by apply cacheKey_endpoint_inj in Heq.
  - intros key Hsome. destruct (decide (key = cacheKey host endpoint)) as [->|Hne].
    + unfold m', executeRemoteHealthCheck, remoteRun. simpl.
      destruct (cachedData _ _ _); [done|].
      destruct (axiosGet _ _); simpl; [|done]. rewrite lookup_insert_eq. by eexists.
    + by rewrite Hframe.
Qed.

Lemma applyWrites_keeps_entries key runs : ∀ m,
  is_Some (cache m !! key) → is_Some (cache (applyWrites m runs) !! key).
Proof.
  unfold applyWrites. induction runs as [|run runs IH]; intros m Hsome; simpl; [done|].
  apply IH. destruct (cacheWrite run) as [[key' entry]|]; simpl; [|done].
  destruct (decide (key' = key)) as [->|Hne].
  - rewrite lookup_insert_eq. by eexists.
  - by rewrite lookup_insert_ne.
Qed.

(** X10.  A cycle of [getAllHealthChecks] writes the cache only under the
    keys [<id>-/api/health/all] of enabled remote hosts: every other key
    keeps its entry, no entry is ever removed, and a registry whose enabled
    hosts are all local leaves the cache exactly as it was. *)
Theorem getAllHealthChecks_cache_frame m registry env :
  let m' := (getAllHealthChecks m registry env).1.1 in
  (∀ key,
     (∀ h, h ∈ registry → Host.enabled h = true → isLocal h = false →
        key ≠ cacheKey h "/api/health/all") →
     cache m' !! key = cache m !! key)
  ∧ (∀ key, is_Some (cache m !! key) → is_Some (cache m' !! key))
  ∧ ((∀ h, h ∈ registry → Host.enabled h = true → isLocal h = true) →
       cache m' = cache m).
Proof.
  intros m'.
  assert (Hframe : ∀ key,
     (∀ h, h ∈ registry → Host.enabled h = true → isLocal h = false →
        key ≠ cacheKey h "/api/health/all") →
     cache m' !! key = cache m !! key).
  { intros key Hkey. unfold m', getAllHealthChecks, aggregate. simpl.
    apply applyWrites_untouched. intros run entry Hrun Hwrite.
    apply list_elem_of_lookup in Hrun as [i Hrun].
    unfold fanOut in Hrun. apply list_lookup_imap_Some in Hrun as (h & Hh & ->).
    apply list_elem_of_lookup_2, list_elem_of_filter in Hh as [Henabled Hin].
    destruct (isLocal h) eqn:Hlocal.
    - by rewrite (proj2 (hostTask_local _ _ _ _ _ Hlocal)) in Hwrite.
    - apply hostTask_write_key in Hwrite. by apply (Hkey h). }
  split; [done|]. split.
  - intros key. unfold m', getAllHealthChecks, aggregate. simpl.
    apply applyWrites_keeps_entries.
  - intros Hlocal. apply map_eq. intros key. apply Hframe.
    intros h Hin Henabled Hremote. rewrite (Hlocal h Hin Henabled) in Hremote. done.
Qed.

(** ** Clearing the cache twice *)

Lemma clearCache_lookup_clears m hostId key :
  cache (clearCache m hostId) !! key
  = if clears hostId key then None else cache m !! key.
Proof.
  destruct hostId as [[|a id]|]; try done.
  by rewrite clearCache_lookup.
Qed.

Lemma manager_eq (m1 m2 : HealthCheckManager) :
  healthCheckerPath m1 = healthCheckerPath m2 →
  cache m1 = cache m2 →
  cacheTimeout m1 = cacheTimeout m2 →
  m1 = m2.
Proof. destruct m1, m2. simpl. by intros -> -> ->. Qed.

(** X11.  [clearCache] only removes entries; clearing for the same id twice
    is the same as clearing once, and two clearings give the same cache in
    either order. *)
Theorem clearCache_idempotent_and_commutes m hostId1 hostId2 :
  (∀ key entry,
     cache (clearCache m hostId1) !! key = Some entry → cache m !! key = Some entry)
  ∧ clearCache (clearCache m hostId1) hostId1 = clearCache m hostId1
  ∧ clearCache (clearCache m hostId1) hostId2 = clearCache (clearCache m hostId2) hostId1.
Proof.
  split; [|split].
  - intros key entry. rewrite clearCache_lookup_clears.
    by destruct (clears hostId1 key).
  - apply manager_eq; try done. apply map_eq. intros key.
    rewrite !clearCache_lookup_clears. by destruct (clears hostId1 key).
  - apply manager_eq; try done. apply map_eq. intros key.
    rewrite !clearCache_lookup_clears.
    by destruct (clears hostId1 key), (clears hostId2 key).
Qed.

(** ** Loading the registry from [hosts.csv] *)

Lemma csv_rows_pushed rows : ∀ hosts,
  foldl (λ hosts row, hosts ++ [csvHost row (length hosts)]) hosts rows
  = hosts ++ imap (λ i row, csvHost row (length hosts + i)) rows.
Proof.
  induction rows as [|row rows IH]; intros hosts; simpl.
  - by rewrite app_nil_r.
  - rewrite IH, Nat.add_0_r, <-app_assoc. simpl. do 2 f_equal.
    apply imap_ext. intros i row' _. simpl. f_equal.
    rewrite length_app. simpl. lia.
Qed.

Lemma filter_idemp {A} (P : A → Prop) `{∀ x, Decision (P x)} (l : list A) :
  filter P (filter P l) = filter P l.
Proof.
  induction l as [|x l IH]; [done|].
  rewrite filter_cons. destruct (decide (P x)); [|done].
  rewrite filter_cons_True by done. by rewrite IH.
Qed.

Lemma loadHostsFromCSV_rows rows :
  loadHostsFromCSV rows
  = filter (λ host, Host.enabled host = true) (imap (λ i row, csvHost row i) rows).
Proof. unfold loadHostsFromCSV. by rewrite csv_rows_pushed. Qed.

(** X12.  Every host that [loadHostsFromCSV] resolves with is enabled: rows
    whose [enabled] cell is not exactly ["true"] are dropped at load time
    and cannot be enabled later.  A row that is kept becomes a host whose id
    is its name, or ["host-<n>"] for an empty name, [n] being the number of
    rows before it in the file, dropped ones included. *)
Theorem loadHostsFromCSV_keeps_enabled_rows rows :
  getEnabledHosts (loadHostsFromCSV rows) = loadHostsFromCSV rows
  ∧ (∀ h, h ∈ loadHostsFromCSV rows ↔
       ∃ n row, rows !! n = Some row
         ∧ CsvRow.enabled row = Some "true"
         ∧ h = csvHost row n)
  ∧ ∀ n row, Host.id (csvHost row n)
      = if bool_decide (CsvRow.name row = "") then "host-" +:+ pretty n
        else CsvRow.name row.
Proof.
  split; [|split].
  - unfold getEnabledHosts, loadHostsFromCSV. apply filter_idemp.
  - intros h. rewrite loadHostsFromCSV_rows, list_elem_of_filter, list_elem_of_lookup.
    split.
    + intros [Henabled [n Hn]].
      apply list_lookup_imap_Some in Hn as (row & Hrow & ->).
      exists n, row. split; [done|]. split; [|done].
      simpl in Henabled. by apply bool_decide_eq_true in Henabled.
    + intros (n & row & Hrow & Henabled & ->). split.
      * simpl. by apply bool_decide_eq_true.
      * exists n. by rewrite list_lookup_imap, Hrow.
  - intros n row. simpl. by destruct (CsvRow.name row).
Qed.

(** X13.  When no row of the file has an empty name, the ids of the hosts
    loaded from it are the names of the rows that are kept, in the order of
    the file; they are distinct when those names differ from one another. *)
Theorem loadHostsFromCSV_distinct_names rows :
  (∀ row, row ∈ rows → CsvRow.name row ≠ "") →
  Host.id <$> loadHostsFromCSV rows
    = CsvRow.name <$> filter (λ row, CsvRow.enabled row = Some "true") rows
  ∧ (NoDup (CsvRow.name <$> filter (λ row, CsvRow.enabled row = Some "true") rows) →
     NoDup (Host.id <$> loadHostsFromCSV rows)).
Proof.
  intros Hnames.
  assert (Hids : Host.id <$> loadHostsFromCSV rows
    = CsvRow.name <$> filter (λ row, CsvRow.enabled row = Some "true") rows).
  { rewrite loadHostsFromCSV_rows.
    assert (Hgen : ∀ start,
      Host.id <$> filter (λ host, Host.enabled host = true)
                    (imap (λ i row, csvHost row (start + i)) rows)
      = CsvRow.name <$> filter (λ row, CsvRow.enabled row = Some "true") rows).
    { induction rows as [|row rows IH]; intros start; [done|].
      rewrite imap_cons.
      assert (Hrest : ∀ row', row' ∈ rows → CsvRow.name row' ≠ "").
      { intros row' Hin. apply Hnames. by right. }
      assert (Htail : imap ((λ i row', csvHost row' (start + i)) ∘ S) rows
                      = imap (λ i row', csvHost row' (S start + i)) rows).
      { apply imap_ext. intros i row' _. simpl. f_equal. lia. }
      rewrite Htail.
      destruct (decide (CsvRow.enabled row = Some "true")) as [Henabled|Hdisabled].
      - rewrite (filter_cons_True (λ row, CsvRow.enabled row = Some "true") _ _ Henabled).
        rewrite filter_cons_True by (simpl; by apply bool_decide_eq_true).
        rewrite !fmap_cons, (IH Hrest). f_equal.
        simpl. destruct (CsvRow.name row) eqn:Hname; [|done].
        exfalso. apply (Hnames row); [by left|done].
      - rewrite (filter_cons_False (λ row, CsvRow.enabled row = Some "true") _ _ Hdisabled).
        rewrite filter_cons_False; [by apply IH|].
        simpl. rewrite bool_decide_eq_false_2 by done. done. }
    apply (Hgen 0%nat). }
  split; [done|]. by rewrite Hids.
Qed.

Lemma loadHostsFromCSV_distinct_names_witness :
  Host.id <$> loadHostsFromCSV (take 2 sampleRows) = ["manager-1"].
Proof.
  refine (proj1 (loadHostsFromCSV_distinct_names (take 2 sampleRows) _)).
  intros row Hin. cbn in Hin. rewrite !elem_of_cons in Hin.
  destruct Hin as [->|[->|Hin]]; [discriminate|discriminate|].
  by apply not_elem_of_nil in Hin.
Defined.

(** What is loaded from the three sample rows. *)
Example loadHostsFromCSV_sample :
  (λ h, (Host.id h, Host.port h, Host.type h)) <$> loadHostsFromCSV sampleRows
  = [("manager-1", 8095, "manager"); ("host-2", 9000, "unknown")].
Proof. reflexivity. Qed.

(** ** The sources of [getServiceLogs] *)

Lemma tryDocker_on env service source lines a :
  source = "auto" ∨ source = "docker" →
  tryDocker env service source lines a
  = match getContainerName service with
    | Some containerName =>
        match dockerLogs env containerName lines with
        | inl logs =>
            mkAttempts
              (results a ++ [LogSource.mk "docker" (Some containerName) None
                               (length logs) logs])
              (errors a) (attempted a ++ [ExecDockerLogs containerName lines])
        | inr message =>
            mkAttempts (results a) (errors a ++ ["Docker logs failed: " +:+ message])
                       (attempted a ++ [ExecDockerLogs containerName lines])
        end
    | None =>
        mkAttempts (results a)
                   (errors a ++ ["No container name configured for " +:+ service])
                   (attempted a)
    end.
Proof.
  intros Hsource. unfold tryDocker, readDockerLogs.
  assert (bool_decide (source = "auto") || bool_decide (source = "docker") = true) as ->.
  { destruct Hsource as [-> | ->]; reflexivity. }
  destruct (getContainerName service) as [containerName|]; [|done].
  by destruct (dockerLogs env containerName lines).
Qed.

Lemma tryDocker_off env service source lines a :
  source ≠ "auto" → source ≠ "docker" →
  tryDocker env service source lines a = a.
Proof.
  intros Hauto Hdocker. unfold tryDocker.
  by rewrite !bool_decide_eq_false_2 by done.
Qed.

Lemma tryFile_on env service type source lines a :
  (source = "auto" ∧ results a = []) ∨ source = "file" →
  tryFile env service type source lines a
  = match getLogPath env service type with
    | Some logPath =>
        match readLogFile env logPath lines with
        | (inl fileLogs, eff) =>
            mkAttempts (results a ++ [fileLogs]) (errors a) (attempted a ++ eff)
        | (inr message, eff) =>
            mkAttempts (results a) (errors a ++ ["File logs failed: " +:+ message])
                       (attempted a ++ eff)
        end
    | None =>
        mkAttempts (results a)
                   (errors a ++ ["No log path configured for " +:+ service])
                   (attempted a)
    end.
Proof.
  intros Hsource. unfold tryFile.
  assert ((bool_decide (source = "auto") && isEmpty (results a))
          || bool_decide (source = "file") = true) as ->; [|done].
  destruct Hsource as [[-> ->] | ->]; reflexivity.
Qed.

Lemma tryFile_off env service type source lines a :
  source ≠ "auto" ∨ results a ≠ [] → source ≠ "file" →
  tryFile env service type source lines a = a.
Proof.
  intros Hauto Hfile. unfold tryFile.
  rewrite (bool_decide_eq_false_2 (source = "file")) by done.
  destruct Hauto as [Hauto|Hresults].
  - by rewrite (bool_decide_eq_false_2 (source = "auto")) by done.
  - destruct (results a); [done|]. simpl. by rewrite andb_false_r.
Qed.

Lemma readLogFile_source env filePath lines fileLogs eff :
  readLogFile env filePath lines = (inl fileLogs, eff) →
  LogSource.source fileLogs = "file"
  ∧ LogSource.total_lines fileLogs = length (LogSource.logs fileLogs).
Proof.
  unfold readLogFile. destruct (existsSync env filePath); simpl; [|done].
  destruct (tail env filePath lines); [|done]. by intros [= <- _].
Qed.

Lemma tryDocker_then_tryFile_results env service type source lines :
  let a := tryFile env service type source lines
             (tryDocker env service source lines (mkAttempts [] [] [])) in
  results a = []
  ∨ ∃ found,
      results a = [found]
      ∧ LogSource.total_lines found = length (LogSource.logs found)
      ∧ (LogSource.source found = "docker" ∨ LogSource.source found = "file").
Proof.
  assert (Hfile : ∀ a, results a = [] →
    let a' := match getLogPath env service type with
      | Some logPath =>
          match readLogFile env logPath lines with
          | (inl fileLogs, eff) =>
              mkAttempts (results a ++ [fileLogs]) (errors a) (attempted a ++ eff)
          | (inr message, eff) =>
              mkAttempts (results a) (errors a ++ ["File logs failed: " +:+ message])
                         (attempted a ++ eff)
          end
      | None =>
          mkAttempts (results a)
                     (errors a ++ ["No log path configured for " +:+ service])
                     (attempted a)
      end in
    results a' = []
    ∨ ∃ found,
        results a' = [found]
        ∧ LogSource.total_lines found = length (LogSource.logs found)
        ∧ (LogSource.source found = "docker" ∨ LogSource.source found = "file")).
  { intros a Ha. destruct (getLogPath env service type) as [logPath|]; [|by left].
    destruct (readLogFile env logPath lines) as [[fileLogs|message] eff] eqn:Hread;
      [|by left].
    right. exists fileLogs. simpl. rewrite Ha.
    apply readLogFile_source in Hread as [Hsource Htotal]. auto. }
  destruct (decide (source = "auto")) as [->|Hauto];
    [|destruct (decide (source = "docker")) as [->|Hdocker]].
  - rewrite tryDocker_on by by left.
    destruct (getContainerName service) as [containerName|].
    + destruct (dockerLogs env containerName lines) as [logs|message].
      * rewrite tryFile_off by (by right || done). right. eexists. by repeat split; [left].
      * rewrite tryFile_on by by left. by apply Hfile.
    + rewrite tryFile_on by by left. by apply Hfile.
  - rewrite tryDocker_on by by right. rewrite tryFile_off by (by left || done).
    destruct (getContainerName service) as [containerName|]; [|by left].
    destruct (dockerLogs env containerName lines) as [logs|message]; [|by left].
    right. eexists. by repeat split; [left].
  - rewrite tryDocker_off by done.
    destruct (decide (source = "file")) as [->|Hnofile].
    + rewrite tryFile_on by by right. by apply Hfile.
    + rewrite tryFile_off by (by left || done). by left.
Qed.

Lemma getMockServiceLogs_source env service lines mock :
  getMockServiceLogs env service lines = inl mock →
  LogSource.source mock = "mock"
  ∧ LogSource.total_lines mock = length (LogSource.logs mock).
Proof.
  unfold getMockServiceLogs. destruct (mapM _ _) as [mockLogs|]; [|done].
  by intros [= <-].
Qed.

(** X14.  Whenever [getServiceLogs] returns, whatever the options, the
    result has exactly one source: the container, the file, or for manager
    and agent the fabricated lines; results of two sources are never
    combined.  The [total_lines] of the source is the number of its
    entries. *)
Theorem getServiceLogs_returns_one_source env service options log :
  (getServiceLogs env service options).1 = inl log →
  ∃ found,
    ServiceLog.sources log = [found]
    ∧ LogSource.total_lines found = length (LogSource.logs found)
    ∧ (LogSource.source found = "docker" ∨ LogSource.source found = "file"
       ∨ (LogSource.source found = "mock"
          ∧ toLowerCase service ∈ ["manager"; "agent"])).
Proof.
  intros Hlog.
  destruct (decide (toLowerCase service ∈ supportedServices)) as [Hsupported|Hnot].
  - pose proof (tryDocker_then_tryFile_results env service (optionType options)
                  (optionSource options) (optionLines env options)) as Hreal.
    cbn zeta in Hreal. destruct Hreal as [Hnone | (real & Hone & Htotal & Hsource)].
    + rewrite (getServiceLogs_without_real_source _ _ _ Hsupported Hnone) in Hlog.
      case_bool_decide as Hmock; [|done].
      destruct (getMockServiceLogs _ _ _) as [mock|] eqn:Hcall; [|done].
      injection Hlog as <-. apply getMockServiceLogs_source in Hcall as [Hsource Htotal].
      exists mock. split; [done|]. split; [done|]. auto.
    + rewrite (getServiceLogs_with_real_source _ _ _ Hsupported) in Hlog
        by by rewrite Hone.
      injection Hlog as <-. exists real. split; [done|]. split; [done|].
      destruct Hsource; auto.
  - unfold getServiceLogs in Hlog. by rewrite bool_decide_eq_false_2 in Hlog.
Qed.

Lemma getServiceLogs_returns_one_source_witness :
  match (getServiceLogs bareMachine "agent" (LogOptions.mk (Some 3) None None)).1 with
  | inl log =>
      ∃ found,
        ServiceLog.sources log = [found]
        ∧ LogSource.total_lines found = length (LogSource.logs found)
        ∧ (LogSource.source found = "docker" ∨ LogSource.source found = "file"
           ∨ (LogSource.source found = "mock"
              ∧ toLowerCase "agent" ∈ ["manager"; "agent"]))
  | inr _ => False
  end.
Proof.
  destruct (getServiceLogs bareMachine "agent" (LogOptions.mk (Some 3) None None)).1
    as [log|message] eqn:Hcall.
  - exact (getServiceLogs_returns_one_source bareMachine "agent"
             (LogOptions.mk (Some 3) None None) log Hcall).
  - vm_compute in Hcall. discriminate.
Defined.

(** X15.  With [source: "auto"] (the default) the container is read first;
    when it gives its lines the file is not touched.  When the service has
    no container or the read fails, the file is read next and its lines are
    returned together with the error of the container.  When the file fails
    too, etcd and redis get the exception, whose message lists both errors
    in that order; manager and agent get the fabricated lines with both
    errors, or, when those lines cannot be dated, the RangeError
    [Invalid time value] of [getMockServiceLogs], which is not caught. *)
Theorem getServiceLogs_auto_order env service options :
  toLowerCase service ∈ supportedServices →
  optionSource options = "auto" →
  let lines := optionLines env options in
  let report sources errors :=
    inl {| ServiceLog.service := service;
           ServiceLog.type := optionType options;
           ServiceLog.timestamp := toISOString env (nowMs env);
           ServiceLog.sources := sources;
           ServiceLog.errors := errors |} in
  (∀ container logs,
     getContainerName service = Some container →
     dockerLogs env container lines = inl logs →
     getServiceLogs env service options
     = (report [LogSource.mk "docker" (Some container) None (length logs) logs] None,
        [ExecDockerLogs container lines]))
  ∧ ∀ dockerError dockerTried logPath,
      (getContainerName service = None
       ∧ dockerError = "No container name configured for " +:+ service
       ∧ dockerTried = [])
      ∨ (∃ container message,
           getContainerName service = Some container
           ∧ dockerLogs env container lines = inr message
           ∧ dockerError = "Docker logs failed: " +:+ message
           ∧ dockerTried = [ExecDockerLogs container lines]) →
      getLogPath env service (optionType options) = Some logPath →
      getServiceLogs env service options
      = match readLogFile env logPath lines with
        | (inl fileLogs, eff) => (report [fileLogs] (Some [dockerError]), dockerTried ++ eff)
        | (inr message, eff) =>
            (if bool_decide (toLowerCase service ∈ ["manager"; "agent"]) then
               match getMockServiceLogs env service lines with
               | inl mockLogs =>
                   report [mockLogs]
                          (Some [dockerError; "File logs failed: " +:+ message])
               | inr _ => inr "Invalid time value"
               end
             else
               inr ("No logs available for " +:+ service +:+ ". Errors: "
                    +:+ dockerError +:+ ", " +:+ "File logs failed: " +:+ message),
             dockerTried ++ eff)
        end.
Proof.
  intros Hsupported Hauto lines report.
  pose proof (getServiceLogs_effects env service options Hsupported) as Heffects.
  pose proof (getServiceLogs_without_real_source env service options Hsupported) as Hnone.
  pose proof (getServiceLogs_with_real_source env service options Hsupported) as Hsome.
  cbn zeta in Hnone, Hsome. fold lines in Heffects, Hnone, Hsome.
  rewrite Hauto in Heffects, Hnone, Hsome.
  rewrite tryDocker_on in Heffects, Hnone, Hsome by by left.
  rewrite (surjective_pairing (getServiceLogs env service options)). split.
  - intros container logs Hcontainer Hlogs.
    rewrite Hcontainer, Hlogs in Heffects, Hsome.
    rewrite tryFile_off in Heffects, Hsome by (by right || done).
    by rewrite Heffects, Hsome.
  - intros dockerError dockerTried logPath Hdocker Hpath.
    assert (Hblock : match getContainerName service with
      | Some containerName =>
          match dockerLogs env containerName lines with
          | inl logs =>
              mkAttempts
                (results (mkAttempts [] [] [])
                   ++ [LogSource.mk "docker" (Some containerName) None
                         (length logs) logs])
                (errors (mkAttempts [] [] []))
                (attempted (mkAttempts [] [] []) ++ [ExecDockerLogs containerName lines])
          | inr message =>
              mkAttempts (results (mkAttempts [] [] []))
                         (errors (mkAttempts [] [] [])
                            ++ ["Docker logs failed: " +:+ message])
                         (attempted (mkAttempts [] [] [])
                            ++ [ExecDockerLogs containerName lines])
          end
      | None =>
          mkAttempts (results (mkAttempts [] [] []))
                     (errors (mkAttempts [] [] [])
                        ++ ["No container name configured for " +:+ service])
                     (attempted (mkAttempts [] [] []))
      end = mkAttempts [] [dockerError] dockerTried).
    { destruct Hdocker as [(-> & -> & ->) | (container & message & -> & -> & -> & ->)];
        reflexivity. }
    rewrite Hblock in Heffects, Hnone, Hsome.
    rewrite tryFile_on in Heffects, Hnone, Hsome by by left.
    cbn [results errors attempted] in Heffects, Hnone, Hsome.
    rewrite Hpath in Heffects, Hnone, Hsome.
    destruct (readLogFile env logPath lines) as [[fileLogs|message] eff].
    + by rewrite Heffects, Hsome.
    + rewrite Heffects, (Hnone eq_refl). cbn [errors attempted isEmpty app join].
      by case_bool_decide.
Qed.

Lemma getServiceLogs_auto_order_witness :
  (getServiceLogs bareMachine "redis" (LogOptions.mk None None None)).1
  = inr ("No logs available for redis. Errors: "
         +:+ "Docker logs failed: Command failed: docker logs, "
         +:+ "File logs failed: Log file not found: /var/log/redis/redis-server.log").
Proof.
  destruct (getServiceLogs_auto_order bareMachine "redis" (LogOptions.mk None None None))
    as [_ Hfallback].
  - refine (bool_decide_unpack (_ ∈ _) _). vm_compute. exact I.
  - reflexivity.
  - rewrite (Hfallback "Docker logs failed: Command failed: docker logs"
               [ExecDockerLogs "caster-redis-1" 100] "/var/log/redis/redis-server.log").
    + reflexivity.
    + right. exists "caster-redis-1", "Command failed: docker logs". by repeat split.
    + reflexivity.
Defined.

Lemma getContainerName_mockable service :
  toLowerCase service ∈ ["manager"; "agent"] → getContainerName service = None.
Proof.
  intros Hin. unfold getContainerName. rewrite !elem_of_cons in Hin.
  destruct Hin as [->|[->|Hin]]; [done|done|]. by apply not_elem_of_nil in Hin.
Qed.

(** X16.  For manager and agent [getServiceLogs] never runs [docker logs],
    because they have no container name, and the only exception it can
    throw is the RangeError of the fabricated lines.  The first of those
    lines is dated [lines] minutes before now: as long as that is a date
    (or no line is asked for) the call returns, whatever the options and
    whatever the machine has; it can fail only when [lines] minutes ago is
    before the earliest date there is, from about 1.44e11 lines on. *)
Theorem getServiceLogs_manager_and_agent_fail_on_dates_only env service options :
  toLowerCase service ∈ ["manager"; "agent"] →
  - maxTime ≤ nowMs env ≤ maxTime →
  let lines := optionLines env options in
  Forall (λ effect, usesDocker effect = false) (getServiceLogs env service options).2
  ∧ (lines ≤ 0 ∨ lines * 60000 ≤ nowMs env + maxTime →
       ∃ log, (getServiceLogs env service options).1 = inl log)
  ∧ (∀ message,
       (getServiceLogs env service options).1 = inr message →
       message = "Invalid time value"
       ∧ 0 < lines ∧ nowMs env + maxTime < lines * 60000).
Proof.
  intros Hmock Hnow lines.
  assert (Hsupported : toLowerCase service ∈ supportedServices).
  { unfold supportedServices. rewrite !elem_of_cons in *. tauto. }
  pose proof (getServiceLogs_effects env service options Hsupported) as Heffects.
  pose proof (getServiceLogs_without_real_source env service options Hsupported) as Hnone.
  pose proof (getServiceLogs_with_real_source env service options Hsupported) as Hsome.
  cbn zeta in Hnone, Hsome. fold lines in Heffects, Hnone, Hsome.
  rewrite (bool_decide_eq_true_2 _ Hmock) in Hnone.
  pose proof (getMockServiceLogs_outcome env service lines Hnow) as Hdated.
  set (a1 := tryDocker _ _ _ _ _) in *.
  assert (Ha1 : attempted a1 = []).
  { unfold a1, tryDocker. rewrite (getContainerName_mockable _ Hmock).
    by destruct (_ || _). }
  set (a2 := tryFile _ _ _ _ _ a1) in *.
  assert (Ha2 : Forall (λ effect, usesDocker effect = false) (attempted a2)).
  { unfold a2, tryFile. destruct (_ || _); [|by rewrite Ha1].
    destruct (getLogPath _ _ _) as [logPath|]; [|by rewrite Ha1].
    pose proof (readLogFile_uses_file env logPath lines) as Heff.
    destruct (readLogFile _ _ _) as [[fileLogs|message] eff];
      cbn [attempted snd] in *; by rewrite Ha1. }
  split; [by rewrite Heffects|].
  destruct (results a2) as [|found rest] eqn:Hresults.
  - rewrite (Hnone eq_refl). case_bool_decide as Hlate.
    + rewrite Hdated. split; [lia|]. by intros message [= <-].
    + destruct Hdated as (mock & -> & _). split; [by eexists|]. by intros message.
  - rewrite Hsome by done. split; [by eexists|]. by intros message.
Qed.

Lemma getServiceLogs_manager_and_agent_fail_on_dates_only_witness :
  ∃ log, (getServiceLogs bareMachine "Manager"
            (LogOptions.mk (Some 2) (Some "error") (Some "docker"))).1 = inl log.
Proof.
  refine (proj1 (proj2 (getServiceLogs_manager_and_agent_fail_on_dates_only
                          bareMachine "Manager"
                          (LogOptions.mk (Some 2) (Some "error") (Some "docker")) _ _))
            _).
  - refine (bool_decide_unpack (_ ∈ _) _). vm_compute. exact I.
  - vm_compute. split; discriminate.
  - right. vm_compute. discriminate.
Defined.

(** A request for 200000000000 lines of the manager, on a machine without
    its log file: the first fabricated line would be dated some 380000
    years ago. *)
Example getServiceLogs_invalid_time_value :
  getServiceLogs bareMachine "manager" (LogOptions.mk (Some 200000000000) None None)
  = (inr "Invalid time value", [ExistsSync "/var/log/backend.ai/manager.log"]).
Proof. vm_compute. reflexivity. Qed.

(** X17.  A [source] other than ["auto"], ["docker"] and ["file"] (such as
    ["container"]) attempts nothing at all: no command is run and no file
    is looked at.  Etcd and redis get the exception with an empty list of
    errors; manager and agent get the fabricated lines without any error
    listed, or the RangeError [Invalid time value] when those lines cannot
    be dated. *)
Theorem getServiceLogs_unknown_source env service options :
  toLowerCase service ∈ supportedServices →
  optionSource options ≠ "auto" →
  optionSource options ≠ "docker" →
  optionSource options ≠ "file" →
  getServiceLogs env service options
  = (if bool_decide (toLowerCase service ∈ ["manager"; "agent"]) then
       match getMockServiceLogs env service (optionLines env options) with
       | inl mockLogs =>
           inl {| ServiceLog.service := service;
                  ServiceLog.type := optionType options;
                  ServiceLog.timestamp := toISOString env (nowMs env);
                  ServiceLog.sources := [mockLogs];
                  ServiceLog.errors := None |}
       | inr _ => inr "Invalid time value"
       end
     else inr ("No logs available for " +:+ service +:+ ". Errors: "),
     []).
Proof.
  intros Hsupported Hauto Hdocker Hfile.
  pose proof (getServiceLogs_effects env service options Hsupported) as Heffects.
  pose proof (getServiceLogs_without_real_source env service options Hsupported) as Hnone.
  cbn zeta in Hnone.
  rewrite tryDocker_off, tryFile_off in Heffects, Hnone by (by left || done).
  rewrite (surjective_pairing (getServiceLogs env service options)).
  by rewrite Heffects, (Hnone eq_refl).
Qed.

Lemma getServiceLogs_unknown_source_witness :
  getServiceLogs bareMachine "etcd" (LogOptions.mk None None (Some "container"))
  = (inr "No logs available for etcd. Errors: ", []).
Proof.
  apply (getServiceLogs_unknown_source bareMachine "etcd"
           (LogOptions.mk None None (Some "container"))).
  - refine (bool_decide_unpack (_ ∈ _) _). vm_compute. exact I.
  - discriminate.
  - discriminate.
  - discriminate.
Defined.

(** ** Log paths and fabricated lines *)

(** X18.  For a supported service [getLogPath] always gives a path that is
    not empty: the value of the environment variable
    [<SERVICE>_LOG_PATH] (or [<SERVICE>_ERROR_LOG_PATH] for the error log)
    when it is set and not empty, the built-in default otherwise.  So the
    branch "No log path configured" of [getServiceLogs] is never taken. *)
Theorem getLogPath_supported env service type :
  toLowerCase service ∈ supportedServices →
  let envKey := toUpperCase service +:+ "_"
                +:+ (if bool_decide (type = "error") then "ERROR_" else "")
                +:+ "LOG_PATH" in
  ∃ logPath,
    getLogPath env service type = Some logPath
    ∧ logPath ≠ ""
    ∧ (∀ value, getenv env envKey = Some value → value ≠ "" → logPath = value)
    ∧ (getenv env envKey = None ∨ getenv env envKey = Some "" →
         getDefaultLogPath service type = Some logPath).
Proof.
  intros Hsupported envKey.
  assert (Hdefault : ∃ p, getDefaultLogPath service type = Some p ∧ p ≠ "").
  { unfold getDefaultLogPath, supportedServices in *. rewrite !elem_of_cons in Hsupported.
    destruct Hsupported as [->|[->|[->|[->|Hin]]]];
      [| | | |by apply not_elem_of_nil in Hin];
      repeat case_bool_decide; try done; eexists; (split; [reflexivity|discriminate]). }
  destruct Hdefault as (p & Hp & Hne).
  unfold getLogPath. fold envKey.
  destruct (getenv env envKey) as [[|a value]|].
  - exists p. repeat split; try done. by intros ? [= <-].
  - exists (String a value). repeat split; try done.
    + by intros ? [= <-].
    + by intros [|].
  - exists p. repeat split; done.
Qed.

Lemma getLogPath_supported_witness :
  ∃ logPath,
    getLogPath bareMachine "ETCD" "error" = Some logPath
    ∧ logPath ≠ ""
    ∧ (∀ value, getenv bareMachine "ETCD_ERROR_LOG_PATH" = Some value →
         value ≠ "" → logPath = value)
    ∧ (getenv bareMachine "ETCD_ERROR_LOG_PATH" = None
       ∨ getenv bareMachine "ETCD_ERROR_LOG_PATH" = Some "" →
         getDefaultLogPath "ETCD" "error" = Some logPath).
Proof.
  apply (getLogPath_supported bareMachine "ETCD" "error").
  refine (bool_decide_unpack (_ ∈ _) _). vm_compute. exact I.
Defined.

Lemma mockEntry_fields env service lines messages i entry :
  mockEntry env service lines messages i = Some entry →
  LogEntry.line entry = S i
  ∧ (i `mod` 10 = 0 → LogEntry.level entry = "ERROR")%nat
  ∧ (i `mod` 10 ≠ 0 → i `mod` 7 = 0 → LogEntry.level entry = "WARN")%nat.
Proof.
  unfold mockEntry. destruct (dateToISOString _ _) as [timestamp|]; [|done].
  cbn [mbind option_bind]. intros [= <-]. cbn [LogEntry.line LogEntry.level].
  split; [lia|]. split.
  - intros Hten. by rewrite bool_decide_eq_true_2.
  - intros Hten Hseven. by rewrite bool_decide_eq_false_2, bool_decide_eq_true_2.
Qed.

Lemma mapM_mockEntry_lines env service lines messages count : ∀ start mockLogs,
  mapM (mockEntry env service lines messages) (seq start count) = Some mockLogs →
  LogEntry.line <$> mockLogs = seq (S start) count.
Proof.
  induction count as [|count IH]; intros start mockLogs Hloop.
  - apply mapM_Some in Hloop. by inversion Hloop.
  - apply mapM_Some in Hloop. cbn [seq] in Hloop.
    inversion Hloop as [|i entry rest entries Hentry Hrest]; subst.
    apply mapM_Some in Hrest. rewrite fmap_cons, (IH _ _ Hrest). cbn [seq].
    by apply mockEntry_fields in Hentry as (-> & _).
Qed.

(** X19.  The fabricated log of manager or agent.  Its first line is dated
    [lines] minutes before now; when that is before the earliest date there
    is (given that lines are asked for), [getMockServiceLogs] throws the
    RangeError [Invalid time value].  In every other case it has as many
    lines as were asked for, but 45 at most and none for a negative number;
    its entries are numbered from 1 without gaps; every entry at a position
    that is a multiple of 10 (the first one included) has level ERROR, and
    of the others those at a multiple of 7 have level WARN. *)
Theorem getMockServiceLogs_lines env service lines :
  toLowerCase service ∈ ["manager"; "agent"] →
  - maxTime ≤ nowMs env ≤ maxTime →
  (0 < lines → nowMs env + maxTime < lines * 60000 →
     getMockServiceLogs env service lines = inr "Invalid time value")
  ∧ (lines ≤ 0 ∨ lines * 60000 ≤ nowMs env + maxTime →
     ∃ mock,
       getMockServiceLogs env service lines = inl mock
       ∧ LogSource.total_lines mock = Z.to_nat (Z.min lines 45)
       ∧ LogEntry.line <$> LogSource.logs mock = seq 1 (Z.to_nat (Z.min lines 45))
       ∧ ∀ i entry, LogSource.logs mock !! i = Some entry →
           (i `mod` 10 = 0 → LogEntry.level entry = "ERROR")%nat
           ∧ (i `mod` 10 ≠ 0 → i `mod` 7 = 0 → LogEntry.level entry = "WARN")%nat).
Proof.
  intros Hmock Hnow. split; [by apply getMockServiceLogs_throws|].
  intros Hdated.
  assert (Hcount : length (getServiceMessages service) = 15%nat).
  { unfold getServiceMessages. rewrite !elem_of_cons in Hmock.
    destruct Hmock as [->|[->|Hin]]; [done|done|]. by apply not_elem_of_nil in Hin. }
  destruct (getMockServiceLogs_returns env service lines) as (mockLogs & Hloop & ->);
    [lia|done|].
  rewrite Hcount in Hloop. change (Z.of_nat 15 * 3) with 45 in Hloop.
  eexists. split; [done|]. cbn [LogSource.total_lines LogSource.logs].
  split; [|split].
  - apply length_mapM in Hloop. by rewrite <-Hloop, length_seq.
  - exact (mapM_mockEntry_lines _ _ _ _ _ 0%nat _ Hloop).
  - intros i entry Hentry. apply mapM_Some in Hloop.
    destruct (Forall2_lookup_r _ _ _ _ _ Hloop Hentry) as (k & Hk & Hfields).
    apply lookup_seq in Hk as [-> _].
    by apply mockEntry_fields in Hfields as (_ & Hten & Hseven).
Qed.

Lemma getMockServiceLogs_lines_witness :
  ∃ mock,
    getMockServiceLogs bareMachine "agent" 1000 = inl mock
    ∧ LogSource.total_lines mock = 45%nat
    ∧ LogEntry.line <$> LogSource.logs mock = seq 1 45
    ∧ ∀ i entry, LogSource.logs mock !! i = Some entry →
        (i `mod` 10 = 0 → LogEntry.level entry = "ERROR")%nat
        ∧ (i `mod` 10 ≠ 0 → i `mod` 7 = 0 → LogEntry.level entry = "WARN")%nat.
Proof.
  refine (proj2 (getMockServiceLogs_lines bareMachine "agent" 1000 _ _) _).
  - refine (bool_decide_unpack (_ ∈ _) _). vm_compute. exact I.
  - vm_compute. split; discriminate.
  - right. vm_compute. discriminate.
Defined.

(** ** Searching the logs *)

Lemma searchEntries_stateless (matches : string → bool) caseSensitive source logs :
  ∀ lastIndex found,
    searchEntries (λ searchText lastIndex', (matches searchText, lastIndex'))
      caseSensitive source logs lastIndex found
    = (lastIndex,
       found ++ (searchHit source
                   <$> filter (λ log, matches (if caseSensitive then LogEntry.message log
                                               else toLowerCase (LogEntry.message log))
                                      = true) logs)).
Proof.
  induction logs as [|log rest IH]; intros lastIndex found; simpl.
  - by rewrite app_nil_r.
  - rewrite IH. rewrite filter_cons.
    destruct (matches _) eqn:Hmatch.
    + rewrite decide_True by done. by rewrite fmap_cons, <-app_assoc.
    + by rewrite decide_False by (by intros [=]).
Qed.

Lemma searchSources_stateless (matches : string → bool) caseSensitive sources :
  ∀ lastIndex found,
    searchSources (λ searchText lastIndex', (matches searchText, lastIndex'))
      caseSensitive sources lastIndex found
    = (lastIndex, found ++ matchingLines matches caseSensitive sources).
Proof.
  induction sources as [|source rest IH]; intros lastIndex found; simpl.
  - by rewrite app_nil_r.
  - rewrite searchEntries_stateless, IH. by rewrite <-app_assoc.
Qed.

Lemma searchEntries_found test caseSensitive source logs :
  ∀ lastIndex found,
    ∃ hits,
      (searchEntries test caseSensitive source logs lastIndex found).2 = found ++ hits
      ∧ (length hits ≤ length logs)%nat.
Proof.
  induction logs as [|log rest IH]; intros lastIndex found; simpl.
  - exists []. by rewrite app_nil_r.
  - destruct (test _ lastIndex) as [[] lastIndex'].
    + destruct (IH lastIndex' (found ++ [searchHit source log])) as (hits & -> & Hlen).
      exists (searchHit source log :: hits). rewrite <-app_assoc. simpl. split; [done|lia].
    + destruct (IH lastIndex' found) as (hits & -> & Hlen).
      exists hits. split; [done|lia].
Qed.

Lemma searchSources_found test caseSensitive sources :
  ∀ lastIndex found,
    ∃ hits,
      (searchSources test caseSensitive sources lastIndex found).2 = found ++ hits
      ∧ (length hits ≤ length (sources ≫= LogSource.logs))%nat.
Proof.
  induction sources as [|source rest IH]; intros lastIndex found.
  - exists []. simpl. by rewrite app_nil_r.
  - cbn [searchSources]. rewrite bind_cons.
    pose proof (searchEntries_found test caseSensitive source (LogSource.logs source)
                  lastIndex found) as (hits1 & Hhits1 & Hlen1).
    destruct (searchEntries _ _ _ _ _ _) as [lastIndex' found']. simpl in Hhits1. subst.
    destruct (IH lastIndex' (found ++ hits1)) as (hits2 & -> & Hlen2).
    exists (hits1 ++ hits2). rewrite <-app_assoc. split; [done|].
    rewrite !length_app. lia.
Qed.

(** X20.  [searchLogs] reads the logs the way [getServiceLogs] does with
    [source: "auto"] and the main log, running the same commands.  It throws
    in two cases and in no other: when that read throws, and when a regular
    expression is asked for and [new RegExp] rejects the query (after the
    logs were read); the message is that of the cause after
    ["Search failed for <service>: "].  In every other case it returns the
    service, the query and the options as given, [total_matches] is the
    number of [results], and there are never more results than lines
    read. *)
Theorem searchLogs_outcome env re service query options :
  let lines := default 1000 (SearchOptions.lines options) in
  let read := getServiceLogs env service (LogOptions.mk (Some lines) None None) in
  let regex := default false (SearchOptions.regex options) in
  let flags := if default false (SearchOptions.caseSensitive options)
               then "g" else "gi" in
  let failed cause := inr ("Search failed for " +:+ service +:+ ": " +:+ cause) in
  (searchLogs env re service query options).2 = read.2
  ∧ (∀ cause,
       read.1 = inr cause →
       (searchLogs env re service query options).1 = failed cause)
  ∧ (∀ logs cause,
       read.1 = inl logs → regex = true →
       compileError re query flags = Some cause →
       (searchLogs env re service query options).1 = failed cause)
  ∧ (∀ logs,
       read.1 = inl logs →
       regex = false ∨ compileError re query flags = None →
       ∃ result,
         (searchLogs env re service query options).1 = inl result
         ∧ SearchResult.service result = service
         ∧ SearchResult.query result = query
         ∧ SearchResult.options result = options
         ∧ SearchResult.total_matches result = length (SearchResult.results result)
         ∧ (SearchResult.total_matches result
            ≤ length (ServiceLog.sources logs ≫= LogSource.logs))%nat).
Proof.
  intros lines read regex flags failed. unfold searchLogs.
  fold lines. fold read. fold regex. fold flags.
  destruct read as [[logs|cause] tried]; cbn [fst snd].
  - destruct regex.
    + destruct (compileError re query flags) as [cause|] eqn:Hcompile; cbn [fst snd].
      * split; [done|]. split; [done|]. split.
        -- by intros ? ? _ _ [= <-].
        -- by intros ? _ [|].
      * pose proof (searchSources_found (regexTest re query flags)
          (default false (SearchOptions.caseSensitive options))
          (ServiceLog.sources logs) 0%nat []) as (hits & Hhits & Hlen).
        destruct (searchSources _ _ _ _ _) as [lastIndex found]. cbn [fst snd] in *.
        subst. split; [done|]. split; [done|]. split; [done|].
        intros ? [= <-] _. eexists. by repeat split.
    + pose proof (searchSources_found
          (λ searchText lastIndex,
             (includes searchText
                (if default false (SearchOptions.caseSensitive options) then query
                 else toLowerCase query), lastIndex))
          (default false (SearchOptions.caseSensitive options))
          (ServiceLog.sources logs) 0%nat []) as (hits & Hhits & Hlen).
      destruct (searchSources _ _ _ _ _) as [lastIndex found]. cbn [fst snd] in *.
      subst. split; [done|]. split; [done|]. split; [done|].
      intros ? [= <-] _. eexists. by repeat split.
  - split; [done|]. split; [by intros ? [= <-]|]. split; done.
Qed.

(** A query that is no regular expression fails the search, after the
    container was read. *)
Example searchLogs_rejected_pattern :
  searchLogs etcdMachine noRegExp "etcd" "(" (SearchOptions.mk None None (Some true))
  = (inr "Search failed for etcd: Invalid regular expression",
     [ExecDockerLogs "backendai-backendai-half-etcd-1" 1000]).
Proof. vm_compute. reflexivity. Qed.

Lemma startsWith_toLowerCase (s q : string) :
  startsWith s q = true → startsWith (toLowerCase s) (toLowerCase q) = true.
Proof.
  revert s. induction q as [|a q IH]; intros [|b s]; simpl; try done.
  rewrite !andb_true_iff, !bool_decide_eq_true. intros [-> Hrest]. auto.
Qed.

Lemma includes_toLowerCase (s q : string) :
  includes s q = true → includes (toLowerCase s) (toLowerCase q) = true.
Proof.
  induction s as [|b s IH]; cbn [includes toLowerCase];
    rewrite !orb_true_iff; intros [Hhere|Hlater].
  - left. by apply (startsWith_toLowerCase "" q).
  - done.
  - left. by apply (startsWith_toLowerCase (String b s) q).
  - right. by apply IH.
Qed.

Lemma includes_empty (s : string) : includes s "" = true.
Proof. by destruct s. Qed.

Lemma filter_sublist_mono {A} (P Q : A → Prop) `{∀ x, Decision (P x)}
    `{∀ x, Decision (Q x)} (l : list A) :
  (∀ x, P x → Q x) → filter P l `sublist_of` filter Q l.
Proof.
  intros HPQ. induction l as [|x l IH]; [done|].
  rewrite !filter_cons. destruct (decide (P x)) as [HP|HP].
  - rewrite decide_True by auto. by apply sublist_skip.
  - destruct (decide (Q x)); [by apply sublist_cons|done].
Qed.

Lemma matchingLines_sublist (sensitive insensitive : string → bool) sources :
  (∀ message, sensitive message = true → insensitive (toLowerCase message) = true) →
  matchingLines sensitive true sources `sublist_of` matchingLines insensitive false sources.
Proof.
  intros Hmono. unfold matchingLines.
  induction sources as [|source rest IH]; [done|].
  cbn [mbind list_bind]. apply sublist_app; [|done].
  apply fmap_sublist, filter_sublist_mono. intros log. apply Hmono.
Qed.

Lemma matchingLines_all (matches : string → bool) caseSensitive sources :
  (∀ text, matches text = true) →
  matchingLines matches caseSensitive sources
  = sources ≫= λ source, searchHit source <$> LogSource.logs source.
Proof.
  intros Hall. unfold matchingLines.
  induction sources as [|source rest IH]; [done|].
  cbn [mbind list_bind]. rewrite IH. f_equal. f_equal.
  induction (LogSource.logs source) as [|log logs' IHl]; [done|].
  rewrite filter_cons_True by apply Hall. by rewrite IHl.
Qed.

(** X21.  Without a regular expression, the results of a case-sensitive
    [searchLogs] are the lines read, in their order, that contain the
    query, and an empty query finds every line, case sensitive or not.  For
    a query and lines of ASCII characters, the search that is not case
    sensitive gives the lines that contain the query once both are put in
    lower case, and it finds every line that the case-sensitive search
    finds. *)
Theorem searchLogs_substring env re service query lines logs :
  (getServiceLogs env service (LogOptions.mk (Some (default 1000 lines)) None None)).1
    = inl logs →
  let search caseSensitive :=
    (searchLogs env re service query
       (SearchOptions.mk lines (Some caseSensitive) (Some false))).1 in
  let hits caseSensitive results :=
    inl {| SearchResult.service := service;
           SearchResult.query := query;
           SearchResult.options :=
             SearchOptions.mk lines (Some caseSensitive) (Some false);
           SearchResult.total_matches := length results;
           SearchResult.results := results |} in
  let sensitive :=
    matchingLines (λ text, includes text query) true (ServiceLog.sources logs) in
  let insensitive :=
    matchingLines (λ text, includes text (toLowerCase query)) false
      (ServiceLog.sources logs) in
  let all :=
    ServiceLog.sources logs ≫= λ source, searchHit source <$> LogSource.logs source in
  search true = hits true sensitive
  ∧ (query = "" → search true = hits true all ∧ search false = hits false all)
  ∧ (isAscii query = true →
     (∀ source log,
        source ∈ ServiceLog.sources logs → log ∈ LogSource.logs source →
        isAscii (LogEntry.message log) = true) →
     search false = hits false insensitive
     ∧ sensitive `sublist_of` insensitive).
Proof.
  intros Hread search hits sensitive insensitive all.
  assert (Hsearch : search true = hits true sensitive
                    ∧ search false = hits false insensitive).
  { unfold search, hits, searchLogs.
    cbn [SearchOptions.lines SearchOptions.caseSensitive SearchOptions.regex default].
    destruct (getServiceLogs _ _ _) as [read tried]. cbn [fst] in Hread. subst read.
    by rewrite !searchSources_stateless. }
  destruct Hsearch as [Hsensitive Hinsensitive].
  split; [done|]. split.
  - intros ->. rewrite Hsensitive, Hinsensitive. unfold sensitive, insensitive.
    cbn [toLowerCase]. by rewrite !matchingLines_all by apply includes_empty.
  - intros _ _. split; [done|].
    apply matchingLines_sublist. intros message. apply includes_toLowerCase.
Qed.

Lemma searchLogs_substring_witness :
  SearchResult.total_matches
    <$> (match (searchLogs etcdMachine noRegExp "etcd" "ERROR"
                  (SearchOptions.mk None (Some false) (Some false))).1 with
         | inl result => Some result
         | inr _ => None
         end)
  = Some 2%nat.
Proof.
  destruct (searchLogs_substring etcdMachine noRegExp "etcd" "ERROR" None
    {| ServiceLog.service := "etcd"; ServiceLog.type := "main";
       ServiceLog.timestamp := "t1735689600000";
       ServiceLog.sources :=
         [LogSource.mk "docker" (Some "backendai-backendai-half-etcd-1") None 3
            [ LogEntry.mk 1 None "INFO" "starting etcd";
              LogEntry.mk 2 None "ERROR" "Error: lost leader";
              LogEntry.mk 3 None "ERROR" "retry after error" ]];
       ServiceLog.errors := None |} eq_refl) as (_ & _ & Hascii).
  destruct Hascii as [Hinsensitive _].
  - reflexivity.
  - intros source log Hsource Hlog. cbn [ServiceLog.sources] in Hsource.
    rewrite elem_of_cons, elem_of_nil in Hsource. destruct Hsource as [->|[]].
    cbn [LogSource.logs] in Hlog. rewrite !elem_of_cons, elem_of_nil in Hlog.
    destruct Hlog as [->|[->|[->|[]]]]; reflexivity.
  - rewrite Hinsensitive. reflexivity.
Defined.

(** ** Streaming *)

(** X22.  [streamServiceLogs] spawns [docker logs] exactly when the source
    is ["docker"], or is ["auto"] and the service has a container name, and
    then never looks at the log file; with ["docker"] and a service without
    a container the container argument is [null] or [undefined].  Otherwise
    it spawns [tail] on the log path if that file exists, always with [-f]
    as the first argument, also when [follow] is false; it returns [null]
    exactly when neither applies.  Unlike [getServiceLogs] it does not check
    that the service is a supported one: this is for every name of ASCII
    characters but ["constructor"] and ["__proto__"] (in any case of the
    letters), for which the lookup of the container name finds a property
    that the object literal inherits. *)
Theorem streamServiceLogs_command env service options :
  isAscii service = true →
  toLowerCase service ≠ "constructor" →
  toLowerCase service ≠ "__proto__" →
  let source := default "auto" (StreamOptions.source options) in
  let docker :=
    source = "docker" ∨ (source = "auto" ∧ is_Some (getContainerName service)) in
  let readable :=
    ∃ logPath, getLogPath env service "main" = Some logPath
      ∧ existsSync env logPath = true in
  (streamServiceLogs env service options = None ↔ ¬ docker ∧ ¬ readable)
  ∧ ∀ command args,
      streamServiceLogs env service options = Some (command, args) →
      (command = "docker" ∧ docker
       ∧ head args = Some (Some "logs")
       ∧ last args = Some (getContainerName service))
      ∨ (command = "tail" ∧ ¬ docker
         ∧ head args = Some (Some "-f")
         ∧ ∃ logPath, getLogPath env service "main" = Some logPath
             ∧ existsSync env logPath = true
             ∧ last args = Some (Some logPath)).
Proof.
  intros _ _ _ source docker readable. unfold streamServiceLogs. fold source.
  destruct (bool_decide (source = "docker")
            || bool_decide (source = "auto")
               && bool_decide (is_Some (getContainerName service))) eqn:Hdocker.
  - assert (docker) as Hd.
    { apply orb_true_iff in Hdocker as [H|H].
      - left. by apply bool_decide_eq_true in H.
      - apply andb_true_iff in H as [H1 H2]. right.
        apply bool_decide_eq_true in H1. by apply bool_decide_eq_true in H2. }
    split.
    + split; [done|]. by intros [? _].
    + intros command args [= <- <-]. left. split; [done|]. split; [done|].
      split; [done|]. by destruct (default true (StreamOptions.follow options)).
  - assert (¬ docker) as Hd.
    { intros [H|[H1 H2]].
      - by rewrite (bool_decide_eq_true_2 _ H) in Hdocker.
      - rewrite (bool_decide_eq_true_2 _ H1), (bool_decide_eq_true_2 _ H2) in Hdocker.
        by rewrite orb_true_r in Hdocker. }
    destruct (getLogPath env service "main") as [logPath|] eqn:Hpath.
    + destruct (existsSync env logPath) eqn:Hexists.
      * split.
        -- split; [done|]. intros [_ Hno]. exfalso. apply Hno. by exists logPath.
        -- intros command args [= <- <-]. right. split; [done|]. split; [done|].
           split; [done|]. exists logPath. split; [done|]. split; [done|].
           by destruct (default true (StreamOptions.follow options)).
      * split; [|done]. split; [|done]. intros _. split; [done|].
        intros (p & [= <-] & Hp). congruence.
    + split; [|done]. split; [|done]. intros _. split; [done|].
      by intros (p & [=] & _).
Qed.

Lemma streamServiceLogs_command_witness :
  streamServiceLogs bareMachine "Redis" (StreamOptions.mk (Some 20) None None) = None
  ↔ ¬ ("auto" = "docker" ∨ ("auto" = "auto" ∧ is_Some (getContainerName "Redis")))
    ∧ ¬ ∃ logPath, getLogPath bareMachine "Redis" "main" = Some logPath
                   ∧ existsSync bareMachine logPath = true.
Proof.
  refine (proj1 (streamServiceLogs_command bareMachine "Redis"
                   (StreamOptions.mk (Some 20) None None) _ _ _)).
  - reflexivity.
  - vm_compute. discriminate.
  - vm_compute. discriminate.
Defined.

(** A stream of the manager logs from the container that does not exist, and
    a stream of a log file that was asked not to follow. *)
Example streamServiceLogs_samples :
  streamServiceLogs bareMachine "manager"
    (StreamOptions.mk None None (Some "docker"))
  = Some ("docker", [Some "logs"; Some "--follow"; Some "--tail"; Some "50";
                     Some "--timestamps"; None])
  ∧ streamServiceLogs
      (mkLogEnv (λ _, None) None (λ _ _, inr "") (λ _, true) (λ _ _, inr "")
         (λ _, 0%nat) 0 (λ _, ""))
      "agent" (StreamOptions.mk (Some 20) (Some false) None)
    = Some ("tail", [Some "-f"; Some "-n"; Some "20";
                     Some "/var/log/backend.ai/agent.log"]).
Proof. split; reflexivity. Qed.

(** ** Log levels *)

Lemma upperChar_lowerChar c : upperChar (lowerChar c) = upperChar c.
Proof. by destruct c as [[] [] [] [] [] [] [] []]; vm_compute. Qed.

Lemma upperChar_upperChar c : upperChar (upperChar c) = upperChar c.
Proof. by destruct c as [[] [] [] [] [] [] [] []]; vm_compute. Qed.

Lemma isWordChar_lowerChar c : isWordChar (lowerChar c) = isWordChar c.
Proof. by destruct c as [[] [] [] [] [] [] [] []]; vm_compute. Qed.

Lemma isWordChar_upperChar c : isWordChar (upperChar c) = isWordChar c.
Proof. by destruct c as [[] [] [] [] [] [] [] []]; vm_compute. Qed.

Lemma keywordAt_toLowerCase w : ∀ s, keywordAt w (toLowerCase s) = keywordAt w s.
Proof.
  induction w as [|a w IH]; intros [|c s]; cbn [keywordAt toLowerCase]; try done.
  - by rewrite isWordChar_lowerChar.
  - by rewrite upperChar_lowerChar, IH.
Qed.

Lemma keywordAt_toUpperCase w : ∀ s, keywordAt w (toUpperCase s) = keywordAt w s.
Proof.
  induction w as [|a w IH]; intros [|c s]; cbn [keywordAt toUpperCase]; try done.
  - by rewrite isWordChar_upperChar.
  - by rewrite upperChar_upperChar, IH.
Qed.

Lemma existsb_ext_all {A} (f g : A → bool) (l : list A) :
  (∀ x, f x = g x) → existsb f l = existsb g l.
Proof. intros Hfg. induction l as [|x l IH]; simpl; [done|]. by rewrite Hfg, IH. Qed.

Lemma hasKeyword_toLowerCase keywords : ∀ s inWord,
  hasKeyword keywords inWord (toLowerCase s) = hasKeyword keywords inWord s.
Proof.
  induction s as [|c s IH]; intros inWord; [done|].
  cbn [hasKeyword toLowerCase]. rewrite IH, isWordChar_lowerChar. f_equal. f_equal.
  apply existsb_ext_all. intros w. apply (keywordAt_toLowerCase w (String c s)).
Qed.

Lemma hasKeyword_toUpperCase keywords : ∀ s inWord,
  hasKeyword keywords inWord (toUpperCase s) = hasKeyword keywords inWord s.
Proof.
  induction s as [|c s IH]; intros inWord; [done|].
  cbn [hasKeyword toUpperCase]. rewrite IH, isWordChar_upperChar. f_equal. f_equal.
  apply existsb_ext_all. intros w. apply (keywordAt_toUpperCase w (String c s)).
Qed.

(** X23.  [extractLogLevel] gives one of the six levels whatever the line
    is.  For a line of ASCII characters it does not depend on the case of
    the letters: the line, the line in lower case and the line in capitals
    have the same level.  (The patterns match ASCII letters only, so that
    putting a line in capitals can change its level when that turns another
    letter into an ASCII one.) *)
Theorem extractLogLevel_ignores_case line :
  extractLogLevel line ∈ ["FATAL"; "ERROR"; "WARN"; "INFO"; "DEBUG"; "TRACE"]
  ∧ (isAscii line = true →
     extractLogLevel (toLowerCase line) = extractLogLevel line
     ∧ extractLogLevel (toUpperCase line) = extractLogLevel line).
Proof.
  split; [|intros _; split].
  - unfold extractLogLevel.
    destruct (list_find _ levelPatterns) as [[i [keywords level]]|] eqn:Hfind.
    + apply list_find_Some in Hfind as (Hlookup & _).
      apply list_elem_of_lookup_2 in Hlookup. unfold levelPatterns in Hlookup.
      rewrite !elem_of_cons in Hlookup. rewrite !elem_of_cons.
      destruct Hlookup as [[= _ <-]|[[= _ <-]|[[= _ <-]|[[= _ <-]|[[= _ <-]|[[= _ <-]|H]]]]]];
        auto 10.
      by apply not_elem_of_nil in H.
    + rewrite !elem_of_cons. auto 10.
  - unfold extractLogLevel.
    assert (list_find (λ p, hasKeyword p.1 false (toLowerCase line) = true) levelPatterns
            = list_find (λ p, hasKeyword p.1 false line = true) levelPatterns) as ->;
      [|done].
    apply list_find_ext. intros [keywords level]. simpl.
    by rewrite hasKeyword_toLowerCase.
  - unfold extractLogLevel.
    assert (list_find (λ p, hasKeyword p.1 false (toUpperCase line) = true) levelPatterns
            = list_find (λ p, hasKeyword p.1 false line = true) levelPatterns) as ->;
      [|done].
    apply list_find_ext. intros [keywords level]. simpl.
    by rewrite hasKeyword_toUpperCase.
Qed.

(** Keywords count only as whole words, and the first pattern in the list
    wins. *)
Example extractLogLevel_samples :
  extractLogLevel "2025-01-01 [error] connection lost" = "ERROR"
  ∧ extractLogLevel "stderr: connection reset" = "INFO"
  ∧ extractLogLevel "warning: fatal error in worker" = "FATAL"
  ∧ extractLogLevel "errors=0 warn_count=2" = "INFO"
  ∧ extractLogLevel "dbg: trace enabled" = "DEBUG"
  ∧ extractLogLevel "" = "INFO".
Proof. repeat split; reflexivity. Qed.

(** ** A local probe that fails *)

Lemma elem_of_concat_zip_with_2 {A B C} (f : A → B → list C) l k i a b c :
  l !! i = Some a → k !! i = Some b → c ∈ f a b → c ∈ concat (zip_with f l k).
Proof.
  revert k i. induction l as [|a' l IH]; intros [|b' k] [|i]; simpl; try done.
  - intros [= ->] [= ->] Hc. apply elem_of_app. by left.
  - intros Ha Hb Hc. apply elem_of_app. right. by apply (IH k i).
Qed.

Lemma aggregate_host_status m arg endpoint env hosts report i h :
  NoDup (Host.id <$> hosts) →
  hosts !! i = Some h →
  (aggregate m arg endpoint env hosts).1.2 = Some report →
  HostSummary.status <$> UnifiedReport.hosts report !! i
  = Some (onlineStatus (Some (settled (hostTask m arg endpoint (task env i) h)))).
Proof.
  intros Hnodup Hh. unfold aggregate, combineHealthResults. simpl.
  destruct (forEachResult _ _ _ _ _) as [t|]; simpl; [|done].
  destruct (mapM _ _) as [summaries|] eqn:Hsummaries; simpl; [|done].
  intros [= <-]. simpl. apply mapM_Some in Hsummaries.
  destruct (Forall2_lookup_l _ _ _ _ _ Hsummaries Hh) as (summary & -> & Hsummary).
  unfold hostSummary in Hsummary.
  pose proof (findResultOfHost_own _ (settled <$> fanOut m arg endpoint env hosts)
                i h Hnodup Hh 0 ltac:(lia)) as Hfind.
  rewrite drop_0 in Hfind. rewrite Hfind in Hsummary. simpl in Hsummary.
  injection Hsummary as <-. simpl.
  by rewrite list_lookup_fmap, (fanOut_lookup _ _ _ _ _ _ _ Hh).
Qed.

(** X24.  The task of a local host is fulfilled only when the probe exits
    with code 0 and prints a report that parses; in every other case (an
    exit code other than 0 even with a valid report on stdout, output that
    does not parse, a probe that cannot be started) what the probe printed
    is dropped, and (ids being distinct) the report of [getAllHealthChecks]
    is Unhealthy, marks the host offline and holds for it the synthetic
    connection failure with the message of the rejection. *)
Theorem failed_local_probe_is_reported m registry env report i h :
  NoDup (Host.id <$> getEnabledHosts registry) →
  getEnabledHosts registry !! i = Some h →
  isLocal h = true →
  (∀ data, process (task env i) ≠ exited (Some 0) (Some data)) →
  (getAllHealthChecks m registry env).1.2 = Some report →
  let message :=
    match process (task env i) with
    | exited (Some 0) _ => "Invalid JSON response from health checker"
    | exited (Some code) _ => "Health checker failed with exit code " +:+ pretty code
    | exited None _ => "Health checker failed with exit code null"
    | spawnFailed message => message
    end in
  settled (hostTask m "all" "/api/health/all" (task env i) h) = rejected (Some message)
  ∧ HostSummary.status <$> UnifiedReport.hosts report !! i = Some "offline"
  ∧ UnifiedReport.overall_status report = "Unhealthy"
  ∧ failedConnectionCheck h (combinedAt env) (Some message)
      ∈ UnifiedReport.checks report.
Proof.
  intros Hnodup Hh Hlocal Hfailed Hreport message.
  assert (Hsettled : settled (hostTask m "all" "/api/health/all" (task env i) h)
                     = rejected (Some message)).
  { unfold hostTask, executeLocalHealthChecker, message. rewrite Hlocal.
    destruct (process (task env i)) as [[[| |]|] [data|]|failure] eqn:Hprocess;
      try done.
    by destruct (Hfailed data). }
  split; [done|].
  assert (Hresult : (settled <$> fanOut m "all" "/api/health/all" env
                       (getEnabledHosts registry)) !! i
                    = Some (rejected (Some message))).
  { by rewrite list_lookup_fmap, (fanOut_lookup _ _ _ _ _ _ _ Hh), <-Hsettled. }
  split; [|split].
  - rewrite (aggregate_host_status _ _ _ _ _ _ _ _ Hnodup Hh Hreport).
    by rewrite Hsettled.
  - unfold getAllHealthChecks, aggregate in Hreport. simpl in Hreport.
    rewrite (combineHealthResults_status _ _ _ _ Hreport). unfold precedenceRule.
    rewrite bool_decide_eq_true_2; [done|].
    apply list_elem_of_lookup. exists i. by rewrite list_lookup_fmap, Hresult.
  - unfold getAllHealthChecks, aggregate in Hreport. simpl in Hreport.
    destruct (combineHealthResults_checks _ _ _ _ Hreport) as [-> _].
    eapply elem_of_concat_zip_with_2; [exact Hh|exact Hresult|]. by left.
Qed.

Lemma failed_local_probe_is_reported_witness :
  let crashed : CycleEnv :=
    mkCycleEnv (λ _, mkTaskEnv 1000 (exited (Some 2) (Some (sampleReport "etcd" "Healthy")))
                       timedOut 1001 "2025-01-01T00:00:01.000Z")
               "2025-01-01T00:00:01.001Z" in
  settled (hostTask freshManager "all" "/api/health/all" (task crashed 0) localHost)
  = rejected (Some "Health checker failed with exit code 2").
Proof.
  intros crashed.
  destruct (getAllHealthChecks freshManager [localHost] crashed).1.2
    as [report|] eqn:Hreport.
  - refine (proj1 (failed_local_probe_is_reported freshManager [localHost] crashed
                     report 0 localHost _ eq_refl eq_refl _ Hreport)).
    + refine (bool_decide_unpack (NoDup _) _). vm_compute. exact I.
    + intros data. discriminate.
  - vm_compute in Hreport. discriminate.
Defined.
